(** * ID-card template engine: reducer, binding resolver, layer manager

    A shallow embedding of the template engine's pure core:
    - [engine/types.ts]                 the data model,
    - [engine/utils/bindingResolver.ts] bindings and conditional visibility,
    - [engine/utils/layerManager.ts]    paint ordering, grouping, locking,
    - the template context              the document and selection reducers,
    - [engine/TemplateEditorCanvas.tsx] the reducer of the editor,
    - [engine/hooks/useElementInteraction.ts] selection, drag and resize
      gestures, keyboard,
    - [utils/cardFormatters.ts]         the phone number formatter.

    Modelling conventions.
    - JavaScript [number]s are modelled exactly: geometry, opacity and data
      values as rationals ([Q]), paint-order indices ([zIndex], [Layer.order])
      and timestamps as integers ([Z]).  IEEE-754 rounding, [NaN] payloads and
      signed zeros are outside the model; [NaN] and the infinities appear only
      as results of [Number(...)].
    - JavaScript strings are modelled as [string] (one character per code
      unit, which is exact for ASCII text).
    - [Record<string, T>] and [Map<string, T>] are finite maps
      ([gmap string T]); arrays are lists.
    - Values typed [any] are JSON-like values ([JSValue]); members inherited
      from built-in prototypes are not part of the model, except that an
      assignment to [__proto__] is the call of a setter.
    - The hooks' refs are a record passed from handler to handler; a
      handler returns the refs after the call and the actions it
      dispatched. *)

From Stdlib Require Import ZArith QArith Qround Qabs String Ascii List Lia Lqa
  DecimalString Sorted Permutation.
From Stdlib Require Decimal DecimalFacts DecimalPos.
From stdpp Require Import base option gmap strings list fin_maps.

Set Warnings "-register-all".
#[local] Open Scope string_scope.
#[local] Open Scope Z_scope.
#[local] Open Scope list_scope.

(** ** Strings *)

Module Str.

(** [s.split(sep)] for a one-character separator: always at least one
    segment. *)
Fixpoint split (sep : ascii) (s : string) : list string :=
  match s with
  | EmptyString => [EmptyString]
  | String c s' =>
      if Ascii.eqb c sep then EmptyString :: split sep s'
      else match split sep s' with
           | [] => [String c EmptyString]
           | seg :: segs => String c seg :: segs
           end
  end.

(** [s.includes(sub)] *)
Fixpoint includes (s sub : string) : bool :=
  String.prefix sub s
  || match s with
     | EmptyString => false
     | String _ s' => includes s' sub
     end.

Fixpoint drop (n : nat) (s : string) : string :=
  match n, s with
  | O, _ => s
  | S n', String _ s' => drop n' s'
  | S _, EmptyString => EmptyString
  end.

Definition snoc (s : string) (c : ascii) : string :=
  String.append s (String c EmptyString).

(** [GetSubstitution] of ECMAScript for a pattern without capture groups:
    in the replacement text, [$$] stands for a dollar sign, [$&] for the
    matched text, [$`] for the text before the match and [$'] for the
    text after it; every other character, and a dollar sign followed by
    anything else, stands for itself. *)
Fixpoint getSubstitution (matched before after repl : string) : string :=
  match repl with
  | EmptyString => EmptyString
  | String c r =>
      if Ascii.eqb c "$" then
        match r with
        | String d r' =>
            if Ascii.eqb d "$" then
              String "$" (getSubstitution matched before after r')
            else if Ascii.eqb d "&" then
              String.append matched (getSubstitution matched before after r')
            else if Ascii.eqb d "`" then
              String.append before (getSubstitution matched before after r')
            else if Ascii.eqb d "'" then
              String.append after (getSubstitution matched before after r')
            else String c (getSubstitution matched before after r)
        | EmptyString => String c EmptyString
        end
      else String c (getSubstitution matched before after r)
  end.

(** [s.replace(/pat/g, repl)] for a pattern [pat] that matches exactly the
    literal text [pat]: matches are found left to right and do not overlap.
    [before] is the part of the subject already scanned, [skip] the number
    of characters of the current match still to be skipped. *)
Fixpoint replaceGo (pat repl before : string) (skip : nat) (s : string)
  : string :=
  match s with
  | EmptyString => EmptyString
  | String c s' =>
      match skip with
      | S k => replaceGo pat repl (snoc before c) k s'
      | O =>
          if String.prefix pat s then
            String.append
              (getSubstitution pat before (drop (String.length pat) s) repl)
              (replaceGo pat repl (snoc before c)
                 (Nat.pred (String.length pat)) s')
          else String c (replaceGo pat repl (snoc before c) O s')
      end
  end.

Definition replaceAllLiteralRegex (pat repl s : string) : string :=
  replaceGo pat repl EmptyString O s.

(** Textual replacement of every occurrence of [pat] by [repl], with no
    interpretation of [repl]. *)
Fixpoint substGo (pat repl : string) (skip : nat) (s : string) : string :=
  match s with
  | EmptyString => EmptyString
  | String c s' =>
      match skip with
      | S k => substGo pat repl k s'
      | O =>
          if String.prefix pat s then
            String.append repl
              (substGo pat repl (Nat.pred (String.length pat)) s')
          else String c (substGo pat repl O s')
      end
  end.

Definition substituteAll (pat repl s : string) : string :=
  substGo pat repl O s.

Fixpoint hasChar (c : ascii) (s : string) : bool :=
  match s with
  | EmptyString => false
  | String d s' => Ascii.eqb c d || hasChar c s'
  end.

End Str.

(** ** JavaScript values *)

(** Result of [Number(v)]. *)
Inductive JSNumber :=
| NaN
| Fin (q : Q)
| PosInf
| NegInf.

(** JSON-like values: what a [DataContext], a template variable or a
    comparison literal can hold. *)
Inductive JSValue :=
| VUndef
| VNull
| VBool (b : bool)
| VNum (q : Q)
| VStr (s : string)
| VArr (items : list JSValue)
| VObj (fields : gmap string JSValue).

Module Num.

Definition ofZ (z : Z) : string := NilZero.string_of_int (Z.to_int z).

(** Decimal digits of the fraction [r / d] (with [0 <= r < d]), at most
    [fuel] of them. *)
Fixpoint fracDigits (fuel : nat) (r d : Z) : string :=
  match fuel with
  | O => EmptyString
  | S fuel' =>
      if r =? 0 then EmptyString
      else String.append (ofZ ((r * 10) / d))
                         (fracDigits fuel' ((r * 10) mod d) d)
  end.

(** [Number::toString]: integers in plain decimal, other values as a
    plain decimal fraction (exact when it terminates within 20 digits;
    exponent notation is not modelled). *)
Definition toString (q : Q) : string :=
  let n := Qnum (Qred q) in
  let d := Zpos (Qden (Qred q)) in
  if d =? 1 then ofZ n
  else
    String.append (if n <? 0 then "-" else EmptyString)
      (String.append (ofZ (Z.abs n / d))
         (String "." (fracDigits 20 (Z.abs n mod d) d))).

Definition isWhite (c : ascii) : bool :=
  let n := nat_of_ascii c in
  ((9 <=? n)%nat && (n <=? 13)%nat) || (n =? 32)%nat.

Fixpoint trimStart (s : string) : string :=
  match s with
  | String c s' => if isWhite c then trimStart s' else s
  | EmptyString => EmptyString
  end.

Fixpoint trimEnd (s : string) : string :=
  match s with
  | EmptyString => EmptyString
  | String c s' =>
      match trimEnd s' with
      | EmptyString => if isWhite c then EmptyString else String c EmptyString
      | t => String c t
      end
  end.

Definition trim (s : string) : string := trimEnd (trimStart s).

(** Value of a digit character in the given radix. *)
Definition digitOf (radix : Z) (c : ascii) : option Z :=
  let n := Z.of_nat (nat_of_ascii c) in
  let v := if (48 <=? n) && (n <=? 57) then Some (n - 48)
           else if (97 <=? n) && (n <=? 102) then Some (n - 87)
           else if (65 <=? n) && (n <=? 70) then Some (n - 55)
           else None in
  match v with
  | Some k => if k <? radix then Some k else None
  | None => None
  end.

(** Longest prefix of digits: its value, its length, and the rest. *)
Fixpoint spanDigits (radix acc : Z) (len : nat) (s : string)
  : Z * nat * string :=
  match s with
  | String c s' =>
      match digitOf radix c with
      | Some k => spanDigits radix (acc * radix + k) (S len) s'
      | None => (acc, len, s)
      end
  | EmptyString => (acc, len, s)
  end.

Definition pow10 (e : Z) : Q :=
  if 0 <=? e then inject_Z (10 ^ e) else / inject_Z (10 ^ (- e)).

(** Optional exponent part followed by the end of the text. *)
Definition exponentPart (s : string) : option Z :=
  match s with
  | EmptyString => Some 0
  | String c s' =>
      if Ascii.eqb c "e" || Ascii.eqb c "E" then
        let '(neg, t) :=
          match s' with
          | String "-" t => (true, t)
          | String "+" t => (false, t)
          | t => (false, t)
          end in
        match spanDigits 10 0 0 t with
        | (_, O, _) => None
        | (e, S _, EmptyString) => Some (if neg then - e else e)
        | _ => None
        end
      else None
  end.

(** [StrUnsignedDecimalLiteral] other than [Infinity]. *)
Definition unsignedDecimal (s : string) : option Q :=
  let '(ip, ilen, r1) := spanDigits 10 0 0 s in
  let '(fp, flen, r2) :=
    match r1 with
    | String "." t => spanDigits 10 0 0 t
    | _ => (0, O, r1)
    end in
  if ((ilen =? 0)%nat && (flen =? 0)%nat) then None
  else
    match exponentPart r2 with
    | Some e =>
        Some (Qred ((inject_Z ip + inject_Z fp * pow10 (- Z.of_nat flen))
                    * pow10 e))
    | None => None
    end.

Definition radixLiteral (radix : Z) (s : string) : JSNumber :=
  match spanDigits radix 0 0 s with
  | (v, S _, EmptyString) => Fin (inject_Z v)
  | _ => NaN
  end.

(** [StringToNumber] *)
Definition ofString (s : string) : JSNumber :=
  match trim s with
  | EmptyString => Fin 0
  | String "0" (String "x" t) | String "0" (String "X" t) => radixLiteral 16 t
  | String "0" (String "o" t) | String "0" (String "O" t) => radixLiteral 8 t
  | String "0" (String "b" t) | String "0" (String "B" t) => radixLiteral 2 t
  | t =>
      let '(neg, u) :=
        match t with
        | String "-" u => (true, u)
        | String "+" u => (false, u)
        | u => (false, u)
        end in
      if String.eqb u "Infinity" then (if neg then NegInf else PosInf)
      else match unsignedDecimal u with
           | Some q => Fin (if neg then Qred (- q) else q)
           | None => NaN
           end
  end.

(** [a < b] on numbers; any comparison with [NaN] is false. *)
Definition lt (a b : JSNumber) : bool :=
  match a, b with
  | NaN, _ | _, NaN => false
  | Fin x, Fin y => negb (Qle_bool y x)
  | NegInf, NegInf => false
  | NegInf, _ => true
  | _, PosInf => match a with PosInf => false | _ => true end
  | _, _ => false
  end.

Definition gt (a b : JSNumber) : bool := lt b a.

(** A canonical array index: the decimal text of a natural number. *)
Definition arrayIndex (key : string) : option nat :=
  match spanDigits 10 0 0 key with
  | (v, S _, EmptyString) =>
      if String.eqb (ofZ v) key then Some (Z.to_nat v) else None
  | _ => None
  end.

End Num.

(** [String(v)] *)
Fixpoint ToString (v : JSValue) : string :=
  match v with
  | VUndef => "undefined"
  | VNull => "null"
  | VBool true => "true"
  | VBool false => "false"
  | VNum q => Num.toString q
  | VStr s => s
  | VArr items =>
      (fix join (l : list JSValue) : string :=
         match l with
         | [] => EmptyString
         | x :: l' =>
             let sx := match x with
                       | VUndef | VNull => EmptyString
                       | _ => ToString x
                       end in
             match l' with
             | [] => sx
             | _ => String.append sx (String "," (join l'))
             end
         end) items
  | VObj _ => "[object Object]"
  end.

(** [Number(v)] *)
Definition ToNumber (v : JSValue) : JSNumber :=
  match v with
  | VUndef => NaN
  | VNull => Fin 0
  | VBool true => Fin 1
  | VBool false => Fin 0
  | VNum q => Fin q
  | VStr s => Num.ofString s
  | VArr _ => Num.ofString (ToString v)
  | VObj _ => NaN
  end.

(** [a === b].  Objects and arrays are compared by reference; a literal of
    the template and a value of the data context are never the same
    object. *)
Definition strictEq (a b : JSValue) : bool :=
  match a, b with
  | VUndef, VUndef => true
  | VNull, VNull => true
  | VBool x, VBool y => Bool.eqb x y
  | VNum x, VNum y => Qeq_bool x y
  | VStr x, VStr y => String.eqb x y
  | _, _ => false
  end.

(** [v === undefined || v === null || v === ''] *)
Definition isBlank (v : JSValue) : bool :=
  strictEq v VUndef || strictEq v VNull || strictEq v (VStr EmptyString).

(** Property read [v[key]].  Reading a property of [undefined] or [null]
    throws a [TypeError], modelled by [None]. *)
Definition getProp (v : JSValue) (key : string) : option JSValue :=
  match v with
  | VUndef | VNull => None
  | VBool _ | VNum _ => Some VUndef
  | VStr s =>
      if String.eqb key "length"
      then Some (VNum (inject_Z (Z.of_nat (String.length s))))
      else match Num.arrayIndex key with
           | Some i => match String.get i s with
                       | Some c => Some (VStr (String c EmptyString))
                       | None => Some VUndef
                       end
           | None => Some VUndef
           end
  | VArr items =>
      if String.eqb key "length"
      then Some (VNum (inject_Z (Z.of_nat (length items))))
      else match Num.arrayIndex key with
           | Some i => Some (default VUndef (items !! i))
           | None => Some VUndef
           end
  | VObj fields => Some (default VUndef (fields !! key))
  end.


(** ** Data model ([engine/types.ts]) *)

Inductive Side := SideFront | SideBack | SideSingle.

Record TemplateMeta := {
  meta_name : string;
  meta_description : string;
  meta_category : string;
  meta_tags : list string;
  meta_author : string;
  meta_createdAt : string;
  meta_updatedAt : string;
  meta_side : Side
}.

Inductive CanvasUnit := UnitPx | UnitMm | UnitIn.
Inductive LayoutMode := LayoutAbsolute | LayoutGrid | LayoutFlex.

Record CanvasSettings := {
  canvas_width : Q;
  canvas_height : Q;
  canvas_unit : CanvasUnit;
  canvas_dpi : Q;
  canvas_layoutMode : LayoutMode;
  canvas_gridSize : Q;
  canvas_snapToGrid : bool
}.

Inductive GradientType := GradLinear | GradRadial.

Record GradientDef := {
  grad_type : GradientType;
  grad_angle : Q;
  grad_stops : list (string * Q)
}.

Inductive PatternType := PatDots | PatLines | PatCrosshatch | PatCustom.

Record PatternDef := {
  pat_type : PatternType;
  pat_size : Q;
  pat_color : string;
  pat_opacity : Q;
  pat_svgData : option string
}.

Inductive BackgroundType := BgSolid | BgGradient | BgImage | BgPattern.

Record BackgroundSettings := {
  bg_type : BackgroundType;
  bg_color : string;
  bg_gradient : option GradientDef;
  bg_imageUrl : option string;
  bg_pattern : option PatternDef;
  bg_opacity : Q
}.

(** [Partial<BackgroundSettings>]: [None] is an absent key.  For a field
    that is itself optional, [Some None] is a key present with value
    [undefined]. *)
Record PartialBackground := {
  pbg_type : option BackgroundType;
  pbg_color : option string;
  pbg_gradient : option (option GradientDef);
  pbg_imageUrl : option (option string);
  pbg_pattern : option (option PatternDef);
  pbg_opacity : option Q
}.

Record Layer := {
  layer_id : string;
  layer_name : string;
  layer_visible : bool;
  layer_locked : bool;
  layer_opacity : Q;
  layer_order : Z
}.

Record PartialLayer := {
  pl_id : option string;
  pl_name : option string;
  pl_visible : option bool;
  pl_locked : option bool;
  pl_opacity : option Q;
  pl_order : option Z
}.

Inductive ElementType :=
| TText | TImage | TShape | TLogo | TQrcode | TBarcode | TContainer | TDivider.

Inductive Anchor := AnchorTopLeft | AnchorCenter | AnchorTopCenter.

Record Position := {
  pos_x : Q;
  pos_y : Q;
  pos_anchor : option Anchor
}.

Record Dimensions := {
  dim_width : Q;
  dim_height : Q;
  dim_minWidth : option Q;
  dim_minHeight : option Q;
  dim_maxWidth : option Q;
  dim_maxHeight : option Q;
  dim_aspectLock : option bool
}.

Record DataBinding := {
  field : string;
  transform : option string;
  fallback : option string;
  formatTemplate : option string
}.

(** [operator] is any string at run time; the seven documented operators
    are the cases of [evaluateCondition]. *)
Record ConditionalVisibility := {
  cond_field : string;
  cond_operator : string;
  cond_value : JSValue
}.

(** An open property bag: [ElementStyle] and the type-specific [props]. *)
Abbreviation Bag := (gmap string JSValue).

(** [TemplateElement].  [R] is how the two nested objects that the engine
    rewrites ([style] and [props]) are held: by value ([Bag]) in document
    snapshots, by reference in the store model of the binding resolver. *)
Record ElementOf (R : Type) := {
  id : string;
  type : ElementType;
  name : string;
  layerId : string;
  position : Position;
  dimensions : Dimensions;
  rotation : Q;
  zIndex : Z;
  style : R;
  opacity : Q;
  visible : bool;
  bindings : option (gmap string DataBinding);
  condition : option ConditionalVisibility;
  locked : bool;
  selectable : bool;
  props : R;
  parentId : option string;
  children : option (list string)
}.

Arguments id {R} _.
Arguments type {R} _.
Arguments name {R} _.
Arguments layerId {R} _.
Arguments position {R} _.
Arguments dimensions {R} _.
Arguments rotation {R} _.
Arguments zIndex {R} _.
Arguments style {R} _.
Arguments opacity {R} _.
Arguments visible {R} _.
Arguments bindings {R} _.
Arguments condition {R} _.
Arguments locked {R} _.
Arguments selectable {R} _.
Arguments props {R} _.
Arguments parentId {R} _.
Arguments children {R} _.

Abbreviation TemplateElement := (ElementOf Bag).

(** [Partial<TemplateElement>] *)
Record PartialElement := {
  pe_id : option string;
  pe_type : option ElementType;
  pe_name : option string;
  pe_layerId : option string;
  pe_position : option Position;
  pe_dimensions : option Dimensions;
  pe_rotation : option Q;
  pe_zIndex : option Z;
  pe_style : option Bag;
  pe_opacity : option Q;
  pe_visible : option bool;
  pe_bindings : option (option (gmap string DataBinding));
  pe_condition : option (option ConditionalVisibility);
  pe_locked : option bool;
  pe_selectable : option bool;
  pe_props : option Bag;
  pe_parentId : option (option string);
  pe_children : option (option (list string))
}.

Inductive VariableType := VarColor | VarNumber | VarString | VarBoolean.

Record TemplateVariable := {
  var_name : string;
  var_type : VariableType;
  var_value : JSValue;
  var_label : string;
  var_description : option string
}.

Record TemplateDocument := {
  schemaVersion : Z;
  doc_id : string;
  meta : TemplateMeta;
  canvas : CanvasSettings;
  background : BackgroundSettings;
  layers : list Layer;
  elements : list TemplateElement;
  doc_bindings : gmap string DataBinding;
  variables : list TemplateVariable;
  isReady : bool
}.

Inductive ResizeHandle :=
| HTopLeft | HTop | HTopRight
| HLeft | HRight
| HBottomLeft | HBottom | HBottomRight.

(** The string behind each handle. *)
Definition handleName (h : ResizeHandle) : string :=
  match h with
  | HTopLeft => "top-left" | HTop => "top" | HTopRight => "top-right"
  | HLeft => "left" | HRight => "right"
  | HBottomLeft => "bottom-left" | HBottom => "bottom"
  | HBottomRight => "bottom-right"
  end.

Record DragState := {
  drag_elementId : string;
  drag_startPosition : Position;
  drag_currentPosition : Position;
  drag_offset : Q * Q
}.

Record ResizeState := {
  rsz_elementId : string;
  rsz_handle : ResizeHandle;
  rsz_startDimensions : Dimensions;
  rsz_startPosition : Position;
  rsz_currentDimensions : Dimensions
}.

Record SelectionState := {
  selectedIds : list string;
  hoveredId : option string;
  dragState : option DragState;
  resizeState : option ResizeState
}.

(** [EngineAction], the reducer events. *)
Inductive EngineAction :=
| SET_DOCUMENT (payload : TemplateDocument)
| UPDATE_ELEMENT (id : string) (changes : PartialElement)
| MOVE_ELEMENT (id : string) (position : Position)
| RESIZE_ELEMENT (id : string) (dimensions : Dimensions)
    (position : option Position)
| ADD_ELEMENT (payload : TemplateElement)
| REMOVE_ELEMENT (payload : string)
| DUPLICATE_ELEMENT (payload : string)
| REORDER_ELEMENT (id : string) (zIndex : Z)
| SET_BACKGROUND (payload : PartialBackground)
| UPDATE_LAYER (id : string) (changes : PartialLayer)
| SELECT_ELEMENTS (payload : list string)
| HOVER_ELEMENT (payload : option string)
| START_DRAG (payload : DragState)
| UPDATE_DRAG (payload : Position)
| END_DRAG
| START_RESIZE (payload : ResizeState)
| UPDATE_RESIZE (payload : Dimensions)
| END_RESIZE
| UNDO
| REDO
| SET_VARIABLE (name : string) (value : JSValue)
| BATCH (payload : list EngineAction).

(** [DataContext] *)
Abbreviation DataContext := (gmap string JSValue).

(** [{ ...a, ...b }] on one key. *)
Definition spread {A} (base : A) (over : option A) : A :=
  match over with
  | Some v => v
  | None => base
  end.

(** [{ ...el, ...changes }] *)
Definition mergeElement (el : TemplateElement) (c : PartialElement)
  : TemplateElement :=
  {| id := spread (id el) (pe_id c);
     type := spread (type el) (pe_type c);
     name := spread (name el) (pe_name c);
     layerId := spread (layerId el) (pe_layerId c);
     position := spread (position el) (pe_position c);
     dimensions := spread (dimensions el) (pe_dimensions c);
     rotation := spread (rotation el) (pe_rotation c);
     zIndex := spread (zIndex el) (pe_zIndex c);
     style := spread (style el) (pe_style c);
     opacity := spread (opacity el) (pe_opacity c);
     visible := spread (visible el) (pe_visible c);
     bindings := spread (bindings el) (pe_bindings c);
     condition := spread (condition el) (pe_condition c);
     locked := spread (locked el) (pe_locked c);
     selectable := spread (selectable el) (pe_selectable c);
     props := spread (props el) (pe_props c);
     parentId := spread (parentId el) (pe_parentId c);
     children := spread (children el) (pe_children c) |}.

(** [{ ...l, ...changes }] *)
Definition mergeLayer (l : Layer) (c : PartialLayer) : Layer :=
  {| layer_id := spread (layer_id l) (pl_id c);
     layer_name := spread (layer_name l) (pl_name c);
     layer_visible := spread (layer_visible l) (pl_visible c);
     layer_locked := spread (layer_locked l) (pl_locked c);
     layer_opacity := spread (layer_opacity l) (pl_opacity c);
     layer_order := spread (layer_order l) (pl_order c) |}.

(** [{ ...doc.background, ...payload }] *)
Definition mergeBackground (b : BackgroundSettings) (c : PartialBackground)
  : BackgroundSettings :=
  {| bg_type := spread (bg_type b) (pbg_type c);
     bg_color := spread (bg_color b) (pbg_color c);
     bg_gradient := spread (bg_gradient b) (pbg_gradient c);
     bg_imageUrl := spread (bg_imageUrl b) (pbg_imageUrl c);
     bg_pattern := spread (bg_pattern b) (pbg_pattern c);
     bg_opacity := spread (bg_opacity b) (pbg_opacity c) |}.

Section ElementUpdates.
Context {R : Type}.

Definition withId (el : ElementOf R) (v : string) : ElementOf R :=
  {| id := v; type := type el; name := name el; layerId := layerId el;
     position := position el; dimensions := dimensions el;
     rotation := rotation el; zIndex := zIndex el; style := style el;
     opacity := opacity el; visible := visible el;
     bindings := bindings el; condition := condition el;
     locked := locked el; selectable := selectable el; props := props el;
     parentId := parentId el; children := children el |}.

Definition withName (el : ElementOf R) (v : string) : ElementOf R :=
  {| id := id el; type := type el; name := v; layerId := layerId el;
     position := position el; dimensions := dimensions el;
     rotation := rotation el; zIndex := zIndex el; style := style el;
     opacity := opacity el; visible := visible el;
     bindings := bindings el; condition := condition el;
     locked := locked el; selectable := selectable el; props := props el;
     parentId := parentId el; children := children el |}.

Definition withPosition (el : ElementOf R) (v : Position) : ElementOf R :=
  {| id := id el; type := type el; name := name el; layerId := layerId el;
     position := v; dimensions := dimensions el;
     rotation := rotation el; zIndex := zIndex el; style := style el;
     opacity := opacity el; visible := visible el;
     bindings := bindings el; condition := condition el;
     locked := locked el; selectable := selectable el; props := props el;
     parentId := parentId el; children := children el |}.

Definition withDimensions (el : ElementOf R) (v : Dimensions)
  : ElementOf R :=
  {| id := id el; type := type el; name := name el; layerId := layerId el;
     position := position el; dimensions := v;
     rotation := rotation el; zIndex := zIndex el; style := style el;
     opacity := opacity el; visible := visible el;
     bindings := bindings el; condition := condition el;
     locked := locked el; selectable := selectable el; props := props el;
     parentId := parentId el; children := children el |}.

Definition withZIndex (el : ElementOf R) (v : Z) : ElementOf R :=
  {| id := id el; type := type el; name := name el; layerId := layerId el;
     position := position el; dimensions := dimensions el;
     rotation := rotation el; zIndex := v; style := style el;
     opacity := opacity el; visible := visible el;
     bindings := bindings el; condition := condition el;
     locked := locked el; selectable := selectable el; props := props el;
     parentId := parentId el; children := children el |}.

Definition withStyle (el : ElementOf R) (v : R) : ElementOf R :=
  {| id := id el; type := type el; name := name el; layerId := layerId el;
     position := position el; dimensions := dimensions el;
     rotation := rotation el; zIndex := zIndex el; style := v;
     opacity := opacity el; visible := visible el;
     bindings := bindings el; condition := condition el;
     locked := locked el; selectable := selectable el; props := props el;
     parentId := parentId el; children := children el |}.

Definition withProps (el : ElementOf R) (v : R) : ElementOf R :=
  {| id := id el; type := type el; name := name el; layerId := layerId el;
     position := position el; dimensions := dimensions el;
     rotation := rotation el; zIndex := zIndex el; style := style el;
     opacity := opacity el; visible := visible el;
     bindings := bindings el; condition := condition el;
     locked := locked el; selectable := selectable el; props := v;
     parentId := parentId el; children := children el |}.

Definition withBindings (el : ElementOf R)
  (v : option (gmap string DataBinding)) : ElementOf R :=
  {| id := id el; type := type el; name := name el; layerId := layerId el;
     position := position el; dimensions := dimensions el;
     rotation := rotation el; zIndex := zIndex el; style := style el;
     opacity := opacity el; visible := visible el;
     bindings := v; condition := condition el;
     locked := locked el; selectable := selectable el; props := props el;
     parentId := parentId el; children := children el |}.

(** The same element with its two nested objects held differently. *)
Definition reseat {R'} (el : ElementOf R) (st pr : R') : ElementOf R' :=
  {| id := id el; type := type el; name := name el; layerId := layerId el;
     position := position el; dimensions := dimensions el;
     rotation := rotation el; zIndex := zIndex el; style := st;
     opacity := opacity el; visible := visible el;
     bindings := bindings el; condition := condition el;
     locked := locked el; selectable := selectable el; props := pr;
     parentId := parentId el; children := children el |}.

End ElementUpdates.

Definition withElements (doc : TemplateDocument)
  (els : list TemplateElement) : TemplateDocument :=
  {| schemaVersion := schemaVersion doc; doc_id := doc_id doc;
     meta := meta doc; canvas := canvas doc; background := background doc;
     layers := layers doc; elements := els;
     doc_bindings := doc_bindings doc; variables := variables doc;
     isReady := isReady doc |}.

Definition withBackground (doc : TemplateDocument)
  (b : BackgroundSettings) : TemplateDocument :=
  {| schemaVersion := schemaVersion doc; doc_id := doc_id doc;
     meta := meta doc; canvas := canvas doc; background := b;
     layers := layers doc; elements := elements doc;
     doc_bindings := doc_bindings doc; variables := variables doc;
     isReady := isReady doc |}.

Definition withLayers (doc : TemplateDocument) (ls : list Layer)
  : TemplateDocument :=
  {| schemaVersion := schemaVersion doc; doc_id := doc_id doc;
     meta := meta doc; canvas := canvas doc; background := background doc;
     layers := ls; elements := elements doc;
     doc_bindings := doc_bindings doc; variables := variables doc;
     isReady := isReady doc |}.

Definition withVariables (doc : TemplateDocument)
  (vs : list TemplateVariable) : TemplateDocument :=
  {| schemaVersion := schemaVersion doc; doc_id := doc_id doc;
     meta := meta doc; canvas := canvas doc; background := background doc;
     layers := layers doc; elements := elements doc;
     doc_bindings := doc_bindings doc; variables := vs;
     isReady := isReady doc |}.

(** ** Binding resolver ([engine/utils/bindingResolver.ts]) *)

(** A string used as a condition: the empty string is falsy. *)
Definition truthy (s : string) : bool := negb (String.eqb s EmptyString).

Definition TransformFn : Type := JSValue -> DataContext -> JSValue.

(** The module-level [transforms] map. *)
Abbreviation Registry := (gmap string TransformFn).

Definition registerTransform (name : string) (fn : TransformFn)
  (transforms : Registry) : Registry :=
  <[name := fn]> transforms.

Definition getTransform (transforms : Registry) (name : string)
  : option TransformFn :=
  transforms !! name.

(** One step of the [reduce] in [getNestedValue]. *)
Definition nestedStep (acc : option JSValue) (key : string)
  : option JSValue :=
  match acc with
  | None => None
  | Some a =>
      if strictEq a VUndef || strictEq a VNull then Some VUndef
      else getProp a key
  end.

(** [getNestedValue(obj, path)]; [None] would be a thrown exception. *)
Definition getNestedValue (obj : JSValue) (path : string) : option JSValue :=
  if negb (truthy path) then Some VUndef
  else foldl nestedStep (Some obj) (Str.split "." path).

(** The placeholder matched by [/\{\{value\}\}/g]. *)
Definition placeholder : string := "{{value}}".

(** Step 2 of [resolveBinding]. *)
Definition applyFallback (binding : DataBinding) (value : JSValue)
  : JSValue :=
  if isBlank value then VStr (default EmptyString (fallback binding)) else value.

(** Step 3 of [resolveBinding]. *)
Definition applyTransform (transforms : Registry) (binding : DataBinding)
  (data : DataContext) (value : JSValue) : JSValue :=
  match transform binding with
  | Some tname =>
      if truthy tname then
        match transforms !! tname with
        | Some fn => fn value data
        | None => value
        end
      else value
  | None => value
  end.

(** Step 4 of [resolveBinding]. *)
Definition applyFormat (binding : DataBinding) (value : JSValue) : JSValue :=
  match formatTemplate binding with
  | Some template =>
      if truthy template then
        VStr (Str.replaceAllLiteralRegex placeholder (ToString value) template)
      else value
  | None => value
  end.

Definition resolveBinding (transforms : Registry) (binding : DataBinding)
  (data : DataContext) : option JSValue :=
  match getNestedValue (VObj data) (field binding) with
  | None => None
  | Some value =>
      Some (applyFormat binding
              (applyTransform transforms binding data
                 (applyFallback binding value)))
  end.

(** *** Objects built by the resolver

    An object the code builds with a literal and fills by assignment: its
    own properties and its prototype.  The prototype is [Object.prototype],
    as for every object literal, unless the setter of [__proto__] has
    replaced it. *)
Inductive Proto :=
| ObjectPrototype
| ProtoOf (v : JSValue).

Record JSObject := {
  ownProps : Bag;
  prototype : Proto
}.

(** The object literal [{}]. *)
Definition emptyObject : JSObject :=
  {| ownProps := ∅; prototype := ObjectPrototype |}.

(** Whether an object with the given prototype inherits the accessor
    [__proto__] of [Object.prototype]: not below a [null] prototype, and
    not below an object that has a property of that name itself. *)
Definition inheritsProtoAccessor (p : Proto) : bool :=
  match p with
  | ObjectPrototype => true
  | ProtoOf VNull => false
  | ProtoOf (VObj fields) => bool_decide (fields !! "__proto__" = None)
  | ProtoOf _ => true
  end.

(** The setter of [__proto__]: an object or [null] becomes the prototype,
    any other value is ignored. *)
Definition setPrototype (old : Proto) (value : JSValue) : Proto :=
  match value with
  | VNull | VArr _ | VObj _ => ProtoOf value
  | _ => old
  end.

(** The assignment [obj[key] = value].  It creates or overwrites an own
    property, except for the key [__proto__] on an object that has no own
    property of that name and inherits the accessor: there the assignment
    is a call of the setter and no own property appears. *)
Definition assign (key : string) (value : JSValue) (obj : JSObject)
  : JSObject :=
  if String.eqb key "__proto__"
     && bool_decide (ownProps obj !! key = None)
     && inheritsProtoAccessor (prototype obj)
  then {| ownProps := ownProps obj;
          prototype := setPrototype (prototype obj) value |}
  else {| ownProps := <[key := value]> (ownProps obj);
          prototype := prototype obj |}.

(** [resolveElementBindings]: the loop over [Object.entries(bindings)]
    with its assignment [result[propPath] = ...]. *)
Definition resolveElementBindings {R} (transforms : Registry)
  (element : ElementOf R) (data : DataContext) : option JSObject :=
  match bindings element with
  | None => Some emptyObject
  | Some bs =>
      map_fold
        (fun propPath binding (result : option JSObject) =>
           match result, resolveBinding transforms binding data with
           | Some r, Some v => Some (assign propPath v r)
           | _, _ => None
           end)
        (Some emptyObject) bs
  end.

Definition evaluateCondition (condition : ConditionalVisibility)
  (data : DataContext) : option bool :=
  match getNestedValue (VObj data) (cond_field condition) with
  | None => None
  | Some value =>
      let op := cond_operator condition in
      Some
        (if String.eqb op "exists" then
           negb (strictEq value VUndef) && negb (strictEq value VNull)
           && negb (strictEq value (VStr EmptyString))
         else if String.eqb op "notExists" then
           strictEq value VUndef || strictEq value VNull
           || strictEq value (VStr EmptyString)
         else if String.eqb op "equals" then
           strictEq value (cond_value condition)
         else if String.eqb op "notEquals" then
           negb (strictEq value (cond_value condition))
         else if String.eqb op "gt" then
           Num.gt (ToNumber value) (ToNumber (cond_value condition))
         else if String.eqb op "lt" then
           Num.lt (ToNumber value) (ToNumber (cond_value condition))
         else if String.eqb op "contains" then
           Str.includes (ToString value) (ToString (cond_value condition))
         else true)
  end.

(** *** The object store

    [applyBindingsToElement] builds its result with object spreads and one
    in-place assignment, so whether it touches its argument is a question
    about object identity.  Elements and their [style] and [props] objects
    live in a store; the other fields are immutable here and kept inline. *)

Abbreviation loc := positive.

Inductive Obj :=
| OElement (e : ElementOf loc)
| OBag (o : JSObject).

Abbreviation Heap := (gmap loc Obj).

(** An object literal: a new object at an unused address. *)
Definition alloc (o : Obj) (h : Heap) : loc * Heap :=
  let l := fresh (dom h) in (l, <[l := o]> h).

(** The own properties seen by a spread [{ ...h[l] }]. *)
Definition readBag (h : Heap) (l : loc) : Bag :=
  match h !! l with
  | Some (OBag o) => ownProps o
  | _ => ∅
  end.

(** An object literal with the given own properties, as a spread or a
    computed key [{ [k]: v }] defines them. *)
Definition literal (b : Bag) : Obj :=
  OBag {| ownProps := b; prototype := ObjectPrototype |}.

(** The assignment [h[l][key] = value]. *)
Definition writeProp (l : loc) (key : string) (value : JSValue) (h : Heap)
  : Heap :=
  match h !! l with
  | Some (OBag o) => <[l := OBag (assign key value o)]> h
  | _ => h
  end.

(** [!element.bindings || Object.keys(element.bindings).length === 0] *)
Definition noBindings {R} (element : ElementOf R) : bool :=
  match bindings element with
  | None => true
  | Some bs => bool_decide (bs = ∅)
  end.

(** Body of the loop over [Object.entries(resolved)]; the state is the
    variable [updated] and the store. *)
Definition applyEntry (path : string) (value : JSValue)
  (st : loc * Heap) : loc * Heap :=
  let '(updated, h) := st in
  match h !! updated with
  | Some (OElement u) =>
      match Str.split "." path with
      | [p0; p1] =>
          if String.eqb p0 "props" then
            (updated, writeProp (props u) p1 value h)
          else if String.eqb p0 "style" then
            let '(ls, h1) :=
              alloc (literal (<[p1 := value]> (readBag h (style u)))) h in
            alloc (OElement (withStyle u ls)) h1
          else st
      | _ => st
      end
  | _ => st
  end.

(** [applyBindingsToElement(element, data)] on the store [h]; the result is
    the returned reference and the store after the call.  The loop visits
    the entries of [resolved] in the enumeration order of the map; entries
    with different paths write different fields, so the order does not
    show in the objects built. *)
Definition applyBindingsToElement (transforms : Registry) (element : loc)
  (data : DataContext) (h : Heap) : option (loc * Heap) :=
  match h !! element with
  | Some (OElement e) =>
      if noBindings e then Some (element, h)
      else
        match resolveElementBindings transforms e data with
        | None => None
        | Some resolved =>
            let '(lp, h1) := alloc (literal (readBag h (props e))) h in
            let '(lu, h2) := alloc (OElement (withProps e lp)) h1 in
            Some (map_fold applyEntry (lu, h2) (ownProps resolved))
        end
  | _ => None
  end.

(** The element a reference denotes, read out of the store. *)
Definition snapshot (h : Heap) (l : loc) : option TemplateElement :=
  match h !! l with
  | Some (OElement e) =>
      Some (reseat e (readBag h (style e)) (readBag h (props e)))
  | _ => None
  end.

(** The prototype of the [props] object of the element a reference
    denotes. *)
Definition propsPrototype (h : Heap) (l : loc) : option Proto :=
  match h !! l with
  | Some (OElement e) =>
      match h !! props e with
      | Some (OBag o) => Some (prototype o)
      | _ => None
      end
  | _ => None
  end.

(** ** Layer manager ([engine/utils/layerManager.ts]) *)

(** [Array.prototype.sort(compare)].  The sort is stable, and with a
    comparator that orders by a numeric key the result is determined:
    insertion from the right, each element placed before the first one it
    does not exceed. *)
Fixpoint insertBy {A} (compare : A -> A -> Z) (x : A) (l : list A)
  : list A :=
  match l with
  | [] => [x]
  | y :: l' =>
      if compare x y <=? 0 then x :: l else y :: insertBy compare x l'
  end.

Definition sortBy {A} (compare : A -> A -> Z) (l : list A) : list A :=
  foldr (insertBy compare) [] l.

(** [Array.prototype.filter] with a predicate that may throw. *)
Fixpoint filterM {A} (p : A -> option bool) (l : list A)
  : option (list A) :=
  match l with
  | [] => Some []
  | x :: l' =>
      match p x with
      | None => None
      | Some keep =>
          match filterM p l' with
          | None => None
          | Some r => Some (if keep then x :: r else r)
          end
      end
  end.

(** The [layerMap] lookup table: a later layer with the same id replaces
    an earlier one. *)
Definition buildLayerMap (layers : list Layer) : gmap string Layer :=
  foldl (fun m layer => <[layer_id layer := layer]> m) ∅ layers.

(** [(layer?.order ?? 0) * 1000 + el.zIndex] *)
Definition compositeKey (layerMap : gmap string Layer)
  (el : TemplateElement) : Z :=
  match layerMap !! layerId el with
  | Some layer => layer_order layer
  | None => 0
  end * 1000 + zIndex el.

Definition compositeCompare (layerMap : gmap string Layer)
  (a b : TemplateElement) : Z :=
  compositeKey layerMap a - compositeKey layerMap b.

Definition layerVisible (layerMap : gmap string Layer)
  (el : TemplateElement) : bool :=
  match layerMap !! layerId el with
  | Some layer => layer_visible layer
  | None => true
  end.

Definition conditionHolds (data : DataContext) (el : TemplateElement)
  : option bool :=
  match condition el with
  | None => Some true
  | Some c => evaluateCondition c data
  end.

Definition getOrderedElements (elements : list TemplateElement)
  (layers : list Layer) (data : DataContext)
  : option (list TemplateElement) :=
  let layerMap := buildLayerMap layers in
  let shown := List.filter (layerVisible layerMap) elements in
  let shown := List.filter visible shown in
  match filterM (conditionHolds data) shown with
  | None => None
  | Some shown => Some (sortBy (compositeCompare layerMap) shown)
  end.

(** ** Document reducer ([TemplateContext]) *)

Record DocumentState := {
  document : TemplateDocument;
  history : list TemplateDocument;
  future : list TemplateDocument
}.

(** The system clock: successive readings of [Date.now()]. *)
Definition Clock : Type := nat -> Z.

Definition Date_now (clk : Clock) : Z * Clock :=
  (clk O, fun n => clk (S n)).

Definition MAX_HISTORY : nat := 50.

(** [l.slice(-n)] *)
Definition sliceLast {A} (n : nat) (l : list A) : list A :=
  drop (length l - n)%nat l.

Definition pushHistory (state : DocumentState) (newDoc : TemplateDocument)
  : DocumentState :=
  {| document := newDoc;
     history := sliceLast MAX_HISTORY (history state) ++ [document state];
     future := [] |}.

(** The copy made by [DUPLICATE_ELEMENT]. *)
Definition duplicateOf (original : TemplateElement) (now : Z)
  : TemplateElement :=
  withPosition
    (withName
       (withId original (id original +:+ "_copy_" +:+ Num.ofZ now))
       (name original +:+ " (copy)"))
    {| pos_x := (pos_x (position original) + 10)%Q;
       pos_y := (pos_y (position original) + 10)%Q;
       pos_anchor := pos_anchor (position original) |}.

Definition withValue (v : TemplateVariable) (value : JSValue)
  : TemplateVariable :=
  {| var_name := var_name v; var_type := var_type v; var_value := value;
     var_label := var_label v; var_description := var_description v |}.

Definition undo (state : DocumentState) : DocumentState :=
  match last (history state) with
  | None => state
  | Some prev =>
      {| document := prev;
         history := take (length (history state) - 1)%nat (history state);
         future := document state :: future state |}
  end.

Definition redo (state : DocumentState) : DocumentState :=
  match future state with
  | [] => state
  | next :: rest =>
      {| document := next;
         history := history state ++ [document state];
         future := rest |}
  end.

Fixpoint documentReducer (state : DocumentState) (action : EngineAction)
  (clk : Clock) {struct action} : DocumentState * Clock :=
  match action with
  | SET_DOCUMENT payload =>
      ({| document := payload; history := []; future := [] |}, clk)
  | UPDATE_ELEMENT id' changes =>
      let doc := document state in
      (pushHistory state
         (withElements doc
            (map (fun el =>
                    if String.eqb (id el) id' then mergeElement el changes
                    else el)
               (elements doc))), clk)
  | MOVE_ELEMENT id' position =>
      let doc := document state in
      (pushHistory state
         (withElements doc
            (map (fun el =>
                    if String.eqb (id el) id' then withPosition el position
                    else el)
               (elements doc))), clk)
  | RESIZE_ELEMENT id' dimensions position =>
      let doc := document state in
      (pushHistory state
         (withElements doc
            (map (fun el =>
                    if String.eqb (id el) id' then
                      match position with
                      | Some p => withPosition (withDimensions el dimensions) p
                      | None => withDimensions el dimensions
                      end
                    else el)
               (elements doc))), clk)
  | ADD_ELEMENT payload =>
      let doc := document state in
      (pushHistory state (withElements doc (elements doc ++ [payload])), clk)
  | REMOVE_ELEMENT payload =>
      let doc := document state in
      (pushHistory state
         (withElements doc
            (List.filter (fun el => negb (String.eqb (id el) payload))
               (elements doc))), clk)
  | DUPLICATE_ELEMENT payload =>
      let doc := document state in
      match List.find (fun el => String.eqb (id el) payload) (elements doc)
      with
      | None => (state, clk)
      | Some original =>
          let '(now, clk') := Date_now clk in
          (pushHistory state
             (withElements doc (elements doc ++ [duplicateOf original now])),
           clk')
      end
  | REORDER_ELEMENT id' zIndex' =>
      let doc := document state in
      (pushHistory state
         (withElements doc
            (map (fun el =>
                    if String.eqb (id el) id' then withZIndex el zIndex'
                    else el)
               (elements doc))), clk)
  | SET_BACKGROUND payload =>
      let doc := document state in
      (pushHistory state
         (withBackground doc (mergeBackground (background doc) payload)), clk)
  | UPDATE_LAYER id' changes =>
      let doc := document state in
      (pushHistory state
         (withLayers doc
            (map (fun l =>
                    if String.eqb (layer_id l) id' then mergeLayer l changes
                    else l)
               (layers doc))), clk)
  | SET_VARIABLE name' value =>
      let doc := document state in
      (pushHistory state
         (withVariables doc
            (map (fun v =>
                    if String.eqb (var_name v) name' then withValue v value
                    else v)
               (variables doc))), clk)
  | UNDO => (undo state, clk)
  | REDO => (redo state, clk)
  | BATCH payload =>
      (fix loop (actions : list EngineAction)
           (current : DocumentState * Clock) : DocumentState * Clock :=
         match actions with
         | [] => current
         | a :: rest =>
             loop rest (documentReducer (fst current) a (snd current))
         end) payload (state, clk)
  | _ => (state, clk)
  end.

(** Dispatching a list of actions one after the other. *)
Definition dispatchAll (actions : list EngineAction)
  (start : DocumentState * Clock) : DocumentState * Clock :=
  foldl (fun current a => documentReducer (fst current) a (snd current))
    start actions.

(** [n] successive [UNDO] actions. *)
Fixpoint undoTimes (n : nat) (start : DocumentState * Clock)
  : DocumentState * Clock :=
  match n with
  | O => start
  | S n' => undoTimes n' (documentReducer (fst start) UNDO (snd start))
  end.

(** The actions that reach [pushHistory] in the given state. *)
Definition pushesHistory (state : DocumentState) (action : EngineAction)
  : bool :=
  match action with
  | UPDATE_ELEMENT _ _ | MOVE_ELEMENT _ _ | RESIZE_ELEMENT _ _ _
  | ADD_ELEMENT _ | REMOVE_ELEMENT _ | REORDER_ELEMENT _ _
  | SET_BACKGROUND _ | UPDATE_LAYER _ _ | SET_VARIABLE _ _ => true
  | DUPLICATE_ELEMENT payload =>
      bool_decide
        (is_Some (List.find (fun el => String.eqb (id el) payload)
                    (elements (document state))))
  | _ => false
  end.

(** Every action of the list reaches [pushHistory] when its turn comes. *)
Fixpoint allCommitted (actions : list EngineAction)
  (start : DocumentState * Clock) : bool :=
  match actions with
  | [] => true
  | a :: rest =>
      pushesHistory (fst start) a
      && allCommitted rest (documentReducer (fst start) a (snd start))
  end.

(** ** Selection reducer *)

Definition initialSelection : SelectionState :=
  {| selectedIds := []; hoveredId := None;
     dragState := None; resizeState := None |}.

Definition selectionReducer (state : SelectionState) (action : EngineAction)
  : SelectionState :=
  match action with
  | SELECT_ELEMENTS payload =>
      {| selectedIds := payload; hoveredId := hoveredId state;
         dragState := dragState state; resizeState := resizeState state |}
  | HOVER_ELEMENT payload =>
      {| selectedIds := selectedIds state; hoveredId := payload;
         dragState := dragState state; resizeState := resizeState state |}
  | START_DRAG payload =>
      {| selectedIds := selectedIds state; hoveredId := hoveredId state;
         dragState := Some payload; resizeState := resizeState state |}
  | UPDATE_DRAG payload =>
      match dragState state with
      | None => state
      | Some d =>
          {| selectedIds := selectedIds state; hoveredId := hoveredId state;
             dragState :=
               Some {| drag_elementId := drag_elementId d;
                       drag_startPosition := drag_startPosition d;
                       drag_currentPosition := payload;
                       drag_offset := drag_offset d |};
             resizeState := resizeState state |}
      end
  | END_DRAG =>
      {| selectedIds := selectedIds state; hoveredId := hoveredId state;
         dragState := None; resizeState := resizeState state |}
  | START_RESIZE payload =>
      {| selectedIds := selectedIds state; hoveredId := hoveredId state;
         dragState := dragState state; resizeState := Some payload |}
  | UPDATE_RESIZE payload =>
      match resizeState state with
      | None => state
      | Some r =>
          {| selectedIds := selectedIds state; hoveredId := hoveredId state;
             dragState := dragState state;
             resizeState :=
               Some {| rsz_elementId := rsz_elementId r;
                       rsz_handle := rsz_handle r;
                       rsz_startDimensions := rsz_startDimensions r;
                       rsz_startPosition := rsz_startPosition r;
                       rsz_currentDimensions := payload |} |}
      end
  | END_RESIZE =>
      {| selectedIds := selectedIds state; hoveredId := hoveredId state;
         dragState := dragState state; resizeState := None |}
  | _ => state
  end.

(** ** Resize gesture ([engine/hooks/useElementInteraction.ts]) *)

Inductive RenderMode := ModePreview | ModeDisplay | ModeExport | ModeThumbnail.

Record EngineConfig := {
  mode : RenderMode;
  scale : Q;
  snapToGrid : bool;
  gridSize : Q;
  showHandles : bool;
  showGrid : bool;
  enableKeyboard : bool;
  updateDebounce : Q
}.

Definition DEFAULT_ENGINE_CONFIG : EngineConfig :=
  {| mode := ModePreview; scale := 1; snapToGrid := false; gridSize := 5;
     showHandles := true; showGrid := false; enableKeyboard := true;
     updateDebounce := 16 |}.

(** The [resizeStart] ref captured by [startResize]. *)
Record ResizeStart := {
  rs_handle : ResizeHandle;
  rs_mouseX : Q;
  rs_mouseY : Q;
  rs_elX : Q;
  rs_elY : Q;
  rs_elW : Q;
  rs_elH : Q;
  rs_aspectLock : bool
}.

Module Math.

Definition max (a b : Q) : Q := if Qle_bool a b then b else a.

Definition abs (a : Q) : Q := Qabs a.

(** [Math.round]: the nearest integer, halves towards positive infinity. *)
Definition round (a : Q) : Q := inject_Z (Qfloor (a + (1 # 2))).

Definition gt (a b : Q) : bool := negb (Qle_bool a b).

End Math.

(** [rs.handle.includes(part)] *)
Definition handleIncludes (h : ResizeHandle) (part : string) : bool :=
  Str.includes (handleName h) part.

(** The resize branch of [handleMouseMove]: the [width] and [height]
    dispatched with [UPDATE_RESIZE] and remembered in [lastResizeDims]. *)
Definition resizeDimensions (config : EngineConfig) (rs : ResizeStart)
  (clientX clientY : Q) : Q * Q :=
  let dx := ((clientX - rs_mouseX rs) / scale config)%Q in
  let dy := ((clientY - rs_mouseY rs) / scale config)%Q in
  let newW := rs_elW rs in
  let newH := rs_elH rs in
  let newW := if handleIncludes (rs_handle rs) "right"
              then Math.max 10 (rs_elW rs + dx)%Q else newW in
  let newW := if handleIncludes (rs_handle rs) "left"
              then Math.max 10 (rs_elW rs - dx)%Q else newW in
  let newH := if handleIncludes (rs_handle rs) "bottom"
              then Math.max 10 (rs_elH rs + dy)%Q else newH in
  let newH := if handleIncludes (rs_handle rs) "top"
              then Math.max 10 (rs_elH rs - dy)%Q else newH in
  let '(newW, newH) :=
    if rs_aspectLock rs then
      let ratio := (rs_elW rs / rs_elH rs)%Q in
      if Math.gt (Math.abs dx) (Math.abs dy)
      then (newW, (newW / ratio)%Q)
      else ((newH * ratio)%Q, newH)
    else (newW, newH) in
  if snapToGrid config && Math.gt (gridSize config) 0 then
    ((Math.round (newW / gridSize config) * gridSize config)%Q,
     (Math.round (newH / gridSize config) * gridSize config)%Q)
  else (newW, newH).

(** [{ width: newW, height: newH }] *)
Definition dimsOf (wh : Q * Q) : Dimensions :=
  {| dim_width := fst wh; dim_height := snd wh;
     dim_minWidth := None; dim_minHeight := None;
     dim_maxWidth := None; dim_maxHeight := None;
     dim_aspectLock := None |}.

(** The action dispatched by the resize branch of [handleMouseMove]. *)
Definition resizeMoveAction (config : EngineConfig) (rs : ResizeStart)
  (clientX clientY : Q) : EngineAction :=
  UPDATE_RESIZE (dimsOf (resizeDimensions config rs clientX clientY)).

(** The action committed by [handleMouseUp] for the last pointer
    position of the gesture. *)
Definition resizeCommitAction (activeElementId : string)
  (config : EngineConfig) (rs : ResizeStart) (clientX clientY : Q)
  : EngineAction :=
  RESIZE_ELEMENT activeElementId
    (dimsOf (resizeDimensions config rs clientX clientY)) None.

(** ** Vocabulary of the properties *)

(** The element id an element-targeting action carries. *)
Definition elementTarget (action : EngineAction) : option string :=
  match action with
  | UPDATE_ELEMENT id' _ | MOVE_ELEMENT id' _ | RESIZE_ELEMENT id' _ _
  | REMOVE_ELEMENT id' | REORDER_ELEMENT id' _ | DUPLICATE_ELEMENT id' =>
      Some id'
  | _ => None
  end.

(** [id] matches no element of the document. *)
Definition idAbsent (target : string) (doc : TemplateDocument) : bool :=
  forallb (fun el => negb (String.eqb (id el) target)) (elements doc).


(** The value is [undefined], [null] or the empty string. *)
Definition isAbsent (v : JSValue) : Prop :=
  v = VUndef \/ v = VNull \/ v = VStr EmptyString.


(** The [order] of the layer an element resolves to, [0] when its
    [layerId] names no layer. *)
Definition resolvedOrder (layers : list Layer) (el : TemplateElement) : Z :=
  match buildLayerMap layers !! layerId el with
  | Some layer => layer_order layer
  | None => 0
  end.

(** The path [p0.p1]. *)
Definition twoSegmentPath (p0 p1 : string) : string :=
  p0 +:+ String "." p1.

(** The value that the resolved entries give to field [key] of the object
    named [prefix]: the entry whose path is the two-segment path
    [prefix.key], if there is one. *)
Definition override (prefix : string) (resolved : Bag) (key : string)
  : option JSValue :=
  if Str.hasChar "." key then None
  else resolved !! twoSegmentPath prefix key.

(** Field [key] of [base] after the overrides for [prefix]. *)
Definition overridden (prefix : string) (resolved base : Bag) (key : string)
  : option JSValue :=
  match override prefix resolved key with
  | Some v => Some v
  | None => base !! key
  end.

(** An assignment to [key] on a fresh copy of [base] is a call of the
    setter of [__proto__]: the key is [__proto__] and [base] has no own
    property of that name. *)
Definition reachesSetter (base : Bag) (key : string) : bool :=
  String.eqb key "__proto__" && bool_decide (base !! key = None).

(** Field [key] of the copy of [props] after the assignments of the
    [props.<key>] entries. *)
Definition assignedProps (resolved base : Bag) (key : string)
  : option JSValue :=
  if reachesSetter base key then None
  else overridden "props" resolved base key.

(** The prototype of the copy of [props] after those assignments. *)
Definition assignedPrototype (resolved base : Bag) : Proto :=
  if reachesSetter base "__proto__" then
    match override "props" resolved "__proto__" with
    | Some v => setPrototype ObjectPrototype v
    | None => ObjectPrototype
    end
  else ObjectPrototype.

(** The fields of an element other than [style] and [props]. *)
Definition plainFields {R} (el : ElementOf R) : ElementOf unit :=
  reseat el tt tt.

(** State of the loop of [applyBindingsToElement] after the entries [done]:
    [h] is the store at the call, [e] the argument with property bags
    [props0] and [style0]. *)
Definition loopInvariant (h : Heap) (e : ElementOf loc)
  (props0 style0 : Bag) (st : loc * Heap) (done : Bag) : Prop :=
  (forall a o, h !! a = Some o -> st.2 !! a = Some o)
  /\ h !! st.1 = None
  /\ exists (u : ElementOf loc) (po so : JSObject),
       st.2 !! st.1 = Some (OElement u)
       /\ plainFields u = plainFields e
       /\ st.2 !! props u = Some (OBag po)
       /\ h !! props u = None
       /\ st.2 !! style u = Some (OBag so)
       /\ style u <> props u
       /\ (forall k, ownProps po !! k = assignedProps done props0 k)
       /\ prototype po = assignedPrototype done props0
       /\ (forall k, ownProps so !! k = overridden "style" done style0 k).

(** The comparator [(a, b) => key(a) - key(b)] and the order it sorts
    into. *)
Definition compareByKey {A} (key : A -> Z) (a b : A) : Z := key a - key b.

Definition ascendingBy {A} (key : A -> Z) (a b : A) : Prop :=
  key a <= key b.

(** ** Sample data *)

Definition sampleMeta : TemplateMeta :=
  {| meta_name := "Untitled"; meta_description := EmptyString;
     meta_category := "general"; meta_tags := []; meta_author := EmptyString;
     meta_createdAt := "2024-01-01T00:00:00.000Z";
     meta_updatedAt := "2024-01-01T00:00:00.000Z";
     meta_side := SideSingle |}.

Definition defaultLayer : Layer :=
  {| layer_id := "default"; layer_name := "Layer 1"; layer_visible := true;
     layer_locked := false; layer_opacity := 1; layer_order := 0 |}.

(** [createDocument(width, height)] with the clock reading fixed. *)
Definition sampleDocument : TemplateDocument :=
  {| schemaVersion := 1; doc_id := "doc_0"; meta := sampleMeta;
     canvas := {| canvas_width := 320; canvas_height := 200;
                  canvas_unit := UnitPx; canvas_dpi := 300;
                  canvas_layoutMode := LayoutAbsolute; canvas_gridSize := 5;
                  canvas_snapToGrid := false |};
     background := {| bg_type := BgSolid; bg_color := "#ffffff";
                      bg_gradient := None; bg_imageUrl := None;
                      bg_pattern := None; bg_opacity := 1 |};
     layers := [defaultLayer]; elements := []; doc_bindings := ∅;
     variables := []; isReady := true |}.

(** [createElement('text', { content })] with the given id, layer and
    z-index. *)
Definition sampleElement (id' layer' : string) (z : Z) : TemplateElement :=
  {| id := id'; type := TText; name := "text element"; layerId := layer';
     position := {| pos_x := 0; pos_y := 0; pos_anchor := None |};
     dimensions := {| dim_width := 100; dim_height := 40;
                      dim_minWidth := None; dim_minHeight := None;
                      dim_maxWidth := None; dim_maxHeight := None;
                      dim_aspectLock := None |};
     rotation := 0; zIndex := z; style := ∅; opacity := 1; visible := true;
     bindings := None; condition := None; locked := false;
     selectable := true; props := {[ "content" := VStr "Hello" ]};
     parentId := None; children := None |}.

Definition initialState (doc : TemplateDocument) : DocumentState :=
  {| document := doc; history := []; future := [] |}.

Definition sampleClock : Clock := fun n => 1700000000000 + Z.of_nat n.

Definition samplePosition : Position :=
  {| pos_x := 15; pos_y := 25; pos_anchor := None |}.

(** A document holding one element, and a state with something to redo. *)
Definition oneElementDocument : TemplateDocument :=
  withElements sampleDocument [sampleElement "el_1" "default" 0].

Definition redoableState : DocumentState :=
  {| document := oneElementDocument; history := [];
     future := [sampleDocument] |}.

(** The state after fifty committed actions on a fresh document. *)
Definition fiftyEdits : DocumentState * Clock :=
  dispatchAll (replicate 50 (MOVE_ELEMENT "el_1" samplePosition))
    (initialState oneElementDocument, sampleClock).

Definition backLayer : Layer :=
  {| layer_id := "back"; layer_name := "Background"; layer_visible := true;
     layer_locked := false; layer_opacity := 1; layer_order := 0 |}.

Definition frontLayer : Layer :=
  {| layer_id := "front"; layer_name := "Foreground"; layer_visible := true;
     layer_locked := false; layer_opacity := 1; layer_order := 1 |}.

(** A binding that formats an employee name, and a record whose name
    holds dollar signs. *)
Definition nameBinding : DataBinding :=
  {| field := "employee.name"; transform := None; fallback := None;
     formatTemplate := Some "Name: {{value}}" |}.

Definition dollarData : DataContext :=
  {[ "employee" := VObj {[ "name" := VStr "Ca$$h" ]} ]}.

(** An element 100 by 50 grabbed at a handle with the pointer at
    (1200, 300). *)
Definition wideStart (h : ResizeHandle) (lock : bool) : ResizeStart :=
  {| rs_handle := h; rs_mouseX := 1200; rs_mouseY := 300; rs_elX := 40;
     rs_elY := 40; rs_elW := 100; rs_elH := 50; rs_aspectLock := lock |}.

(** A store with one text element at address 1, its style at 2 and its
    props at 3. *)
Definition storedElement (bs : option (gmap string DataBinding))
  : ElementOf loc :=
  reseat (withBindings (sampleElement "el_1" "default" 0) bs) 2%positive
    3%positive.

Definition sampleStore (bs : option (gmap string DataBinding)) : Heap :=
  {[ 1%positive := OElement (storedElement bs);
     2%positive := literal {[ "color" := VStr "#000000" ]};
     3%positive := literal {[ "content" := VStr "Hello" ]} ]}.

Definition sampleBindings : gmap string DataBinding :=
  {[ "props.content" := nameBinding;
     "style.color" :=
       {| field := "theme.ink"; transform := None;
          fallback := Some "#112233"; formatTemplate := None |};
     "layout.columns" :=
       {| field := "theme.columns"; transform := None;
          fallback := Some "2"; formatTemplate := None |} ]}.

(** ** Further operations of the layer manager *)

(** [layers.find(l => l.id === id)] *)
Definition findLayer (layers : list Layer) (id' : string) : option Layer :=
  List.find (fun l => String.eqb (layer_id l) id') layers.

(** [getEffectiveOpacity(element, layers)] *)
Definition getEffectiveOpacity (element : TemplateElement)
  (layers : list Layer) : Q :=
  (match findLayer layers (layerId element) with
   | Some layer => layer_opacity layer
   | None => 1
   end * opacity element)%Q.

(** [isElementLocked(element, layers)] *)
Definition isElementLocked (element : TemplateElement) (layers : list Layer)
  : bool :=
  if locked element then true
  else match findLayer layers (layerId element) with
       | Some layer => layer_locked layer
       | None => false
       end.

(** [getNextZIndex(elements, layerId)] *)
Definition getNextZIndex (elements : list TemplateElement)
  (layerId' : string) : Z :=
  foldl (fun max el => Z.max max (zIndex el)) (-1)
    (List.filter (fun el => String.eqb (layerId el) layerId') elements)
  + 1.

(** A [Map<string, V>] with its insertion order: [set] on a key already
    present keeps the key's place. *)
Fixpoint mapSet {V} (key : string) (v : V) (m : list (string * V))
  : list (string * V) :=
  match m with
  | [] => [(key, v)]
  | (k, w) :: m' =>
      if String.eqb k key then (k, v) :: m' else (k, w) :: mapSet key v m'
  end.

Fixpoint mapGet {V} (key : string) (m : list (string * V)) : option V :=
  match m with
  | [] => None
  | (k, w) :: m' => if String.eqb k key then Some w else mapGet key m'
  end.

(** [const group = groups.get(key); if (group) group.push(el)] *)
Fixpoint mapPush {V} (key : string) (v : V) (m : list (string * list V))
  : list (string * list V) :=
  match m with
  | [] => []
  | (k, w) :: m' =>
      if String.eqb k key then (k, w ++ [v]) :: m'
      else (k, w) :: mapPush key v m'
  end.

Definition compareOrder (a b : Layer) : Z := layer_order a - layer_order b.

Definition compareZIndex (a b : TemplateElement) : Z := zIndex a - zIndex b.

(** [groupByLayer(elements, layers)] *)
Definition groupByLayer (elements : list TemplateElement)
  (layers : list Layer) : list (string * list TemplateElement) :=
  let groups :=
    foldl (fun groups layer => mapSet (layer_id layer) [] groups) []
      (sortBy compareOrder layers) in
  let groups :=
    foldl (fun groups el => mapPush (layerId el) el groups) groups elements in
  map (fun entry => (entry.1, sortBy compareZIndex entry.2)) groups.

(** ** Context values of the provider *)

(** [canUndo: docState.history.length > 0] *)
Definition canUndo (state : DocumentState) : bool :=
  (0 <? length (history state))%nat.

(** [canRedo: docState.future.length > 0] *)
Definition canRedo (state : DocumentState) : bool :=
  (0 <? length (future state))%nat.

(** Dispatching a list of actions to the selection reducer. *)
Definition selectAll (actions : list EngineAction) (start : SelectionState)
  : SelectionState :=
  foldl selectionReducer start actions.

(** ** Editor reducer ([engine/TemplateEditorCanvas.tsx]) *)

Record EditorState := {
  ed_document : TemplateDocument;
  ed_history : list TemplateDocument;
  ed_future : list TemplateDocument;
  ed_selectedIds : list string;
  ed_hoveredId : option string;
  ed_showGrid : bool;
  ed_scale : Q
}.

(** [{ ...state, document, history, future }] *)
Definition withDocState (state : EditorState) (doc : TemplateDocument)
  (hist fut : list TemplateDocument) : EditorState :=
  {| ed_document := doc; ed_history := hist; ed_future := fut;
     ed_selectedIds := ed_selectedIds state;
     ed_hoveredId := ed_hoveredId state; ed_showGrid := ed_showGrid state;
     ed_scale := ed_scale state |}.

Definition withSelectedIds (state : EditorState) (ids : list string)
  : EditorState :=
  {| ed_document := ed_document state; ed_history := ed_history state;
     ed_future := ed_future state; ed_selectedIds := ids;
     ed_hoveredId := ed_hoveredId state; ed_showGrid := ed_showGrid state;
     ed_scale := ed_scale state |}.

Definition withHoveredId (state : EditorState) (h : option string)
  : EditorState :=
  {| ed_document := ed_document state; ed_history := ed_history state;
     ed_future := ed_future state; ed_selectedIds := ed_selectedIds state;
     ed_hoveredId := h; ed_showGrid := ed_showGrid state;
     ed_scale := ed_scale state |}.

Definition pushUndo (state : EditorState) (newDoc : TemplateDocument)
  : EditorState :=
  withDocState state newDoc
    (sliceLast 50 (ed_history state) ++ [ed_document state]) [].

(** [{ ...el.dimensions, ...dimensions }] for a payload typed
    [Dimensions]: [width] and [height] are always present, the optional
    fields only when the payload carries them. *)
Definition mergeDimensions (base over : Dimensions) : Dimensions :=
  {| dim_width := dim_width over; dim_height := dim_height over;
     dim_minWidth := match dim_minWidth over with
                     | Some v => Some v | None => dim_minWidth base end;
     dim_minHeight := match dim_minHeight over with
                      | Some v => Some v | None => dim_minHeight base end;
     dim_maxWidth := match dim_maxWidth over with
                     | Some v => Some v | None => dim_maxWidth base end;
     dim_maxHeight := match dim_maxHeight over with
                      | Some v => Some v | None => dim_maxHeight base end;
     dim_aspectLock := match dim_aspectLock over with
                       | Some v => Some v | None => dim_aspectLock base end |}.

(** The copy made by the editor's [DUPLICATE_ELEMENT]. *)
Definition editorDuplicateOf (original : TemplateElement) (now : Z)
  : TemplateElement :=
  {| id := id original +:+ "_copy_" +:+ Num.ofZ now;
     type := type original;
     name := name original +:+ " (copy)";
     layerId := layerId original;
     position := {| pos_x := (pos_x (position original) + 8)%Q;
                    pos_y := (pos_y (position original) + 8)%Q;
                    pos_anchor := pos_anchor (position original) |};
     dimensions := dimensions original; rotation := rotation original;
     zIndex := zIndex original; style := style original;
     opacity := opacity original; visible := visible original;
     bindings := bindings original; condition := condition original;
     locked := false; selectable := true; props := props original;
     parentId := parentId original; children := children original |}.

Definition editorReducer (state : EditorState) (action : EngineAction)
  (clk : Clock) : EditorState * Clock :=
  match action with
  | SET_DOCUMENT payload => (withDocState state payload [] [], clk)
  | SELECT_ELEMENTS payload => (withSelectedIds state payload, clk)
  | HOVER_ELEMENT payload => (withHoveredId state payload, clk)
  | UPDATE_DRAG position =>
      match ed_selectedIds state with
      | [id'] =>
          (withDocState state
             (withElements (ed_document state)
                (map (fun el =>
                        if String.eqb (id el) id' then withPosition el position
                        else el)
                   (elements (ed_document state))))
             (ed_history state) (ed_future state), clk)
      | _ => (state, clk)
      end
  | UPDATE_RESIZE dims =>
      match ed_selectedIds state with
      | [id'] =>
          (withDocState state
             (withElements (ed_document state)
                (map (fun el =>
                        if String.eqb (id el) id' then
                          withDimensions el
                            (mergeDimensions (dimensions el) dims)
                        else el)
                   (elements (ed_document state))))
             (ed_history state) (ed_future state), clk)
      | _ => (state, clk)
      end
  | START_DRAG _ | END_DRAG | START_RESIZE _ | END_RESIZE => (state, clk)
  | MOVE_ELEMENT id' position =>
      (pushUndo state
         (withElements (ed_document state)
            (map (fun el =>
                    if String.eqb (id el) id' then withPosition el position
                    else el)
               (elements (ed_document state)))), clk)
  | RESIZE_ELEMENT id' dimensions position =>
      (pushUndo state
         (withElements (ed_document state)
            (map (fun el =>
                    if String.eqb (id el) id' then
                      match position with
                      | Some p => withPosition (withDimensions el dimensions) p
                      | None => withDimensions el dimensions
                      end
                    else el)
               (elements (ed_document state)))), clk)
  | UPDATE_ELEMENT id' changes =>
      (pushUndo state
         (withElements (ed_document state)
            (map (fun el =>
                    if String.eqb (id el) id' then mergeElement el changes
                    else el)
               (elements (ed_document state)))), clk)
  | REMOVE_ELEMENT payload =>
      (pushUndo state
         (withElements (ed_document state)
            (List.filter (fun el => negb (String.eqb (id el) payload))
               (elements (ed_document state)))), clk)
  | DUPLICATE_ELEMENT payload =>
      match List.find (fun el => String.eqb (id el) payload)
              (elements (ed_document state)) with
      | None => (state, clk)
      | Some original =>
          let '(now, clk') := Date_now clk in
          let copy := editorDuplicateOf original now in
          (withSelectedIds
             (pushUndo state
                (withElements (ed_document state)
                   (elements (ed_document state) ++ [copy])))
             [id copy], clk')
      end
  | REORDER_ELEMENT id' zIndex' =>
      (pushUndo state
         (withElements (ed_document state)
            (map (fun el =>
                    if String.eqb (id el) id' then withZIndex el zIndex'
                    else el)
               (elements (ed_document state)))), clk)
  | UNDO =>
      match last (ed_history state) with
      | None => (state, clk)
      | Some prev =>
          (withDocState state prev
             (take (length (ed_history state) - 1)%nat (ed_history state))
             (ed_document state :: ed_future state), clk)
      end
  | REDO =>
      match ed_future state with
      | [] => (state, clk)
      | next :: rest =>
          (withDocState state next
             (ed_history state ++ [ed_document state]) rest, clk)
      end
  | _ => (state, clk)
  end.

(** The part of the editor state that the document reducer also keeps. *)
Definition documentSlice (state : EditorState) : DocumentState :=
  {| document := ed_document state; history := ed_history state;
     future := ed_future state |}.

(** ** Pointer and keyboard handlers ([engine/hooks/useElementInteraction.ts]) *)

(** The [dragStart] ref. *)
Record DragStart := {
  ds_x : Q;
  ds_y : Q;
  ds_elX : Q;
  ds_elY : Q
}.

(** The refs of the hook. *)
Record InteractionRefs := {
  isDragging : bool;
  isResizing : bool;
  dragStart : option DragStart;
  resizeStart : option ResizeStart;
  activeElementId : option string;
  lastDragPos : option (Q * Q);
  lastResizeDims : option (Q * Q)
}.

Definition initialRefs : InteractionRefs :=
  {| isDragging := false; isResizing := false; dragStart := None;
     resizeStart := None; activeElementId := None; lastDragPos := None;
     lastResizeDims := None |}.


Definition clearSelection : list EngineAction := [SELECT_ELEMENTS []].

(** [startDrag(elementId, mouseX, mouseY)].  [canvasRect] is the left and
    top of [canvasRef.current?.getBoundingClientRect()], when there is a
    canvas.  The result is the refs after the call and the actions
    dispatched. *)
Definition startDrag (doc : TemplateDocument) (config : EngineConfig)
  (canvasRect : option (Q * Q)) (refs : InteractionRefs)
  (elementId : string) (mouseX mouseY : Q)
  : InteractionRefs * list EngineAction :=
  match List.find (fun el => String.eqb (id el) elementId) (elements doc) with
  | None => (refs, [])
  | Some element =>
      if isElementLocked element (layers doc) then (refs, [])
      else
        match canvasRect with
        | None => (refs, [])
        | Some (rectLeft, rectTop) =>
            let elX := (pos_x (position element) * scale config)%Q in
            let elY := (pos_y (position element) * scale config)%Q in
            let offsetX := (mouseX - rectLeft - elX)%Q in
            let offsetY := (mouseY - rectTop - elY)%Q in
            ({| isDragging := true; isResizing := isResizing refs;
                dragStart :=
                  Some {| ds_x := mouseX; ds_y := mouseY;
                          ds_elX := pos_x (position element);
                          ds_elY := pos_y (position element) |};
                resizeStart := resizeStart refs;
                activeElementId := Some elementId;
                lastDragPos := lastDragPos refs;
                lastResizeDims := lastResizeDims refs |},
             [START_DRAG
                {| drag_elementId := elementId;
                   drag_startPosition := position element;
                   drag_currentPosition := position element;
                   drag_offset := (offsetX, offsetY) |}])
        end
  end.

(** [startResize(elementId, handle, mouseX, mouseY)] *)
Definition startResize (doc : TemplateDocument) (refs : InteractionRefs)
  (elementId : string) (handle : ResizeHandle) (mouseX mouseY : Q)
  : InteractionRefs * list EngineAction :=
  match List.find (fun el => String.eqb (id el) elementId) (elements doc) with
  | None => (refs, [])
  | Some element =>
      if isElementLocked element (layers doc) then (refs, [])
      else
        ({| isDragging := isDragging refs; isResizing := true;
            dragStart := dragStart refs;
            resizeStart :=
              Some {| rs_handle := handle; rs_mouseX := mouseX;
                      rs_mouseY := mouseY;
                      rs_elX := pos_x (position element);
                      rs_elY := pos_y (position element);
                      rs_elW := dim_width (dimensions element);
                      rs_elH := dim_height (dimensions element);
                      rs_aspectLock :=
                        default false
                          (dim_aspectLock (dimensions element)) |};
            activeElementId := Some elementId;
            lastDragPos := lastDragPos refs;
            lastResizeDims := lastResizeDims refs |},
         [START_RESIZE
            {| rsz_elementId := elementId; rsz_handle := handle;
               rsz_startDimensions := dimensions element;
               rsz_startPosition := position element;
               rsz_currentDimensions := dimensions element |}])
  end.

(** [config.mode === 'preview'] *)
Definition isPreview (m : RenderMode) : bool :=
  match m with
  | ModePreview => true
  | _ => false
  end.

(** [a / b] on numbers: with the divisor 0 the quotient is [NaN] or an
    infinity. *)
Definition quotient (a b : Q) : JSNumber :=
  if Qeq_bool b 0 then
    if Qeq_bool a 0 then NaN
    else if Qle_bool 0 a then PosInf else NegInf
  else Fin (a / b)%Q.

(** One coordinate of the drag branch: the start coordinate plus the
    pointer travel in document units, snapped when snapping is on.  When
    the travel in document units is an infinity or [NaN] (the scale is
    0), so are the sum and the snapped value, the grid size being
    positive where snapping applies. *)
Definition dragCoordinate (config : EngineConfig) (elStart mouseStart
  client : Q) : JSNumber :=
  match quotient (client - mouseStart) (scale config) with
  | Fin d =>
      let new := (elStart + d)%Q in
      Fin (if snapToGrid config && Math.gt (gridSize config) 0
           then (Math.round (new / gridSize config) * gridSize config)%Q
           else new)
  | other => other
  end.

(** [{ x: newX, y: newY }] *)
Definition pointOf (xy : Q * Q) : Position :=
  {| pos_x := fst xy; pos_y := snd xy; pos_anchor := None |}.

(** [handleMouseMove(e)], with the guard of the effect that installs it:
    the listener exists in preview mode only.  [hasCanvas] tells whether
    [canvasRef.current] is set.  The result is [None] where the
    arithmetic of the code leaves the rational numbers, which the
    positions and dimensions of this model cannot follow: when a gesture
    is followed at scale 0, and when the aspect lock divides by a start
    width or height of 0. *)
Definition handleMouseMove (config : EngineConfig) (hasCanvas : bool)
  (refs : InteractionRefs) (clientX clientY : Q)
  : option (InteractionRefs * list EngineAction) :=
  if negb (isPreview (mode config)) then Some (refs, [])
  else if negb hasCanvas then Some (refs, [])
  else
    let afterDrag :=
      match isDragging refs, dragStart refs with
      | true, Some ds =>
          match dragCoordinate config (ds_elX ds) (ds_x ds) clientX,
                dragCoordinate config (ds_elY ds) (ds_y ds) clientY with
          | Fin newX, Fin newY =>
              Some ({| isDragging := isDragging refs;
                       isResizing := isResizing refs;
                       dragStart := dragStart refs;
                       resizeStart := resizeStart refs;
                       activeElementId := activeElementId refs;
                       lastDragPos := Some (newX, newY);
                       lastResizeDims := lastResizeDims refs |},
                    [UPDATE_DRAG (pointOf (newX, newY))])
          | _, _ => None
          end
      | _, _ => Some (refs, [])
      end in
    match afterDrag with
    | None => None
    | Some (refs1, dragActions) =>
        match isResizing refs1, resizeStart refs1 with
        | true, Some rs =>
            if Qeq_bool (scale config) 0
               || (rs_aspectLock rs
                   && (Qeq_bool (rs_elW rs) 0 || Qeq_bool (rs_elH rs) 0))
            then None
            else
              let wh := resizeDimensions config rs clientX clientY in
              Some ({| isDragging := isDragging refs1;
                       isResizing := isResizing refs1;
                       dragStart := dragStart refs1;
                       resizeStart := resizeStart refs1;
                       activeElementId := activeElementId refs1;
                       lastDragPos := lastDragPos refs1;
                       lastResizeDims := Some wh |},
                    dragActions ++ [UPDATE_RESIZE (dimsOf wh)])
        | _, _ => Some (refs1, dragActions)
        end
    end.

(** A ref holding an id counts as set when the id is not the empty
    string. *)
Definition activeId (refs : InteractionRefs) : option string :=
  match activeElementId refs with
  | Some i => if truthy i then Some i else None
  | None => None
  end.

(** [handleMouseUp()], with the guard of the effect that installs it. *)
Definition handleMouseUp (config : EngineConfig) (refs : InteractionRefs)
  : InteractionRefs * list EngineAction :=
  if negb (isPreview (mode config)) then (refs, [])
  else
    let '(refs1, dragActions) :=
      match isDragging refs, activeId refs, lastDragPos refs with
      | true, Some i, Some pos =>
          ({| isDragging := false; isResizing := isResizing refs;
              dragStart := None; resizeStart := resizeStart refs;
              activeElementId := activeElementId refs;
              lastDragPos := None;
              lastResizeDims := lastResizeDims refs |},
           [MOVE_ELEMENT i (pointOf pos); END_DRAG])
      | _, _, _ => (refs, [])
      end in
    let '(refs2, resizeActions) :=
      match isResizing refs1, activeId refs1, lastResizeDims refs1 with
      | true, Some i, Some wh =>
          ({| isDragging := isDragging refs1; isResizing := false;
              dragStart := dragStart refs1; resizeStart := None;
              activeElementId := activeElementId refs1;
              lastDragPos := lastDragPos refs1;
              lastResizeDims := None |},
           [RESIZE_ELEMENT i (dimsOf wh) None; END_RESIZE])
      | _, _, _ => (refs1, [])
      end in
    ({| isDragging := isDragging refs2; isResizing := isResizing refs2;
        dragStart := dragStart refs2; resizeStart := resizeStart refs2;
        activeElementId := None;
        lastDragPos := lastDragPos refs2;
        lastResizeDims := lastResizeDims refs2 |},
     dragActions ++ resizeActions).

(** A sequence of [mousemove] events. *)
Fixpoint mouseMoves (config : EngineConfig) (hasCanvas : bool)
  (refs : InteractionRefs) (points : list (Q * Q))
  : option (InteractionRefs * list EngineAction) :=
  match points with
  | [] => Some (refs, [])
  | (x, y) :: rest =>
      match handleMouseMove config hasCanvas refs x y with
      | None => None
      | Some (refs1, actions1) =>
          match mouseMoves config hasCanvas refs1 rest with
          | None => None
          | Some (refs2, actions2) => Some (refs2, actions1 ++ actions2)
          end
      end
  end.

Record KeyEvent := {
  key : string;
  shiftKey : bool;
  ctrlKey : bool;
  metaKey : bool
}.

(** The loop of an arrow key: one [MOVE_ELEMENT] for each selected id
    that names an unlocked element. *)
Definition arrowMoves (doc : TemplateDocument) (selectedIds : list string)
  (shift : Position -> Position) : list EngineAction :=
  flat_map
    (fun id' =>
       match List.find (fun el => String.eqb (id el) id') (elements doc) with
       | Some el =>
           if negb (isElementLocked el (layers doc))
           then [MOVE_ELEMENT id' (shift (position el))]
           else []
       | None => []
       end)
    selectedIds.

(** [handleKeyDown(e)], with the guard of the effect that installs it. *)
Definition handleKeyDown (doc : TemplateDocument) (config : EngineConfig)
  (selectedIds : list string) (e : KeyEvent) : list EngineAction :=
  if negb (enableKeyboard config) || negb (isPreview (mode config)) then []
  else
    match selectedIds with
    | [] => []
    | _ =>
        let step := if shiftKey e then 10%Q
                    else if snapToGrid config then gridSize config
                    else 1%Q in
        if String.eqb (key e) "ArrowUp" then
          arrowMoves doc selectedIds
            (fun p => {| pos_x := pos_x p; pos_y := (pos_y p - step)%Q;
                         pos_anchor := pos_anchor p |})
        else if String.eqb (key e) "ArrowDown" then
          arrowMoves doc selectedIds
            (fun p => {| pos_x := pos_x p; pos_y := (pos_y p + step)%Q;
                         pos_anchor := pos_anchor p |})
        else if String.eqb (key e) "ArrowLeft" then
          arrowMoves doc selectedIds
            (fun p => {| pos_x := (pos_x p - step)%Q; pos_y := pos_y p;
                         pos_anchor := pos_anchor p |})
        else if String.eqb (key e) "ArrowRight" then
          arrowMoves doc selectedIds
            (fun p => {| pos_x := (pos_x p + step)%Q; pos_y := pos_y p;
                         pos_anchor := pos_anchor p |})
        else if String.eqb (key e) "Delete"
                || String.eqb (key e) "Backspace" then
          map REMOVE_ELEMENT selectedIds ++ [SELECT_ELEMENTS []]
        else if String.eqb (key e) "z" then
          if ctrlKey e || metaKey e then [UNDO] else []
        else if String.eqb (key e) "y" then
          if ctrlKey e || metaKey e then [REDO] else []
        else if String.eqb (key e) "d" then
          if ctrlKey e || metaKey e
          then map DUPLICATE_ELEMENT selectedIds else []
        else []
    end.

(** ** Card formatters ([utils/cardFormatters.ts]) *)

Definition isDigit (c : ascii) : bool :=
  let n := nat_of_ascii c in ((48 <=? n)%nat && (n <=? 57)%nat).

(** [s.replace(/\D/g, '')] *)
Fixpoint stripNonDigits (s : string) : string :=
  match s with
  | EmptyString => EmptyString
  | String c s' =>
      if isDigit c then String c (stripNonDigits s') else stripNonDigits s'
  end.

Definition formatPhoneNumber (phone : string) : string :=
  if negb (truthy phone) then "+91 9898989898"
  else
    let cleaned := stripNonDigits phone in
    if (String.length cleaned =? 10)%nat then "+91 " +:+ cleaned
    else if String.prefix "91" cleaned && (String.length cleaned =? 12)%nat
    then "+91 " +:+ Str.drop 2 cleaned
    else "+91 " +:+ cleaned.

(** The transform registered as [formatPhone] in [engine/transforms.ts]:
    [(value) => formatPhoneNumber(String(value ?? ''))]. *)
Definition formatPhoneTransform : TransformFn :=
  fun value _ =>
    VStr (formatPhoneNumber
            (ToString (if strictEq value VUndef || strictEq value VNull
                       then VStr EmptyString else value))).

Fixpoint allDigits (s : string) : bool :=
  match s with
  | EmptyString => true
  | String c s' => isDigit c && allDigits s'
  end.

(** The same condition with another operator. *)
Definition withOperator (c : ConditionalVisibility) (op : string)
  : ConditionalVisibility :=
  {| cond_field := cond_field c; cond_operator := op;
     cond_value := cond_value c |}.

(** The actions that rewrite one field of the elements with a given id. *)
Definition isGeometryAction (action : EngineAction) : bool :=
  match action with
  | MOVE_ELEMENT _ _ | RESIZE_ELEMENT _ _ _ | REORDER_ELEMENT _ _ => true
  | _ => false
  end.

(** The actions that the document reducer and the editor reducer both
    handle with the same code. *)
Definition isSharedAction (action : EngineAction) : bool :=
  match action with
  | SET_DOCUMENT _ | UPDATE_ELEMENT _ _ | MOVE_ELEMENT _ _
  | RESIZE_ELEMENT _ _ _ | REMOVE_ELEMENT _ | REORDER_ELEMENT _ _
  | UNDO | REDO => true
  | _ => false
  end.

(** The number of snapshots a state keeps. *)
Definition snapshotCount (state : DocumentState) : nat :=
  (length (history state) + length (future state))%nat.

(** The rational a number stands for, when it is one. *)
Definition finite (n : JSNumber) : Q :=
  match n with
  | Fin q => q
  | _ => 0%Q
  end.

(** The position that the drag branch computes for a pointer position. *)
Definition dragPoint (config : EngineConfig) (ds : DragStart) (pt : Q * Q)
  : Q * Q :=
  (finite (dragCoordinate config (ds_elX ds) (ds_x ds) (fst pt)),
   finite (dragCoordinate config (ds_elY ds) (ds_y ds) (snd pt))).

(** The dimensions that the resize branch computes for a pointer
    position. *)
Definition resizePoint (config : EngineConfig) (rs : ResizeStart)
  (pt : Q * Q) : Q * Q :=
  resizeDimensions config rs (fst pt) (snd pt).

(** The refs after a pointer move to [pt]: a gesture in progress
    remembers what it computes for [pt], everything else stays. *)
Definition tracked (config : EngineConfig) (refs : InteractionRefs)
  (pt : Q * Q) : InteractionRefs :=
  {| isDragging := isDragging refs; isResizing := isResizing refs;
     dragStart := dragStart refs; resizeStart := resizeStart refs;
     activeElementId := activeElementId refs;
     lastDragPos :=
       match isDragging refs, dragStart refs with
       | true, Some ds => Some (dragPoint config ds pt)
       | _, _ => lastDragPos refs
       end;
     lastResizeDims :=
       match isResizing refs, resizeStart refs with
       | true, Some rs => Some (resizePoint config rs pt)
       | _, _ => lastResizeDims refs
       end |}.

(** The actions of a pointer move: they tell the selection state where
    the gesture is. *)
Definition isUpdate (action : EngineAction) : bool :=
  match action with
  | UPDATE_DRAG _ | UPDATE_RESIZE _ => true
  | _ => false
  end.

(** What a release commits for the element [target] out of what the refs
    remember. *)
Definition dragCommit (target : string) (pos : option (Q * Q))
  : list EngineAction :=
  match pos with
  | Some p => [MOVE_ELEMENT target (pointOf p); END_DRAG]
  | None => []
  end.

Definition resizeCommit (target : string) (dims : option (Q * Q))
  : list EngineAction :=
  match dims with
  | Some wh => [RESIZE_ELEMENT target (dimsOf wh) None; END_RESIZE]
  | None => []
  end.

(** The step of an arrow key:
    [e.shiftKey ? 10 : (config.snapToGrid ? config.gridSize : 1)]. *)
Definition arrowStep (config : EngineConfig) (e : KeyEvent) : Q :=
  if shiftKey e then 10%Q
  else if snapToGrid config then gridSize config else 1%Q.

(** The position an arrow key computes from a position. *)
Definition arrowShift (k : string) (step : Q) (p : Position) : Position :=
  if String.eqb k "ArrowUp" then
    {| pos_x := pos_x p; pos_y := (pos_y p - step)%Q;
       pos_anchor := pos_anchor p |}
  else if String.eqb k "ArrowDown" then
    {| pos_x := pos_x p; pos_y := (pos_y p + step)%Q;
       pos_anchor := pos_anchor p |}
  else if String.eqb k "ArrowLeft" then
    {| pos_x := (pos_x p - step)%Q; pos_y := pos_y p;
       pos_anchor := pos_anchor p |}
  else if String.eqb k "ArrowRight" then
    {| pos_x := (pos_x p + step)%Q; pos_y := pos_y p;
       pos_anchor := pos_anchor p |}
  else p.

(** An element of the document after an arrow key: shifted when its id
    is selected and it is not locked, as it was otherwise. *)
Definition shiftedIfSelected (doc : TemplateDocument)
  (shift : Position -> Position) (ids : list string) (el : TemplateElement)
  : TemplateElement :=
  if existsb (String.eqb (id el)) ids
     && negb (isElementLocked el (layers doc))
  then withPosition el (shift (position el))
  else el.

(** A locked layer, and a document with one element on it and one
    element on the default layer. *)
Definition lockedLayer : Layer :=
  {| layer_id := "fixed"; layer_name := "Fixed"; layer_visible := true;
     layer_locked := true; layer_opacity := 1; layer_order := 1 |}.

Definition lockedAndFree : TemplateDocument :=
  withLayers
    (withElements sampleDocument
       [sampleElement "el_1" "fixed" 0; sampleElement "el_2" "default" 0])
    [defaultLayer; lockedLayer].

Definition arrowRight : KeyEvent :=
  {| key := "ArrowRight"; shiftKey := false; ctrlKey := false;
     metaKey := false |}.

(** The [resizeStart] ref that a press on a handle of an element
    captures. *)
Definition resizeStartOf (element : TemplateElement) (handle : ResizeHandle)
  (mouseX mouseY : Q) : ResizeStart :=
  {| rs_handle := handle; rs_mouseX := mouseX; rs_mouseY := mouseY;
     rs_elX := pos_x (position element);
     rs_elY := pos_y (position element);
     rs_elW := dim_width (dimensions element);
     rs_elH := dim_height (dimensions element);
     rs_aspectLock := default false (dim_aspectLock (dimensions element)) |}.

(** A document whose one element keeps its aspect ratio. *)
Definition ratioLockedDocument : TemplateDocument :=
  withElements sampleDocument
    [withDimensions (sampleElement "el_1" "default" 0)
       {| dim_width := 100; dim_height := 40;
          dim_minWidth := Some 20%Q; dim_minHeight := None;
          dim_maxWidth := None; dim_maxHeight := None;
          dim_aspectLock := Some true |}].


(** Bindings under the paths [__proto__] and [props.__proto__], and a data
    context in which they resolve to an object. *)
Definition themeBinding : DataBinding :=
  {| field := "theme"; transform := None; fallback := None;
     formatTemplate := None |}.

Definition protoBindings : gmap string DataBinding :=
  {[ "__proto__" := themeBinding;
     "props.__proto__" := themeBinding;
     "props.content" := nameBinding ]}.

Definition themeData : DataContext :=
  {[ "theme" := VObj {[ "content" := VStr "inherited" ]};
     "employee" := VObj {[ "name" := VStr "Ann" ]} ]}.






(** The test an element passes to be painted: its layer is visible or
    unknown, it is visible itself, and its condition, if any, holds. *)
Definition retained (layers : list Layer) (data : DataContext)
  (el : TemplateElement) : bool :=
  layerVisible (buildLayerMap layers) el
  && visible el
  && bool_decide (conditionHolds data el = Some true).




(** The start of a resize on which the aspect-lock arithmetic divides by
    no zero: there is no aspect lock, or the width and the height the
    gesture starts from are other than 0. *)
Definition soundStart (rs : ResizeStart) : Prop :=
  rs_aspectLock rs = true ->
  ~ (rs_elW rs == 0)%Q /\ ~ (rs_elH rs == 0)%Q.

(** No resize is in progress, or one with such a start. *)
Definition soundResize (refs : InteractionRefs) : Prop :=
  isResizing refs = true ->
  forall rs, resizeStart refs = Some rs -> soundStart rs.




(** ** Properties of the document reducer *)

Section ReducerFacts.

Implicit Types (s : DocumentState) (clk : Clock) (a : EngineAction)
  (d : TemplateDocument).

Lemma sliceLast_short {A} (n : nat) (l : list A) :
  (length l <= n)%nat -> sliceLast n l = l.
Proof.
  intros Hle. unfold sliceLast.
  replace (length l - n)%nat with O by lia. reflexivity.
Qed.

Lemma sliceLast_length {A} (n : nat) (l : list A) :
  length (sliceLast n l) = Nat.min n (length l).
Proof. unfold sliceLast. rewrite length_drop. lia. Qed.

Lemma pushHistory_length s d :
  length (history (pushHistory s d))
  = S (Nat.min MAX_HISTORY (length (history s))).
Proof.
  unfold pushHistory; simpl. rewrite length_app, sliceLast_length.
  simpl. lia.
Qed.

Lemma pushHistory_newest s d :
  last (history (pushHistory s d)) = Some (document s).
Proof. unfold pushHistory; simpl. apply last_snoc. Qed.

Lemma pushHistory_under_cap s d :
  (length (history s) <= MAX_HISTORY)%nat ->
  history (pushHistory s d) = history s ++ [document s].
Proof.
  intros Hle. unfold pushHistory; simpl. now rewrite sliceLast_short.
Qed.

(** A committed action is one call of [pushHistory] and reads the clock at
    most once. *)
Lemma pushesHistory_spec s a clk :
  pushesHistory s a = true ->
  exists d clk', documentReducer s a clk = (pushHistory s d, clk').
Proof.
  destruct a; simpl; try discriminate; intros Hp; try (eexists _, _; reflexivity).
  apply bool_decide_eq_true in Hp. destruct Hp as [o Ho]. rewrite Ho.
  eexists _, _; reflexivity.
Qed.

Lemma undo_after_push s d :
  (length (history s) <= MAX_HISTORY)%nat ->
  undo (pushHistory s d)
  = {| document := document s; history := history s; future := [d] |}.
Proof.
  intros Hle. unfold undo. rewrite pushHistory_newest.
  rewrite (pushHistory_under_cap s d Hle). f_equal.
  rewrite length_app; simpl.
  replace (length (history s) + 1 - 1)%nat with (length (history s)) by lia.
  apply take_app_length.
Qed.

Lemma redo_undo s :
  history s <> [] \/ future s = [] -> redo (undo s) = s.
Proof.
  intros Hs. unfold undo.
  destruct (last (history s)) as [prev|] eqn:Hlast.
  - unfold redo; simpl. destruct s as [doc h f]; simpl in *. f_equal.
    destruct (last_Some h prev) as [[h' ->] _]; [exact Hlast|].
    rewrite length_app; simpl.
    replace (length h' + 1 - 1)%nat with (length h') by lia.
    now rewrite take_app_length.
  - apply last_None in Hlast. destruct Hs as [Hs | Hs]; [congruence|].
    unfold redo. now rewrite Hs.
Qed.

Lemma undoTimes_shift n s clk :
  undoTimes n (undo s, clk)
  = (undo (fst (undoTimes n (s, clk))), snd (undoTimes n (s, clk))).
Proof.
  revert s clk. induction n as [|n IH]; intros s clk; simpl;
    [reflexivity | apply IH].
Qed.

(** [n] committed actions below the cap are undone by [n] undo steps. *)
Lemma undoTimes_dispatchAll (actions : list EngineAction) :
  forall start : DocumentState * Clock,
    allCommitted actions start = true ->
    (length (history (fst start)) + length actions <= S MAX_HISTORY)%nat ->
    let back := undoTimes (length actions) (dispatchAll actions start) in
    document (fst back) = document (fst start)
    /\ history (fst back) = history (fst start).
Proof.
  induction actions as [|a rest IH]; intros [s clk] Hall Hlen; simpl in *.
  - split; reflexivity.
  - apply andb_prop in Hall as [Ha Hrest].
    destruct (pushesHistory_spec s a clk Ha) as (d & clk' & Hstep).
    rewrite Hstep in Hrest |- *.
    assert (Hcap : (length (history s) <= MAX_HISTORY)%nat) by lia.
    specialize (IH (pushHistory s d, clk') Hrest). cbn [fst snd] in IH.
    rewrite pushHistory_under_cap in IH by exact Hcap.
    rewrite length_app in IH; simpl in IH.
    specialize (IH ltac:(lia)). destruct IH as [IHd IHh].
    destruct (dispatchAll rest (pushHistory s d, clk')) as [sf cf].
    cbn [fst snd] in *. rewrite undoTimes_shift. cbn [fst snd].
    unfold undo. rewrite IHh, last_snoc; simpl.
    split; [reflexivity|].
    rewrite length_app; simpl.
    replace (length (history s) + 1 - 1)%nat with (length (history s)) by lia.
    apply take_app_length.
Qed.

Lemma dispatchAll_future (actions : list EngineAction) :
  forall start : DocumentState * Clock,
    allCommitted actions start = true ->
    future (fst start) = [] ->
    future (fst (dispatchAll actions start)) = [].
Proof.
  induction actions as [|a rest IH]; intros [s clk] Hall Hf; simpl in *.
  - exact Hf.
  - apply andb_prop in Hall as [Ha Hrest].
    destruct (pushesHistory_spec s a clk Ha) as (d & clk' & Hstep).
    rewrite Hstep in Hrest |- *. now apply IH.
Qed.

End ReducerFacts.

Section StaleIds.

Context {A : Type} (key : A -> string) (target : string).

Lemma map_stale (g : A -> A) (l : list A) :
  forallb (fun x => negb (String.eqb (key x) target)) l = true ->
  map (fun x => if String.eqb (key x) target then g x else x) l = l.
Proof.
  induction l as [|x l IH]; simpl; [reflexivity|].
  intros H. apply andb_prop in H as [Hx Hl].
  apply negb_true_iff in Hx. rewrite Hx, IH by exact Hl. reflexivity.
Qed.

Lemma filter_stale (l : list A) :
  forallb (fun x => negb (String.eqb (key x) target)) l = true ->
  List.filter (fun x => negb (String.eqb (key x) target)) l = l.
Proof.
  induction l as [|x l IH]; simpl; [reflexivity|].
  intros H. apply andb_prop in H as [Hx Hl].
  rewrite Hx, IH by exact Hl. reflexivity.
Qed.

Lemma find_stale (l : list A) :
  forallb (fun x => negb (String.eqb (key x) target)) l = true ->
  List.find (fun x => String.eqb (key x) target) l = None.
Proof.
  induction l as [|x l IH]; simpl; [reflexivity|].
  intros H. apply andb_prop in H as [Hx Hl].
  apply negb_true_iff in Hx. rewrite Hx. now apply IH.
Qed.

End StaleIds.

Lemma withElements_same (doc : TemplateDocument) :
  withElements doc (elements doc) = doc.
Proof. destruct doc; reflexivity. Qed.

Lemma batch_loop (actions : list EngineAction) :
  forall current : DocumentState * Clock,
    (fix loop (actions : list EngineAction)
         (current : DocumentState * Clock) : DocumentState * Clock :=
       match actions with
       | [] => current
       | a :: rest =>
           loop rest (documentReducer (fst current) a (snd current))
       end) actions current
    = dispatchAll actions current.
Proof.
  induction actions as [|a rest IH]; intros current; [reflexivity|].
  simpl. apply IH.
Qed.



(** *** The claims about the two reducers *)

(** C1. Undo/redo round trip.  From a state with empty history and future,
    after any [N <= 50] committed actions: [N] undo steps bring back the
    original document; one undo followed by one redo brings back the
    document that was current before the undo; and a committed action
    after an undo leaves the future stack empty, so that a following redo
    changes nothing. *)
Theorem undo_redo_round_trip :
  forall (s0 : DocumentState) (clk : Clock) (actions : list EngineAction),
    history s0 = [] ->
    future s0 = [] ->
    allCommitted actions (s0, clk) = true ->
    (length actions <= 50)%nat ->
    let after := dispatchAll actions (s0, clk) in
    let undone := documentReducer (fst after) UNDO (snd after) in
    document (fst (undoTimes (length actions) after)) = document s0
    /\ document (fst (documentReducer (fst undone) REDO (snd undone)))
       = document (fst after)
    /\ forall a : EngineAction,
         pushesHistory (fst undone) a = true ->
         let edited := documentReducer (fst undone) a (snd undone) in
         future (fst edited) = []
         /\ fst (documentReducer (fst edited) REDO (snd edited)) = fst edited.
Proof.
  intros s0 clk actions Hh Hf Hall Hlen after undone.
  split; [|split].
  - apply (undoTimes_dispatchAll actions (s0, clk) Hall).
    cbn [fst]. rewrite Hh. unfold MAX_HISTORY. simpl. lia.
  - subst undone. cbn [documentReducer fst snd].
    rewrite redo_undo; [reflexivity|]. right.
    apply (dispatchAll_future actions (s0, clk) Hall Hf).
  - intros a Ha edited.
    destruct (pushesHistory_spec _ a (snd undone) Ha) as (d & clk' & Hstep).
    subst edited. rewrite Hstep. cbn [documentReducer fst snd].
    split; reflexivity.
Qed.

Lemma undo_redo_round_trip_witness :
  let s0 := initialState sampleDocument in
  let actions :=
    [ADD_ELEMENT (sampleElement "el_1" "default" 0);
     MOVE_ELEMENT "el_1" samplePosition;
     DUPLICATE_ELEMENT "el_1"] in
  let after := dispatchAll actions (s0, sampleClock) in
  let undone := documentReducer (fst after) UNDO (snd after) in
  document (fst (undoTimes 3 after)) = sampleDocument
  /\ document (fst (documentReducer (fst undone) REDO (snd undone)))
     = document (fst after)
  /\ forall a : EngineAction,
       pushesHistory (fst undone) a = true ->
       let edited := documentReducer (fst undone) a (snd undone) in
       future (fst edited) = []
       /\ fst (documentReducer (fst edited) REDO (snd edited)) = fst edited.
Proof.
  intros s0 actions after undone.
  apply (undo_redo_round_trip s0 sampleClock actions);
    [reflexivity | reflexivity | vm_compute; reflexivity | simpl; lia].
Defined.

(** C2, as amended.  An element-targeting action whose id matches no
    element leaves the document as it is.  [DUPLICATE_ELEMENT] returns the
    state unchanged; the other five still record the unchanged document in
    the history and empty the future stack. *)
Theorem stale_id_keeps_document :
  forall (s : DocumentState) (clk : Clock) (a : EngineAction)
         (target : string),
    elementTarget a = Some target ->
    idAbsent target (document s) = true ->
    document (fst (documentReducer s a clk)) = document s
    /\ match a with
       | DUPLICATE_ELEMENT _ => documentReducer s a clk = (s, clk)
       | _ => documentReducer s a clk = (pushHistory s (document s), clk)
       end.
Proof.
  intros s clk a target Ht Habs. unfold idAbsent in Habs.
  destruct a; simpl in Ht; try discriminate; injection Ht as ->;
    cbn [documentReducer].
  - rewrite (map_stale id target) by exact Habs.
    rewrite withElements_same. split; reflexivity.
  - rewrite (map_stale id target) by exact Habs.
    rewrite withElements_same. split; reflexivity.
  - rewrite (map_stale id target) by exact Habs.
    rewrite withElements_same. split; reflexivity.
  - rewrite (filter_stale id target) by exact Habs.
    rewrite withElements_same. split; reflexivity.
  - rewrite (find_stale id target) by exact Habs. split; reflexivity.
  - rewrite (map_stale id target) by exact Habs.
    rewrite withElements_same. split; reflexivity.
Qed.

Lemma stale_id_keeps_document_witness :
  document (fst (documentReducer redoableState
                   (MOVE_ELEMENT "ghost" samplePosition) sampleClock))
  = oneElementDocument.
Proof.
  apply (stale_id_keeps_document redoableState sampleClock
           (MOVE_ELEMENT "ghost" samplePosition) "ghost");
    reflexivity.
Defined.

(** C2 as stated fails: moving an element whose id is unknown records a
    history entry and discards the redo stack. *)
Lemma stale_id_changes_stacks :
  idAbsent "ghost" (document redoableState) = true
  /\ history (fst (documentReducer redoableState
                     (MOVE_ELEMENT "ghost" samplePosition) sampleClock))
     = [oneElementDocument]
  /\ history redoableState = []
  /\ future (fst (documentReducer redoableState
                    (MOVE_ELEMENT "ghost" samplePosition) sampleClock))
     = []
  /\ future redoableState = [sampleDocument].
Proof. repeat split; reflexivity. Qed.

(** C3 at its failing input.  After fifty committed actions the history
    holds fifty snapshots; the next committed action leaves fifty-one,
    one more than [MAX_HISTORY]. *)
Theorem history_exceeds_cap :
  length (history (fst fiftyEdits)) = 50%nat
  /\ length (history (fst (documentReducer (fst fiftyEdits)
                             (ADD_ELEMENT (sampleElement "el_2" "default" 1))
                             (snd fiftyEdits))))
     = S MAX_HISTORY.
Proof. split; vm_compute; reflexivity. Qed.



(** C10.  Without a drag in progress [UPDATE_DRAG] leaves the selection
    state as it is, and without a resize in progress so does
    [UPDATE_RESIZE]: only a [START_*] action creates a gesture. *)
Theorem update_without_gesture_is_noop :
  forall (s : SelectionState) (p : Position) (d : Dimensions),
    (dragState s = None -> selectionReducer s (UPDATE_DRAG p) = s)
    /\ (resizeState s = None -> selectionReducer s (UPDATE_RESIZE d) = s).
Proof.
  intros s p d. split; intros H; simpl; now rewrite H.
Qed.

Lemma update_without_gesture_is_noop_witness :
  selectionReducer initialSelection (UPDATE_DRAG samplePosition)
  = initialSelection
  /\ selectionReducer initialSelection
       (UPDATE_RESIZE (dimsOf (120%Q, 60%Q)))
     = initialSelection.
Proof.
  destruct (update_without_gesture_is_noop initialSelection samplePosition
              (dimsOf (120%Q, 60%Q))) as [Hdrag Hresize].
  split; [apply Hdrag | apply Hresize]; reflexivity.
Defined.

(** ** Properties of the layer manager *)

Section SortByKey.

Context {A : Type} (key : A -> Z).

Lemma insertBy_perm (x : A) (l : list A) :
  insertBy (compareByKey key) x l ≡ₚ x :: l.
Proof.
  induction l as [|y l IH]; simpl; [reflexivity|].
  destruct (compareByKey key x y <=? 0); [reflexivity|].
  rewrite IH. apply Permutation_swap.
Qed.

Lemma sortBy_perm (l : list A) : sortBy (compareByKey key) l ≡ₚ l.
Proof.
  induction l as [|x l IH]; simpl; [reflexivity|].
  rewrite insertBy_perm. now rewrite IH.
Qed.

Lemma insertBy_sorted (x : A) (l : list A) :
  StronglySorted (ascendingBy key) l ->
  StronglySorted (ascendingBy key) (insertBy (compareByKey key) x l).
Proof.
  induction 1 as [|y l Hs IH Hy]; simpl.
  - repeat constructor.
  - destruct (compareByKey key x y <=? 0) eqn:Hc.
    + apply Z.leb_le in Hc. unfold compareByKey in Hc.
      constructor; [now constructor|].
      constructor; [unfold ascendingBy; lia|].
      eapply Forall_impl; [exact Hy|].
      intros z Hz. unfold ascendingBy in *. lia.
    + apply Z.leb_gt in Hc. unfold compareByKey in Hc.
      constructor; [exact IH|].
      rewrite insertBy_perm.
      constructor; [unfold ascendingBy; lia | exact Hy].
Qed.

Lemma sortBy_sorted (l : list A) :
  StronglySorted (ascendingBy key) (sortBy (compareByKey key) l).
Proof.
  induction l as [|x l IH]; simpl; [constructor | now apply insertBy_sorted].
Qed.

Lemma sorted_lookup (l : list A) :
  StronglySorted (ascendingBy key) l ->
  forall (i j : nat) (a b : A),
    l !! i = Some a -> l !! j = Some b -> (i < j)%nat -> key a <= key b.
Proof.
  induction 1 as [|x l Hs IH Hx]; intros i j a b Hi Hj Hij.
  - discriminate.
  - destruct j as [|j]; [lia|]. simpl in Hj.
    destruct i as [|i]; simpl in Hi.
    + injection Hi as <-. rewrite Forall_forall in Hx.
      apply Hx. eapply list_elem_of_lookup_2. exact Hj.
    + apply (IH i j); [assumption | assumption | lia].
Qed.

End SortByKey.

Lemma filterM_total {A} (p : A -> option bool) (l : list A) :
  (forall x, is_Some (p x)) -> is_Some (filterM p l).
Proof.
  intros Hp. induction l as [|x l [r Hr]]; simpl; [eexists; reflexivity|].
  destruct (Hp x) as [keep ->]. rewrite Hr. eexists; reflexivity.
Qed.

(** Step (a) of the resolver: the walk along a path never throws. *)
Lemma nestedStep_total (a : JSValue) (key : string) :
  is_Some (nestedStep (Some a) key).
Proof.
  unfold nestedStep.
  destruct a; simpl; try (eexists; reflexivity).
  - destruct (String.eqb key "length"); [eexists; reflexivity|].
    destruct (Num.arrayIndex key) as [i|]; [|eexists; reflexivity].
    destruct (String.get i s); eexists; reflexivity.
  - destruct (String.eqb key "length"); [eexists; reflexivity|].
    destruct (Num.arrayIndex key); eexists; reflexivity.
Qed.

Lemma getNestedValue_total (obj : JSValue) (path : string) :
  is_Some (getNestedValue obj path).
Proof.
  unfold getNestedValue. destruct (negb (truthy path)); [eexists; reflexivity|].
  generalize (Str.split "." path). intros keys. revert obj.
  induction keys as [|key keys IH]; intros obj; cbn [foldl];
    [eexists; reflexivity|].
  destruct (nestedStep_total obj key) as [v ->]. apply IH.
Qed.

Lemma evaluateCondition_total (c : ConditionalVisibility)
  (data : DataContext) : is_Some (evaluateCondition c data).
Proof.
  unfold evaluateCondition.
  destruct (getNestedValue_total (VObj data) (cond_field c)) as [v ->].
  eexists; reflexivity.
Qed.

(** The result is the retained elements, sorted by composite key. *)
Lemma getOrderedElements_sorted (elements : list TemplateElement)
  (layers : list Layer) (data : DataContext) :
  exists shown out,
    filterM (conditionHolds data)
      (List.filter visible
         (List.filter (layerVisible (buildLayerMap layers)) elements))
    = Some shown
    /\ getOrderedElements elements layers data = Some out
    /\ out ≡ₚ shown
    /\ StronglySorted (ascendingBy (compositeKey (buildLayerMap layers))) out.
Proof.
  unfold getOrderedElements.
  destruct (filterM_total (conditionHolds data)
              (List.filter visible
                 (List.filter (layerVisible (buildLayerMap layers)) elements)))
    as [shown ->].
  { intros el. unfold conditionHolds. destruct (condition el);
      [apply evaluateCondition_total | eexists; reflexivity]. }
  eexists _, _. split; [reflexivity|]. split; [reflexivity|]. split.
  - apply (sortBy_perm (compositeKey (buildLayerMap layers))).
  - apply (sortBy_sorted (compositeKey (buildLayerMap layers))).
Qed.

(** C5, as amended.  The returned list is ascending in the composite key
    [layer.order * 1000 + zIndex] (order [0] for an unresolvable layer);
    so of two retained elements whose resolved layers differ in [order],
    the one on the lower layer comes first whenever both z-indices lie in
    [[0, 1000)]. *)
Theorem paint_order_respects_layers :
  forall (elements : list TemplateElement) (layers : list Layer)
         (data : DataContext),
  exists out,
    getOrderedElements elements layers data = Some out
    /\ (forall (i j : nat) (a b : TemplateElement),
          out !! i = Some a -> out !! j = Some b -> (i < j)%nat ->
          resolvedOrder layers a * 1000 + zIndex a
          <= resolvedOrder layers b * 1000 + zIndex b)
    /\ (forall (i j : nat) (a b : TemplateElement),
          out !! i = Some a -> out !! j = Some b ->
          resolvedOrder layers a < resolvedOrder layers b ->
          0 <= zIndex a < 1000 -> 0 <= zIndex b < 1000 ->
          (i < j)%nat).
Proof.
  intros elements layers data.
  destruct (getOrderedElements_sorted elements layers data)
    as (shown & out & _ & Hout & _ & Hsorted).
  exists out. split; [exact Hout|].
  assert (Hasc : forall (i j : nat) (a b : TemplateElement),
             out !! i = Some a -> out !! j = Some b -> (i < j)%nat ->
             resolvedOrder layers a * 1000 + zIndex a
             <= resolvedOrder layers b * 1000 + zIndex b).
  { intros i j a b Hi Hj Hij.
    exact (sorted_lookup (compositeKey (buildLayerMap layers)) out Hsorted
             i j a b Hi Hj Hij). }
  split; [exact Hasc|].
  intros i j a b Hi Hj Horder Hza Hzb.
  destruct (Nat.lt_trichotomy i j) as [Hlt | [Heq | Hgt]]; [exact Hlt | |].
  - subst j. rewrite Hi in Hj. injection Hj as ->. lia.
  - specialize (Hasc j i b a Hj Hi Hgt). lia.
Qed.

Lemma paint_order_respects_layers_witness :
  exists out,
    getOrderedElements
      [sampleElement "b" "front" 0; sampleElement "a" "back" 999]
      [backLayer; frontLayer] ∅ = Some out
    /\ out !! 0%nat = Some (sampleElement "a" "back" 999)
    /\ out !! 1%nat = Some (sampleElement "b" "front" 0)
    /\ (0 < 1)%nat.
Proof.
  destruct (paint_order_respects_layers
              [sampleElement "b" "front" 0; sampleElement "a" "back" 999]
              [backLayer; frontLayer] ∅) as (out & Hout & _ & Horder).
  exists out. split; [exact Hout|].
  assert (Hval : out = [sampleElement "a" "back" 999;
                        sampleElement "b" "front" 0]).
  { vm_compute in Hout. injection Hout as <-. reflexivity. }
  split; [rewrite Hval; reflexivity|].
  split; [rewrite Hval; reflexivity|].
  apply (Horder 0%nat 1%nat (sampleElement "a" "back" 999)
           (sampleElement "b" "front" 0)).
  - rewrite Hval; reflexivity.
  - rewrite Hval; reflexivity.
  - vm_compute; reflexivity.
  - simpl; lia.
  - simpl; lia.
Defined.

(** C5 as stated fails: both z-indices are below 1000 in magnitude, yet
    the element of the higher layer is painted first. *)
Lemma layer_order_overridden_by_zIndex :
  getOrderedElements
    [sampleElement "a" "back" 999; sampleElement "b" "front" (-999)]
    [backLayer; frontLayer] ∅
  = Some [sampleElement "b" "front" (-999); sampleElement "a" "back" 999]
  /\ resolvedOrder [backLayer; frontLayer] (sampleElement "a" "back" 999)
     < resolvedOrder [backLayer; frontLayer]
         (sampleElement "b" "front" (-999))
  /\ Z.abs (zIndex (sampleElement "a" "back" 999)) < 1000
  /\ Z.abs (zIndex (sampleElement "b" "front" (-999))) < 1000.
Proof. repeat split; vm_compute; reflexivity. Qed.

(** ** Properties of the binding resolver *)

Lemma isBlank_absent (v : JSValue) : isBlank v = true <-> isAbsent v.
Proof.
  unfold isBlank, isAbsent. split.
  - destruct v; simpl; try discriminate; auto.
    intros H. apply String.eqb_eq in H. subst. auto.
  - intros [-> | [-> | ->]]; reflexivity.
Qed.


(** *** Numbers and their decimal text *)





















(** Steps (a) to (d) of [resolveBinding], in this order. *)
Lemma resolveBinding_steps (transforms : Registry) (binding : DataBinding)
  (data : DataContext) :
  exists raw,
    getNestedValue (VObj data) (field binding) = Some raw
    /\ resolveBinding transforms binding data
       = Some (applyFormat binding
                 (applyTransform transforms binding data
                    (applyFallback binding raw))).
Proof.
  unfold resolveBinding.
  destruct (getNestedValue_total (VObj data) (field binding)) as [raw ->].
  exists raw. split; reflexivity.
Qed.

Lemma applyFallback_absent (binding : DataBinding) (raw : JSValue) :
  isAbsent raw ->
  applyFallback binding raw = VStr (default EmptyString (fallback binding)).
Proof.
  intros H. apply isBlank_absent in H. unfold applyFallback. now rewrite H.
Qed.

Lemma applyTransform_unregistered (transforms : Registry)
  (binding : DataBinding) (data : DataContext) (value : JSValue)
  (tname : string) :
  transform binding = Some tname ->
  transforms !! tname = None ->
  applyTransform transforms binding data value = value.
Proof.
  intros Ht Hreg. unfold applyTransform, TransformFn in *. rewrite Ht, Hreg.
  now destruct (truthy tname).
Qed.

Lemma applyTransform_registered (transforms : Registry)
  (binding : DataBinding) (data : DataContext) (value : JSValue)
  (tname : string) (fn : TransformFn) :
  transform binding = Some tname ->
  truthy tname = true ->
  transforms !! tname = Some fn ->
  applyTransform transforms binding data value = fn value data.
Proof.
  intros Ht Hn Hreg. unfold applyTransform, TransformFn in *.
  now rewrite Ht, Hn, Hreg.
Qed.

(** A replacement text without a dollar sign is inserted as it is. *)
Lemma getSubstitution_plain (matched before after repl : string) :
  Str.hasChar "$" repl = false ->
  Str.getSubstitution matched before after repl = repl.
Proof.
  induction repl as [|c r IH]; intros H; [reflexivity|].
  cbn -[Ascii.eqb] in H |- *.
  apply orb_false_iff in H as [Hc Hr].
  rewrite Ascii.eqb_sym in Hc. rewrite Hc. now rewrite IH.
Qed.

Lemma replaceGo_plain (pat repl : string) :
  Str.hasChar "$" repl = false ->
  forall (s before : string) (skip : nat),
    Str.replaceGo pat repl before skip s = Str.substGo pat repl skip s.
Proof.
  intros Hplain. induction s as [|c s IH]; intros before skip;
    cbn [Str.replaceGo Str.substGo]; [reflexivity|].
  destruct skip as [|k]; [|apply IH].
  destruct (String.prefix pat (String c s)).
  - rewrite getSubstitution_plain by exact Hplain. now rewrite IH.
  - now rewrite IH.
Qed.

(** Step (d) for values without a dollar sign: every placeholder of the
    template is replaced by the text of the value. *)
Lemma applyFormat_plain (binding : DataBinding) (value : JSValue)
  (template : string) :
  formatTemplate binding = Some template ->
  truthy template = true ->
  Str.hasChar "$" (ToString value) = false ->
  applyFormat binding value
  = VStr (Str.substituteAll placeholder (ToString value) template).
Proof.
  intros Hf Ht Hplain. unfold applyFormat. rewrite Hf, Ht. f_equal.
  unfold Str.replaceAllLiteralRegex, Str.substituteAll.
  now apply replaceGo_plain.
Qed.

(** The two instances named with C4. *)
Example missing_field_gives_fallback :
  resolveBinding ∅
    {| field := "employee.nickname"; transform := None;
       fallback := Some "X"; formatTemplate := None |}
    {[ "employee" := VObj {[ "name" := VStr "Ann" ]} ]}
  = Some (VStr "X").
Proof. vm_compute; reflexivity. Qed.

Example format_template_interpolates :
  resolveBinding ∅
    {| field := "employee.id"; transform := None; fallback := None;
       formatTemplate := Some "ID: {{value}}" |}
    {[ "employee" := VObj {[ "id" := VStr "42" ]} ]}
  = Some (VStr "ID: 42").
Proof. vm_compute; reflexivity. Qed.

(** C4 at its failing input.  The resolved value is the text [Ca$$h], and
    the template with its placeholder replaced by that text would read
    [Name: Ca$$h]; the call of [replace] reads [$$] as an escaped dollar
    sign and returns [Name: Ca$h]. *)
Theorem format_template_rewrites_dollars :
  getNestedValue (VObj dollarData) (field nameBinding)
  = Some (VStr "Ca$$h")
  /\ resolveBinding ∅ nameBinding dollarData = Some (VStr "Name: Ca$h")
  /\ Str.substituteAll placeholder "Ca$$h" "Name: {{value}}"
     = "Name: Ca$$h".
Proof. repeat split; vm_compute; reflexivity. Qed.

(** ** Properties of the resize gesture *)

Lemma Math_max_floor (a b : Q) : (a <= Math.max a b)%Q.
Proof.
  unfold Math.max. destruct (Qle_bool a b) eqn:H.
  - now apply Qle_bool_iff.
  - apply Qle_refl.
Qed.

(** Without aspect lock and without snapping the floor of 10 holds. *)
Lemma resize_floor_plain (config : EngineConfig) (rs : ResizeStart)
  (clientX clientY : Q) :
  rs_aspectLock rs = false ->
  snapToGrid config = false ->
  (10 <= rs_elW rs)%Q ->
  (10 <= rs_elH rs)%Q ->
  (10 <= fst (resizeDimensions config rs clientX clientY))%Q
  /\ (10 <= snd (resizeDimensions config rs clientX clientY))%Q.
Proof.
  intros Hlock Hsnap Hw Hh. unfold resizeDimensions.
  rewrite Hlock, Hsnap. cbn [andb fst snd].
  split.
  - destruct (handleIncludes (rs_handle rs) "left");
      [apply Math_max_floor|].
    destruct (handleIncludes (rs_handle rs) "right");
      [apply Math_max_floor | exact Hw].
  - destruct (handleIncludes (rs_handle rs) "top");
      [apply Math_max_floor|].
    destruct (handleIncludes (rs_handle rs) "bottom");
      [apply Math_max_floor | exact Hh].
Qed.

(** The aspect-locked example: 100 by 50, right handle dragged by 20. *)
Example resize_aspect_lock_example :
  (fst (resizeDimensions DEFAULT_ENGINE_CONFIG (wideStart HRight true)
          1220 300) == 120)%Q
  /\ (snd (resizeDimensions DEFAULT_ENGINE_CONFIG (wideStart HRight true)
             1220 300) == 60)%Q.
Proof. split; vm_compute; reflexivity. Qed.

(** C6 at its failing input.  With aspect lock, a 100 by 50 element
    whose right handle is dragged 1000 units to the left gets width 10 and
    height 5: the height is derived from the floored width and is not
    floored itself. *)
Theorem resize_floor_lost_under_aspect_lock :
  (fst (resizeDimensions DEFAULT_ENGINE_CONFIG (wideStart HRight true)
          200 300) == 10)%Q
  /\ (snd (resizeDimensions DEFAULT_ENGINE_CONFIG (wideStart HRight true)
             200 300) == 5)%Q
  /\ resizeCommitAction "el_1" DEFAULT_ENGINE_CONFIG (wideStart HRight true)
       200 300
     = RESIZE_ELEMENT "el_1"
         (dimsOf (resizeDimensions DEFAULT_ENGINE_CONFIG
                    (wideStart HRight true) 200 300)) None.
Proof. repeat split; vm_compute; reflexivity. Qed.

(** ** Paths of two segments *)

Lemma split_nonempty (s : string) : Str.split "." s <> [].
Proof.
  destruct s as [|c s]; cbn -[Ascii.eqb]; [discriminate|].
  destruct (Ascii.eqb c "."); [discriminate|].
  destruct (Str.split "." s); discriminate.
Qed.

Lemma split_plain (s : string) :
  Str.hasChar "." s = false -> Str.split "." s = [s].
Proof.
  induction s as [|c s IH]; intros H; [reflexivity|].
  cbn -[Ascii.eqb] in H |- *. apply orb_false_iff in H as [Hc Hs].
  rewrite Ascii.eqb_sym in Hc. rewrite Hc, IH by exact Hs. reflexivity.
Qed.

Lemma split_one (s p : string) :
  Str.split "." s = [p] -> s = p /\ Str.hasChar "." p = false.
Proof.
  revert p. induction s as [|c s IH]; intros p H.
  - injection H as <-. split; reflexivity.
  - cbn -[Ascii.eqb] in H. destruct (Ascii.eqb c ".") eqn:Hc.
    + injection H as _ H. now apply split_nonempty in H.
    + destruct (Str.split "." s) as [|seg segs] eqn:Hs;
        [now apply split_nonempty in Hs|].
      injection H as <- ->. destruct (IH seg eq_refl) as [-> Hseg].
      split; [reflexivity|]. cbn -[Ascii.eqb].
      rewrite Ascii.eqb_sym, Hc. exact Hseg.
Qed.

Lemma split_two (s p0 p1 : string) :
  Str.split "." s = [p0; p1] ->
  s = twoSegmentPath p0 p1 /\ Str.hasChar "." p1 = false.
Proof.
  revert p0. induction s as [|c s IH]; intros p0 H; [discriminate|].
  cbn -[Ascii.eqb] in H. destruct (Ascii.eqb c ".") eqn:Hc.
  - injection H as <- H. apply split_one in H as [-> Hp1].
    apply Ascii.eqb_eq in Hc. subst c. split; [reflexivity | exact Hp1].
  - destruct (Str.split "." s) as [|seg segs] eqn:Hs;
      [now apply split_nonempty in Hs|].
    injection H as <- ->. destruct (IH seg eq_refl) as [-> Hp1].
    split; [reflexivity | exact Hp1].
Qed.

Lemma split_twoSegmentPath (p0 p1 : string) :
  Str.hasChar "." p0 = false ->
  Str.hasChar "." p1 = false ->
  Str.split "." (twoSegmentPath p0 p1) = [p0; p1].
Proof.
  intros H0 H1. induction p0 as [|c p0 IH].
  - unfold twoSegmentPath. simpl. now rewrite split_plain.
  - cbn -[Ascii.eqb] in H0. apply orb_false_iff in H0 as [Hc H0].
    unfold twoSegmentPath in *.
    change (String c p0 +:+ String "." p1)
      with (String c (p0 +:+ String "." p1)).
    cbn -[Ascii.eqb String.append].
    rewrite Ascii.eqb_sym in Hc. rewrite Hc, IH by exact H0. reflexivity.
Qed.

Lemma twoSegmentPath_inj (p0 k k' : string) :
  twoSegmentPath p0 k = twoSegmentPath p0 k' -> k = k'.
Proof.
  unfold twoSegmentPath. induction p0 as [|c p0 IH]; simpl; intros H.
  - now injection H.
  - injection H as H. now apply IH.
Qed.

(** An entry whose path is not [prefix.key] leaves the overrides for
    [prefix] as they are. *)
Lemma override_insert_other (prefix path : string) (value : JSValue)
  (resolved : Bag) (key : string) :
  Str.hasChar "." prefix = false ->
  (forall p1, Str.split "." path <> [prefix; p1]) ->
  override prefix (<[path := value]> resolved) key
  = override prefix resolved key.
Proof.
  intros Hprefix Hpath. unfold override.
  destruct (Str.hasChar "." key) eqn:Hkey; [reflexivity|].
  apply lookup_insert_ne. intros ->.
  apply (Hpath key). now apply split_twoSegmentPath.
Qed.

Lemma overridden_insert_other (prefix path : string) (value : JSValue)
  (resolved base : Bag) (key : string) :
  Str.hasChar "." prefix = false ->
  (forall p1, Str.split "." path <> [prefix; p1]) ->
  overridden prefix (<[path := value]> resolved) base key
  = overridden prefix resolved base key.
Proof.
  intros Hprefix Hpath. unfold overridden.
  now rewrite override_insert_other.
Qed.


(** The entry [prefix.p1] sets field [p1] and no other. *)
Lemma overridden_insert_same (prefix p1 : string) (value : JSValue)
  (resolved base bag : Bag) :
  Str.hasChar "." p1 = false ->
  (forall k, bag !! k = overridden prefix resolved base k) ->
  forall k,
    <[p1 := value]> bag !! k
    = overridden prefix (<[twoSegmentPath prefix p1 := value]> resolved)
        base k.
Proof.
  intros Hp1 Hbag k. unfold overridden, override.
  destruct (decide (k = p1)) as [-> | Hk].
  - rewrite Hp1, !lookup_insert_eq. reflexivity.
  - rewrite lookup_insert_ne by congruence. rewrite Hbag.
    unfold overridden, override.
    destruct (Str.hasChar "." k); [reflexivity|].
    rewrite lookup_insert_ne; [reflexivity|].
    intros Heq. apply twoSegmentPath_inj in Heq. congruence.
Qed.

(** ** Properties of [applyBindingsToElement] *)

Lemma resolveBinding_total (transforms : Registry) (binding : DataBinding)
  (data : DataContext) : is_Some (resolveBinding transforms binding data).
Proof.
  destruct (resolveBinding_steps transforms binding data) as (raw & _ & ->).
  eexists; reflexivity.
Qed.

(** [resolveElementBindings] resolves every binding of the element under
    its own path; the path [__proto__] gives no entry but sets the
    prototype. *)
Lemma resolveElementBindings_lookup {R} (transforms : Registry)
  (element : ElementOf R) (data : DataContext) :
  exists resolved,
    resolveElementBindings transforms element data = Some resolved
    /\ (forall path,
          ownProps resolved !! path
          = if String.eqb path "__proto__" then None
            else default ∅ (bindings element) !! path
                 ≫= fun binding => resolveBinding transforms binding data)
    /\ prototype resolved
       = match default ∅ (bindings element) !! "__proto__"
               ≫= fun binding => resolveBinding transforms binding data
         with
         | Some v => setPrototype ObjectPrototype v
         | None => ObjectPrototype
         end.
Proof.
  unfold resolveElementBindings.
  destruct (bindings element) as [bs|]; simpl.
  - apply (map_fold_weak_ind
             (fun (r : option JSObject) (m : gmap string DataBinding) =>
                exists resolved,
                  r = Some resolved
                  /\ (forall path,
                        ownProps resolved !! path
                        = if String.eqb path "__proto__" then None
                          else m !! path
                               ≫= fun binding =>
                                    resolveBinding transforms binding data)
                  /\ prototype resolved
                     = match m !! "__proto__"
                             ≫= fun binding =>
                                  resolveBinding transforms binding data
                       with
                       | Some v => setPrototype ObjectPrototype v
                       | None => ObjectPrototype
                       end)).
    + exists emptyObject. split; [reflexivity|]. split.
      * intros path. cbn [emptyObject ownProps].
        rewrite !lookup_empty. now destruct (String.eqb path "__proto__").
      * now rewrite lookup_empty.
    + intros path binding m r Hnone (resolved & -> & Hown & Hproto).
      destruct (resolveBinding_total transforms binding data) as [v Hv].
      rewrite Hv. eexists. split; [reflexivity|]. unfold assign.
      destruct (String.eqb_spec path "__proto__") as [-> | Hpath].
      * rewrite Hnone in Hproto. cbn [mbind option_bind] in Hproto.
        rewrite Hproto.
        pose proof (Hown "__proto__") as Hnow. cbn in Hnow. rewrite Hnow.
        rewrite bool_decide_eq_true_2 by reflexivity.
        cbn [andb inheritsProtoAccessor ownProps prototype]. split.
        -- intros path'.
           destruct (String.eqb_spec path' "__proto__") as [-> | Hne].
           ++ exact Hnow.
           ++ rewrite lookup_insert_ne by congruence.
              rewrite Hown.
              now destruct (String.eqb_spec path' "__proto__").
        -- rewrite lookup_insert_eq. cbn [mbind option_bind]. now rewrite Hv.
      * cbn [andb ownProps prototype]. split.
        -- intros path'. destruct (decide (path = path')) as [<- | Hne].
           ++ rewrite !lookup_insert_eq.
              destruct (String.eqb_spec path "__proto__");
                [contradiction|].
              cbn [mbind option_bind]. now rewrite Hv.
           ++ rewrite !lookup_insert_ne by exact Hne. apply Hown.
        -- rewrite lookup_insert_ne by exact Hpath. exact Hproto.
  - exists emptyObject. split; [reflexivity|]. split.
    + intros path. cbn [emptyObject ownProps].
      rewrite !lookup_empty. now destruct (String.eqb path "__proto__").
    + now rewrite lookup_empty.
Qed.

Lemma alloc_fresh (o : Obj) (h : Heap) : h !! (alloc o h).1 = None.
Proof. simpl. apply not_elem_of_dom, is_fresh. Qed.

Lemma alloc_store (o : Obj) (h : Heap) :
  (alloc o h).2 = <[(alloc o h).1 := o]> h.
Proof. reflexivity. Qed.

Lemma reachesSetter_key (base : Bag) (key : string) :
  reachesSetter base key = true ->
  key = "__proto__" /\ base !! "__proto__" = None.
Proof.
  unfold reachesSetter. intros H. apply andb_prop in H as [Hk Hb].
  apply String.eqb_eq in Hk. subst key.
  apply bool_decide_eq_true_1 in Hb. split; [reflexivity | exact Hb].
Qed.

Lemma reachesSetter_other (base : Bag) (key : string) :
  key <> "__proto__" -> reachesSetter base key = false.
Proof.
  intros Hk. unfold reachesSetter.
  now destruct (String.eqb_spec key "__proto__").
Qed.

(** An entry whose path is not [props.<key>] leaves the copy of [props]
    and its prototype as they are. *)
Lemma assignedProps_insert_other (path : string) (value : JSValue)
  (resolved base : Bag) :
  (forall p1, Str.split "." path <> ["props"; p1]) ->
  (forall k, assignedProps (<[path := value]> resolved) base k
             = assignedProps resolved base k)
  /\ assignedPrototype (<[path := value]> resolved) base
     = assignedPrototype resolved base.
Proof.
  intros Hpath. unfold assignedProps, assignedPrototype. split.
  - intros k. now rewrite overridden_insert_other by (reflexivity || exact Hpath).
  - now rewrite override_insert_other by (reflexivity || exact Hpath).
Qed.

(** An entry that is neither [props.<key>] nor [style.<key>] changes
    nothing. *)
Lemma loopInvariant_skip (h : Heap) (e : ElementOf loc)
  (props0 style0 : Bag) (st : loc * Heap) (done : Bag) (path : string)
  (value : JSValue) :
  (forall p1, Str.split "." path <> ["props"; p1]) ->
  (forall p1, Str.split "." path <> ["style"; p1]) ->
  loopInvariant h e props0 style0 st done ->
  loopInvariant h e props0 style0 st (<[path := value]> done).
Proof.
  intros Hp Hs (Hframe & Hfresh & u & po & so & Hcell & Hplain & Hpo
                & Hpfresh & Hso & Hne & Hprops & Hproto & Hstyle).
  destruct (assignedProps_insert_other path value done props0 Hp)
    as [Hsame Hsamep].
  split; [exact Hframe|]. split; [exact Hfresh|].
  exists u, po, so. repeat (split; [assumption|]). split; [|split].
  - intros k. rewrite Hsame. apply Hprops.
  - now rewrite Hsamep.
  - intros k. rewrite overridden_insert_other by (reflexivity || exact Hs).
    apply Hstyle.
Qed.

(** The assignment [updated.props[p1] = value] for an entry [props.p1]
    that has not been met before. *)
Lemma assign_props (p1 : string) (value : JSValue) (done props0 : Bag)
  (po : JSObject) :
  Str.hasChar "." p1 = false ->
  done !! twoSegmentPath "props" p1 = None ->
  (forall k, ownProps po !! k = assignedProps done props0 k) ->
  prototype po = assignedPrototype done props0 ->
  (forall k,
     ownProps (assign p1 value po) !! k
     = assignedProps (<[twoSegmentPath "props" p1 := value]> done) props0 k)
  /\ prototype (assign p1 value po)
     = assignedPrototype (<[twoSegmentPath "props" p1 := value]> done)
         props0.
Proof.
  intros Hp1 Hnew Hown Hproto.
  assert (Hover : forall k,
             k <> p1 ->
             overridden "props" (<[twoSegmentPath "props" p1 := value]> done)
               props0 k
             = overridden "props" done props0 k).
  { intros k Hk. unfold overridden, override.
    destruct (Str.hasChar "." k); [reflexivity|].
    rewrite lookup_insert_ne; [reflexivity|].
    intros Heq. apply twoSegmentPath_inj in Heq. congruence. }
  assert (Hhere : overridden "props"
                    (<[twoSegmentPath "props" p1 := value]> done) props0 p1
                  = Some value).
  { unfold overridden, override. now rewrite Hp1, lookup_insert_eq. }
  assert (Hbefore : override "props" done p1 = None).
  { unfold override. now rewrite Hp1. }
  unfold assign.
  destruct (String.eqb_spec p1 "__proto__") as [-> | Hkey].
  - destruct (props0 !! "__proto__") as [w|] eqn:Hbase.
    + (* an own property of the copy: overwritten *)
      assert (Hno : reachesSetter props0 "__proto__" = false).
      { unfold reachesSetter. rewrite Hbase.
        now rewrite bool_decide_eq_false_2 by discriminate. }
      pose proof (Hown "__proto__") as Hnow.
      unfold assignedProps, overridden in Hnow.
      rewrite Hno, Hbefore, Hbase in Hnow. rewrite Hnow.
      rewrite bool_decide_eq_false_2 by discriminate.
      cbn [andb ownProps prototype]. split.
      * intros k. unfold assignedProps.
        destruct (decide (k = "__proto__")) as [-> | Hk].
        -- now rewrite Hno, lookup_insert_eq, Hhere.
        -- rewrite lookup_insert_ne by congruence.
           rewrite Hown. unfold assignedProps.
           rewrite (reachesSetter_other props0 k Hk).
           now rewrite Hover.
      * rewrite Hproto. unfold assignedPrototype. now rewrite Hno.
    + (* the setter *)
      assert (Hyes : reachesSetter props0 "__proto__" = true).
      { unfold reachesSetter. rewrite Hbase.
        now rewrite bool_decide_eq_true_2 by reflexivity. }
      pose proof (Hown "__proto__") as Hnow.
      unfold assignedProps in Hnow. rewrite Hyes in Hnow. rewrite Hnow.
      assert (Hpp : prototype po = ObjectPrototype).
      { rewrite Hproto. unfold assignedPrototype.
        now rewrite Hyes, Hbefore. }
      rewrite Hpp.
      rewrite bool_decide_eq_true_2 by reflexivity.
      cbn [andb inheritsProtoAccessor ownProps prototype]. split.
      * intros k. unfold assignedProps.
        destruct (decide (k = "__proto__")) as [-> | Hk].
        -- now rewrite Hyes.
        -- rewrite Hown. unfold assignedProps.
           rewrite (reachesSetter_other props0 k Hk).
           now rewrite Hover.
      * unfold assignedPrototype. rewrite Hyes. unfold override.
        cbn [Str.hasChar]. now rewrite lookup_insert_eq.
  - cbn [andb ownProps prototype]. split.
    + intros k. unfold assignedProps.
      destruct (decide (k = p1)) as [-> | Hk].
      * rewrite (reachesSetter_other props0 p1 Hkey).
        now rewrite lookup_insert_eq, Hhere.
      * rewrite lookup_insert_ne by congruence.
        rewrite Hown. unfold assignedProps.
        destruct (reachesSetter props0 k); [reflexivity|].
        now rewrite Hover.
    + rewrite Hproto. unfold assignedPrototype.
      destruct (reachesSetter props0 "__proto__"); [|reflexivity].
      unfold override. cbn [Str.hasChar].
      rewrite lookup_insert_ne; [reflexivity|].
      intros Heq. apply twoSegmentPath_inj in Heq. congruence.
Qed.

(** One turn of the loop keeps the invariant. *)
Lemma applyEntry_invariant (h : Heap) (e : ElementOf loc)
  (props0 style0 : Bag) (st : loc * Heap) (done : Bag) (path : string)
  (value : JSValue) :
  done !! path = None ->
  loopInvariant h e props0 style0 st done ->
  loopInvariant h e props0 style0 (applyEntry path value st)
    (<[path := value]> done).
Proof.
  intros Hnew Hinv.
  pose proof Hinv as (Hframe & Hfresh & u & po & so & Hcell & Hplain & Hpo
                      & Hpfresh & Hso & Hne & Hprops & Hproto & Hstyle).
  destruct st as [ul hh]. cbn [fst snd] in *.
  unfold applyEntry. rewrite Hcell.
  destruct (Str.split "." path) as [|p0 [|p1 [|p2 rest]]] eqn:Hsplit;
    try (apply loopInvariant_skip; [intros q; congruence ..| exact Hinv]).
  destruct (String.eqb_spec p0 "props") as [-> | Hnp].
  - (* updated.props[p1] = value *)
    apply split_two in Hsplit as [-> Hp1].
    assert (Hul : ul <> props u) by (intros ->; congruence).
    destruct (assign_props p1 value done props0 po Hp1 Hnew Hprops Hproto)
      as [Hprops' Hproto'].
    unfold writeProp. rewrite Hpo.
    split; [|split]; cbn [fst snd].
    + intros a o Ha. rewrite lookup_insert_ne by congruence. now apply Hframe.
    + exact Hfresh.
    + exists u, (assign p1 value po), so.
      split; [now rewrite lookup_insert_ne by congruence|].
      split; [exact Hplain|].
      split; [now rewrite lookup_insert_eq|].
      split; [exact Hpfresh|].
      split; [now rewrite lookup_insert_ne by congruence|].
      split; [exact Hne|].
      split; [exact Hprops'|]. split; [exact Hproto'|].
      intros k. rewrite overridden_insert_other; [apply Hstyle | reflexivity|].
      intros q Hq. rewrite split_twoSegmentPath in Hq by (reflexivity || exact Hp1).
      discriminate.
  - destruct (String.eqb_spec p0 "style") as [-> | Hns].
    + (* updated = { ...updated, style: { ...updated.style, [p1]: value } } *)
      apply split_two in Hsplit as [-> Hp1].
      assert (Hnotprops : forall q,
                 Str.split "." (twoSegmentPath "style" p1) <> ["props"; q]).
      { intros q Hq.
        rewrite split_twoSegmentPath in Hq by (reflexivity || exact Hp1).
        discriminate. }
      destruct (assignedProps_insert_other (twoSegmentPath "style" p1) value
                  done props0 Hnotprops) as [Hsame Hsamep].
      unfold readBag. rewrite Hso.
      set (bag := literal (<[p1 := value]> (ownProps so))).
      pose proof (alloc_fresh bag hh) as Hls.
      destruct (alloc bag hh) as [ls h1] eqn:Ha1.
      pose proof (f_equal snd Ha1) as Hh1. rewrite alloc_store, Ha1 in Hh1.
      cbn [fst snd] in Hls, Hh1. subst h1.
      set (cell := OElement (withStyle u ls)).
      pose proof (alloc_fresh cell (<[ls := bag]> hh)) as Hlu.
      destruct (alloc cell (<[ls := bag]> hh)) as [lu h2] eqn:Ha2.
      pose proof (f_equal snd Ha2) as Hh2. rewrite alloc_store, Ha2 in Hh2.
      cbn [fst snd] in Hlu, Hh2. subst h2.
      assert (Hlu_ls : lu <> ls).
      { intros ->. rewrite lookup_insert_eq in Hlu. discriminate. }
      rewrite lookup_insert_ne in Hlu by congruence.
      assert (Hframe' : forall a o, h !! a = Some o ->
                <[lu := cell]> (<[ls := bag]> hh) !! a = Some o).
      { intros a o Ha. apply Hframe in Ha.
        rewrite !lookup_insert_ne by congruence. exact Ha. }
      split; [exact Hframe'|]. split; cbn [fst snd].
      * destruct (h !! lu) as [o|] eqn:Ho; [|reflexivity].
        apply Hframe in Ho. congruence.
      * exists (withStyle u ls), po,
          {| ownProps := <[p1 := value]> (ownProps so);
             prototype := ObjectPrototype |}.
        split; [now rewrite lookup_insert_eq|].
        split; [exact Hplain|].
        split; [cbn [props withStyle];
                now rewrite !lookup_insert_ne by congruence|].
        split; [exact Hpfresh|].
        split; [cbn [style withStyle];
                rewrite lookup_insert_ne by congruence;
                now rewrite lookup_insert_eq|].
        split; [cbn [style props withStyle]; congruence|].
        split; [intros k; rewrite Hsame; apply Hprops|].
        split; [now rewrite Hsamep|].
        cbn [ownProps]. now apply overridden_insert_same.
    + apply loopInvariant_skip; [intros q; congruence ..| exact Hinv].
Qed.

Lemma overridden_empty (prefix : string) (base : Bag) (key : string) :
  overridden prefix ∅ base key = base !! key.
Proof.
  unfold overridden, override.
  destruct (Str.hasChar "." key); [reflexivity|].
  now rewrite lookup_empty.
Qed.

(** The state in which the loop starts. *)
Lemma loopInvariant_start (h : Heap) (e : ElementOf loc)
  (props0 style0 : JSObject) :
  h !! props e = Some (OBag props0) ->
  h !! style e = Some (OBag style0) ->
  loopInvariant h e (ownProps props0) (ownProps style0)
    (alloc (OElement (withProps e (alloc (literal (ownProps props0)) h).1))
       (alloc (literal (ownProps props0)) h).2) ∅.
Proof.
  intros Hprops Hstyle.
  set (bag := literal (ownProps props0)).
  pose proof (alloc_fresh bag h) as Hlp.
  destruct (alloc bag h) as [lp h1] eqn:Ha1.
  pose proof (f_equal snd Ha1) as Hh1. rewrite alloc_store, Ha1 in Hh1.
  cbn [fst snd] in *. subst h1.
  set (cell := OElement (withProps e lp)).
  pose proof (alloc_fresh cell (<[lp := bag]> h)) as Hlu.
  destruct (alloc cell (<[lp := bag]> h)) as [lu h2] eqn:Ha2.
  pose proof (f_equal snd Ha2) as Hh2. rewrite alloc_store, Ha2 in Hh2.
  cbn [fst snd] in *. subst h2.
  assert (Hlu_lp : lu <> lp).
  { intros ->. rewrite lookup_insert_eq in Hlu. discriminate. }
  rewrite lookup_insert_ne in Hlu by congruence.
  split; [|split]; cbn [fst snd].
  - intros a o Ha. rewrite !lookup_insert_ne by congruence. exact Ha.
  - exact Hlu.
  - exists (withProps e lp),
      {| ownProps := ownProps props0; prototype := ObjectPrototype |},
      style0.
    split; [now rewrite lookup_insert_eq|].
    split; [reflexivity|].
    split; [cbn [props withProps]; rewrite lookup_insert_ne by congruence;
            now rewrite lookup_insert_eq|].
    split; [exact Hlp|].
    split; [cbn [style withProps];
            now rewrite !lookup_insert_ne by congruence|].
    split; [cbn [style props withProps]; congruence|].
    split; [|split].
    + intros k. cbn [ownProps]. unfold assignedProps.
      rewrite overridden_empty.
      destruct (reachesSetter (ownProps props0) k) eqn:Hk; [|reflexivity].
      apply reachesSetter_key in Hk as [-> Hk]. exact Hk.
    + cbn [prototype]. unfold assignedPrototype, override.
      cbn [Str.hasChar]. rewrite lookup_empty.
      now destruct (reachesSetter (ownProps props0) "__proto__").
    + intros k. now rewrite overridden_empty.
Qed.

(** C7, as amended.  [applyBindingsToElement] changes no object of the
    store it is called in, so its argument and the objects nested in it
    are as before.  For an element without bindings it returns the
    argument itself.  Otherwise it returns a new element, equal to the
    argument outside [props] and [style], in which a field of [props]
    ([style]) holds the resolved value of the entry with the two-segment
    path [props.<key>] ([style.<key>]) when there is one, and the
    argument's value otherwise; entries with paths of any other shape do
    not enter the result.  One key is apart: when the argument's [props]
    has no own property [__proto__], the entry [props.__proto__] is
    assigned through the setter of that name, so that the new [props] has
    no such field either and takes the resolved value, if it is an object
    or [null], as its prototype. *)
Theorem applyBindings_preserves_input :
  forall (transforms : Registry) (h : Heap) (l : loc) (e : ElementOf loc)
         (props0 style0 : JSObject) (data : DataContext),
    h !! l = Some (OElement e) ->
    h !! props e = Some (OBag props0) ->
    h !! style e = Some (OBag style0) ->
    exists (l' : loc) (h' : Heap) (resolved : JSObject),
      applyBindingsToElement transforms l data h = Some (l', h')
      /\ resolveElementBindings transforms e data = Some resolved
      /\ (forall a o, h !! a = Some o -> h' !! a = Some o)
      /\ snapshot h' l = snapshot h l
      /\ (noBindings e = true -> l' = l /\ h' = h)
      /\ (noBindings e = false ->
          h !! l' = None
          /\ exists result : TemplateElement,
               snapshot h' l' = Some result
               /\ plainFields result = plainFields e
               /\ (forall k,
                     reachesSetter (ownProps props0) k = false ->
                     props result !! k
                     = overridden "props" (ownProps resolved)
                         (ownProps props0) k)
               /\ (reachesSetter (ownProps props0) "__proto__" = true ->
                   props result !! "__proto__" = None)
               /\ propsPrototype h' l'
                  = Some (assignedPrototype (ownProps resolved)
                            (ownProps props0))
               /\ (forall k, style result !! k
                             = overridden "style" (ownProps resolved)
                                 (ownProps style0) k)).
Proof.
  intros transforms h l e props0 style0 data Hl Hprops Hstyle.
  destruct (resolveElementBindings_lookup transforms e data)
    as (resolved & Hres & _).
  unfold applyBindingsToElement. rewrite Hl.
  destruct (noBindings e) eqn:Hnb.
  - exists l, h, resolved.
    split; [reflexivity|]. split; [exact Hres|]. split; [auto|].
    split; [reflexivity|]. split; [auto|]. intros; discriminate.
  - rewrite Hres.
    assert (Hbag : readBag h (props e) = ownProps props0)
      by (unfold readBag; now rewrite Hprops).
    rewrite Hbag.
    pose proof (loopInvariant_start h e props0 style0 Hprops Hstyle) as Hstart.
    destruct (alloc (literal (ownProps props0)) h) as [lp h1].
    cbn [fst snd] in Hstart.
    destruct (alloc (OElement (withProps e lp)) h1) as [lu h2].
    pose proof (map_fold_weak_ind
                  (loopInvariant h e (ownProps props0) (ownProps style0))
                  applyEntry (lu, h2) Hstart
                  (fun path value m st Hnew Hinv =>
                     applyEntry_invariant h e (ownProps props0)
                       (ownProps style0) st m path value Hnew Hinv)
                  (ownProps resolved)) as Hend.
    destruct (map_fold applyEntry (lu, h2) (ownProps resolved)) as [l' h'].
    destruct Hend as (Hframe & Hfresh & u & po & so & Hcell & Hplain & Hpo
                      & Hpfresh & Hso & Hne & Hp & Hproto & Hs).
    cbn [fst snd] in *.
    exists l', h', resolved.
    split; [reflexivity|]. split; [reflexivity|]. split; [exact Hframe|].
    split.
    { unfold snapshot, readBag.
      now rewrite (Hframe _ _ Hl), (Hframe _ _ Hprops), (Hframe _ _ Hstyle),
        Hl, Hprops, Hstyle. }
    split; [intros; discriminate|].
    intros _. split; [exact Hfresh|].
    exists (reseat u (ownProps so) (ownProps po)).
    unfold snapshot, propsPrototype, readBag.
    rewrite Hcell, Hpo, Hso.
    split; [reflexivity|]. split; [exact Hplain|].
    split; [|split; [|split; [|exact Hs]]].
    + intros k Hk. cbn [props reseat]. rewrite Hp.
      unfold assignedProps. now rewrite Hk.
    + intros Hk. cbn [props reseat]. rewrite Hp.
      unfold assignedProps. now rewrite Hk.
    + now rewrite Hproto.
Qed.

Lemma applyBindings_preserves_input_witness :
  exists (l' : loc) (h' : Heap),
    applyBindingsToElement ∅ 1%positive dollarData
      (sampleStore (Some sampleBindings)) = Some (l', h')
    /\ snapshot h' 1%positive
       = snapshot (sampleStore (Some sampleBindings)) 1%positive.
Proof.
  destruct (applyBindings_preserves_input ∅
              (sampleStore (Some sampleBindings)) 1%positive
              (storedElement (Some sampleBindings))
              {| ownProps := {[ "content" := VStr "Hello" ]};
                 prototype := ObjectPrototype |}
              {| ownProps := {[ "color" := VStr "#000000" ]};
                 prototype := ObjectPrototype |} dollarData
              eq_refl eq_refl eq_refl)
    as (l' & h' & resolved & Happly & _ & _ & Hsnap & _).
  exists l', h'. split; [exact Happly | exact Hsnap].
Defined.

(** C7 as stated fails: for an element without bindings the returned
    reference is the argument, an object of the store before the call. *)
Lemma applyBindings_returns_argument :
  applyBindingsToElement ∅ 1%positive dollarData (sampleStore None)
  = Some (1%positive, sampleStore None)
  /\ sampleStore None !! 1%positive = Some (OElement (storedElement None)).
Proof. split; vm_compute; reflexivity. Qed.

(** The bound sample element after the call. *)
Example applyBindings_sample :
  (applyBindingsToElement ∅ 1%positive dollarData
     (sampleStore (Some sampleBindings))
   ≫= fun r => snapshot r.2 r.1)
  = Some (reseat (storedElement (Some sampleBindings))
            {[ "color" := VStr "#112233" ]}
            {[ "content" := VStr "Name: Ca$h" ]}).
Proof. vm_compute; reflexivity. Qed.

(** The entry [props.__proto__] on the sample element: the new [props]
    has no field of that name and the resolved object as its
    prototype. *)
Example applyBindings_proto_sample :
  (applyBindingsToElement ∅ 1%positive themeData
     (sampleStore (Some protoBindings))
   ≫= fun r => props <$> snapshot r.2 r.1)
  = Some {[ "content" := VStr "Name: Ann" ]}
  /\ (applyBindingsToElement ∅ 1%positive themeData
        (sampleStore (Some protoBindings))
      ≫= fun r => propsPrototype r.2 r.1)
     = Some (ProtoOf (VObj {[ "content" := VStr "inherited" ]})).
Proof. split; vm_compute; reflexivity. Qed.

(** ** Further properties of the layer manager *)

Lemma buildLayerMap_absent (layers : list Layer) (k : string) :
  forall m : gmap string Layer,
    ~ In k (map layer_id layers) ->
    foldl (fun m layer => <[layer_id layer := layer]> m) m layers !! k
    = m !! k.
Proof.
  induction layers as [|l layers IH]; intros m Hk; simpl; [reflexivity|].
  simpl in Hk. rewrite IH by tauto.
  apply lookup_insert_ne. tauto.
Qed.

(** With pairwise distinct layer ids, the lookup table of
    [getOrderedElements] and the [find] of [isElementLocked] and
    [getEffectiveOpacity] resolve every id to the same layer. *)
Theorem layer_lookups_agree :
  forall (layers : list Layer) (k : string),
    List.NoDup (map layer_id layers) ->
    buildLayerMap layers !! k = findLayer layers k.
Proof.
  intros layers k. unfold buildLayerMap, findLayer.
  assert (Hgen : forall m : gmap string Layer,
             List.NoDup (map layer_id layers) ->
             foldl (fun m layer => <[layer_id layer := layer]> m) m layers !! k
             = match List.find (fun l => String.eqb (layer_id l) k) layers
               with
               | Some l => Some l
               | None => m !! k
               end).
  { induction layers as [|l layers IH]; intros m Hnd; simpl; [reflexivity|].
    inversion Hnd as [|? ? Hnotin Hnd']; subst.
    destruct (String.eqb_spec (layer_id l) k) as [<- | Hne].
    - rewrite buildLayerMap_absent by exact Hnotin.
      apply lookup_insert_eq.
    - rewrite IH by exact Hnd'.
      destruct (List.find _ layers); [reflexivity|].
      now apply lookup_insert_ne. }
  intros Hnd. rewrite (Hgen ∅ Hnd).
  destruct (List.find _ layers); [reflexivity | apply lookup_empty].
Qed.

Lemma layer_lookups_agree_witness :
  buildLayerMap [backLayer; frontLayer] !! "front"
  = findLayer [backLayer; frontLayer] "front".
Proof.
  apply layer_lookups_agree. simpl.
  repeat constructor; simpl; intuition discriminate.
Defined.

Lemma foldl_max_bounds (zs : list Z) :
  forall init : Z,
    init <= foldl Z.max init zs
    /\ forall z, In z zs -> z <= foldl Z.max init zs.
Proof.
  induction zs as [|z0 zs IH]; intros init; simpl.
  - split; [lia | tauto].
  - destruct (IH (Z.max init z0)) as [Hinit Hall]. split; [lia|].
    intros z [<- | Hz]; [lia | now apply Hall].
Qed.

Lemma getNextZIndex_unfold (elements : list TemplateElement) (lid : string) :
  getNextZIndex elements lid
  = foldl Z.max (-1)
      (map zIndex
         (List.filter (fun el => String.eqb (layerId el) lid) elements)) + 1.
Proof.
  unfold getNextZIndex. f_equal.
  generalize (-1). 
  induction (List.filter (fun el => String.eqb (layerId el) lid) elements)
    as [|x l IH]; intros init; simpl; [reflexivity | apply IH].
Qed.

Lemma filter_layer_none (elements : list TemplateElement) (lid : string) :
  (forall el, In el elements -> layerId el <> lid) ->
  List.filter (fun el => String.eqb (layerId el) lid) elements = [].
Proof.
  induction elements as [|x l IH]; intros Hnone; simpl; [reflexivity|].
  destruct (String.eqb_spec (layerId x) lid) as [Heq | _].
  - exfalso. apply (Hnone x); [now left | exact Heq].
  - apply IH. intros el Hel. apply Hnone. now right.
Qed.

(** [getNextZIndex] is never negative, is [0] for a layer without
    elements, and lies strictly above the z-index of every element of the
    layer: an element given that z-index on the layer has a larger
    composite paint key than every element already there. *)
Theorem getNextZIndex_on_top :
  forall (elements : list TemplateElement) (lid : string),
    0 <= getNextZIndex elements lid
    /\ ((forall el, In el elements -> layerId el <> lid) ->
        getNextZIndex elements lid = 0)
    /\ (forall el, In el elements -> layerId el = lid ->
        zIndex el < getNextZIndex elements lid)
    /\ (forall (layers : list Layer) (el new : TemplateElement),
          In el elements -> layerId el = lid -> layerId new = lid ->
          zIndex new = getNextZIndex elements lid ->
          compositeKey (buildLayerMap layers) el
          < compositeKey (buildLayerMap layers) new).
Proof.
  intros elements lid. rewrite getNextZIndex_unfold.
  set (zs := map zIndex
               (List.filter (fun el => String.eqb (layerId el) lid) elements)).
  destruct (foldl_max_bounds zs (-1)) as [Hinit Hall].
  assert (Hin : forall el, In el elements -> layerId el = lid ->
                  zIndex el < foldl Z.max (-1) zs + 1).
  { intros el Hel Hlid.
    assert (In (zIndex el) zs).
    { unfold zs. apply in_map. apply filter_In. split; [exact Hel|].
      now apply String.eqb_eq. }
    specialize (Hall _ H). lia. }
  split; [lia|]. split; [|split].
  - intros Hnone. unfold zs.
    rewrite (filter_layer_none elements lid Hnone). reflexivity.
  - exact Hin.
  - intros layers el new Hel Hlid Hnew Hz.
    specialize (Hin el Hel Hlid).
    unfold compositeKey. rewrite Hlid, Hnew, Hz. lia.
Qed.

Lemma getNextZIndex_on_top_witness :
  zIndex (sampleElement "a" "back" 7)
  < getNextZIndex
      [sampleElement "a" "back" 7; sampleElement "b" "front" 40] "back".
Proof.
  apply (getNextZIndex_on_top
           [sampleElement "a" "back" 7; sampleElement "b" "front" 40] "back");
    [left; reflexivity | reflexivity].
Defined.

(** The effective opacity of an element lies between [0] and the
    element's own opacity when all opacities lie in [[0, 1]]; an element
    whose layer is not found keeps its own opacity. *)
Theorem getEffectiveOpacity_bounds :
  forall (element : TemplateElement) (layers : list Layer),
    (findLayer layers (layerId element) = None ->
     (getEffectiveOpacity element layers == opacity element)%Q)
    /\ ((forall l, In l layers ->
           (0 <= layer_opacity l)%Q /\ (layer_opacity l <= 1)%Q) ->
        (0 <= opacity element)%Q ->
        (0 <= getEffectiveOpacity element layers)%Q
        /\ (getEffectiveOpacity element layers <= opacity element)%Q).
Proof.
  intros element layers. unfold getEffectiveOpacity. split.
  - intros ->. ring.
  - intros Hlayers Hel.
    destruct (findLayer layers (layerId element)) as [l|] eqn:Hfind.
    + apply find_some in Hfind as [Hin _].
      destruct (Hlayers l Hin) as [H0 H1]. split; [nra | nra].
    + split; [nra | nra].
Qed.

Lemma getEffectiveOpacity_bounds_witness :
  (getEffectiveOpacity (sampleElement "a" "back" 0) [backLayer; frontLayer]
   <= opacity (sampleElement "a" "back" 0))%Q.
Proof.
  apply (getEffectiveOpacity_bounds (sampleElement "a" "back" 0)
           [backLayer; frontLayer]).
  - intros l [<- | [<- | []]]; split; simpl; lra.
  - simpl; lra.
Defined.

Section InsertionOrderedMap.

Context {V : Type}.

Lemma mapGet_mapSet_eq (k : string) (v : V) (m : list (string * V)) :
  mapGet k (mapSet k v m) = Some v.
Proof.
  induction m as [|[k' w] m IH]; simpl.
  - now rewrite String.eqb_refl.
  - destruct (String.eqb_spec k' k) as [-> | Hne]; simpl.
    + now rewrite String.eqb_refl.
    + destruct (String.eqb_spec k' k); [contradiction | exact IH].
Qed.

Lemma mapGet_mapSet_ne (k k' : string) (v : V) (m : list (string * V)) :
  k <> k' -> mapGet k' (mapSet k v m) = mapGet k' m.
Proof.
  intros Hne. induction m as [|[k0 w] m IH]; simpl.
  - destruct (String.eqb_spec k k'); [contradiction | reflexivity].
  - destruct (String.eqb_spec k0 k) as [-> | Hk0]; simpl.
    + destruct (String.eqb_spec k k'); [contradiction | reflexivity].
    + destruct (String.eqb_spec k0 k'); [reflexivity | exact IH].
Qed.

Lemma mapGet_mapPush (k k' : string) (v : V) (m : list (string * list V)) :
  mapGet k (mapPush k' v m)
  = if String.eqb k' k then (fun g => g ++ [v]) <$> mapGet k m
    else mapGet k m.
Proof.
  induction m as [|[k0 w] m IH]; simpl.
  - now destruct (String.eqb k' k).
  - destruct (String.eqb_spec k0 k') as [-> | Hk0]; simpl.
    + destruct (String.eqb_spec k' k); reflexivity.
    + destruct (String.eqb_spec k0 k) as [-> | Hk]; simpl.
      * destruct (String.eqb_spec k' k); [congruence | reflexivity].
      * exact IH.
Qed.

Lemma mapGet_map (f : V -> V) (k : string) (m : list (string * V)) :
  mapGet k (map (fun entry => (entry.1, f entry.2)) m) = f <$> mapGet k m.
Proof.
  induction m as [|[k0 w] m IH]; simpl; [reflexivity|].
  destruct (String.eqb k0 k); [reflexivity | exact IH].
Qed.

End InsertionOrderedMap.

Lemma groups_initialised (layers : list Layer) (k : string) :
  forall groups : list (string * list TemplateElement),
    mapGet k (foldl (fun groups layer => mapSet (layer_id layer) [] groups)
                groups layers)
    = if bool_decide (k ∈ map layer_id layers) then Some []
      else mapGet k groups.
Proof.
  induction layers as [|l layers IH]; intros groups; simpl.
  - reflexivity.
  - rewrite IH. destruct (decide (k ∈ map layer_id layers)) as [Hin | Hnot].
    + rewrite !bool_decide_eq_true_2 by (try right; exact Hin). reflexivity.
    + rewrite (bool_decide_eq_false_2 _ Hnot).
      destruct (decide (layer_id l = k)) as [<- | Hne].
      * rewrite bool_decide_eq_true_2 by left. apply mapGet_mapSet_eq.
      * rewrite bool_decide_eq_false_2.
        -- now apply mapGet_mapSet_ne.
        -- intros Hk. apply elem_of_cons in Hk as [Hk | Hk];
             [congruence | contradiction].
Qed.

Lemma groups_filled (elements : list TemplateElement) (k : string) :
  forall groups : list (string * list TemplateElement),
    mapGet k (foldl (fun groups el => mapPush (layerId el) el groups)
                groups elements)
    = (fun g => g ++ List.filter (fun el => String.eqb (layerId el) k)
                       elements)
      <$> mapGet k groups.
Proof.
  induction elements as [|el elements IH]; intros groups; simpl.
  - destruct (mapGet k groups); simpl; [now rewrite app_nil_r | reflexivity].
  - rewrite IH, mapGet_mapPush.
    destruct (String.eqb (layerId el) k);
      destruct (mapGet k groups); simpl; try reflexivity.
    now rewrite <- app_assoc.
Qed.

Lemma groupByLayer_lookup (elements : list TemplateElement)
  (layers : list Layer) (k : string) :
  mapGet k (groupByLayer elements layers)
  = if bool_decide (k ∈ map layer_id layers)
    then Some (sortBy compareZIndex
                 (List.filter (fun el => String.eqb (layerId el) k) elements))
    else None.
Proof.
  unfold groupByLayer. rewrite mapGet_map, groups_filled, groups_initialised.
  assert (Hperm : map layer_id (sortBy compareOrder layers)
                  ≡ₚ map layer_id layers).
  { apply Permutation_map. apply (sortBy_perm layer_order). }
  destruct (decide (k ∈ map layer_id layers)) as [Hin | Hnot].
  - rewrite !bool_decide_eq_true_2; [reflexivity | exact Hin |].
    now rewrite Hperm.
  - rewrite !bool_decide_eq_false_2; [reflexivity | exact Hnot |].
    now rewrite Hperm.
Qed.

(** [groupByLayer] holds one group for every layer id.  The group of a
    layer is a rearrangement of exactly the elements that name that layer,
    in ascending z-index; an element that names no layer is in no group. *)
Theorem groupByLayer_groups :
  forall (elements : list TemplateElement) (layers : list Layer)
         (k : string),
    (k ∈ map layer_id layers ->
     exists g,
       mapGet k (groupByLayer elements layers) = Some g
       /\ g ≡ₚ List.filter (fun el => String.eqb (layerId el) k) elements
       /\ StronglySorted (ascendingBy zIndex) g)
    /\ (k ∉ map layer_id layers ->
        mapGet k (groupByLayer elements layers) = None)
    /\ (forall g el,
          mapGet k (groupByLayer elements layers) = Some g ->
          In el g -> In el elements /\ layerId el = k).
Proof.
  intros elements layers k. rewrite groupByLayer_lookup.
  split; [|split].
  - intros Hin. rewrite bool_decide_eq_true_2 by exact Hin.
    eexists. split; [reflexivity|]. split.
    + apply (sortBy_perm zIndex).
    + apply (sortBy_sorted zIndex).
  - intros Hnot. now rewrite bool_decide_eq_false_2.
  - intros g el Hg Hel.
    destruct (bool_decide (k ∈ map layer_id layers)); [|discriminate].
    injection Hg as <-.
    assert (Hf : In el (List.filter
                          (fun el => String.eqb (layerId el) k) elements)).
    { eapply Permutation_in; [apply (sortBy_perm zIndex) | exact Hel]. }
    apply filter_In in Hf as [Hin Heq]. split; [exact Hin|].
    now apply String.eqb_eq.
Qed.

Lemma groupByLayer_groups_witness :
  mapGet "ghost"
    (groupByLayer [sampleElement "a" "ghost" 1; sampleElement "b" "back" 2]
       [backLayer; frontLayer]) = None.
Proof.
  apply (groupByLayer_groups
           [sampleElement "a" "ghost" 1; sampleElement "b" "back" 2]
           [backLayer; frontLayer] "ghost").
  simpl. intros H. repeat (apply elem_of_cons in H as [H | H];
                           [discriminate|]).
  now apply not_elem_of_nil in H.
Defined.

Lemma filterM_filter {A} (p : A -> option bool) (l : list A) :
  (forall x, is_Some (p x)) ->
  filterM p l = Some (List.filter (fun x => default false (p x)) l).
Proof.
  intros Hp. induction l as [|x l IH]; simpl; [reflexivity|].
  destruct (Hp x) as [keep Hx]. rewrite Hx, IH. simpl.
  now destruct keep.
Qed.

Lemma conditionHolds_total (data : DataContext) (el : TemplateElement) :
  is_Some (conditionHolds data el).
Proof.
  unfold conditionHolds. destruct (condition el);
    [apply evaluateCondition_total | eexists; reflexivity].
Qed.

Lemma getOrderedElements_unfold (elements : list TemplateElement)
  (layers : list Layer) (data : DataContext) :
  getOrderedElements elements layers data
  = Some (sortBy (compositeCompare (buildLayerMap layers))
            (List.filter (fun el => default false (conditionHolds data el))
               (List.filter visible
                  (List.filter (layerVisible (buildLayerMap layers))
                     elements)))).
Proof.
  unfold getOrderedElements.
  now rewrite (filterM_filter _ _ (conditionHolds_total data)).
Qed.

Lemma filter_twice {A} (p q : A -> bool) (l : list A) :
  List.filter q (List.filter p l) = List.filter (fun x => p x && q x) l.
Proof.
  induction l as [|x l IH]; [reflexivity|].
  cbn [List.filter]. destruct (p x); cbn [List.filter andb];
    [destruct (q x)|]; now rewrite IH.
Qed.

Lemma filter_ext_bool {A} (p q : A -> bool) (l : list A) :
  (forall x, p x = q x) -> List.filter p l = List.filter q l.
Proof.
  intros Hpq. induction l as [|x l IH]; [reflexivity|].
  cbn [List.filter]. now rewrite Hpq, IH.
Qed.

(** The elements that [getOrderedElements] returns are exactly the
    elements of the input that are visible themselves, whose layer is
    visible or unknown, and whose condition, if any, holds: each of them
    as often as it occurs in the input and nothing else, in ascending
    order of the composite key. *)
Theorem getOrderedElements_retains :
  forall (elements : list TemplateElement) (layers : list Layer)
         (data : DataContext),
  exists out,
    getOrderedElements elements layers data = Some out
    /\ out ≡ₚ List.filter (retained layers data) elements
    /\ StronglySorted (ascendingBy (compositeKey (buildLayerMap layers))) out
    /\ forall el,
         In el out
         <-> In el elements
             /\ layerVisible (buildLayerMap layers) el = true
             /\ visible el = true
             /\ conditionHolds data el = Some true.
Proof.
  intros elements layers data. rewrite getOrderedElements_unfold.
  eexists. split; [reflexivity|].
  pose proof (sortBy_perm (compositeKey (buildLayerMap layers))) as Hperm.
  change (compareByKey (compositeKey (buildLayerMap layers)))
    with (compositeCompare (buildLayerMap layers)) in Hperm.
  assert (Hfilter :
            List.filter (fun el => default false (conditionHolds data el))
              (List.filter visible
                 (List.filter (layerVisible (buildLayerMap layers))
                    elements))
            = List.filter (retained layers data) elements).
  { rewrite !filter_twice. apply filter_ext_bool. intros el.
    unfold retained.
    destruct (layerVisible (buildLayerMap layers) el), (visible el),
      (conditionHolds data el) as [[|]|]; reflexivity. }
  split; [|split].
  - rewrite <- Hfilter. apply Hperm.
  - apply (sortBy_sorted (compositeKey (buildLayerMap layers))).
  - intros el. split.
    + intros Hin. eapply Permutation_in in Hin; [|apply Hperm].
      apply filter_In in Hin as [Hin Hc].
      apply filter_In in Hin as [Hin Hv].
      apply filter_In in Hin as [Hin Hl].
      repeat split; try assumption.
      destruct (conditionHolds data el) as [[|]|]; try discriminate.
      reflexivity.
    + intros (Hin & Hl & Hv & Hc).
      eapply Permutation_in; [symmetry; apply Hperm|].
      apply filter_In. split; [|now rewrite Hc].
      apply filter_In. split; [|exact Hv].
      apply filter_In. split; assumption.
Qed.

Lemma getOrderedElements_retains_witness :
  exists out,
    getOrderedElements
      [sampleElement "a" "back" 1; sampleElement "b" "ghost" 2]
      [backLayer] ∅ = Some out
    /\ In (sampleElement "b" "ghost" 2) out.
Proof.
  destruct (getOrderedElements_retains
              [sampleElement "a" "back" 1; sampleElement "b" "ghost" 2]
              [backLayer] ∅) as (out & Hout & _ & _ & Hmem).
  exists out. split; [exact Hout|]. apply Hmem.
  split; [right; left; reflexivity|].
  repeat split; reflexivity.
Defined.

Lemma sortBy_sorted_id {A} (key : A -> Z) (l : list A) :
  StronglySorted (ascendingBy key) l -> sortBy (compareByKey key) l = l.
Proof.
  induction 1 as [|x l Hs IH Hx]; simpl; [reflexivity|].
  rewrite IH. destruct l as [|y l']; [reflexivity|]. simpl.
  inversion Hx as [|? ? Hxy _]; subst.
  unfold compareByKey, ascendingBy in *.
  destruct (Z.leb_spec (key x - key y) 0); [reflexivity | lia].
Qed.

Lemma filter_all {A} (p : A -> bool) (l : list A) :
  (forall x, In x l -> p x = true) -> List.filter p l = l.
Proof.
  induction l as [|x l IH]; intros H; simpl; [reflexivity|].
  rewrite (H x) by now left. rewrite IH; [reflexivity|].
  intros y Hy. apply H. now right.
Qed.

(** Ordering is idempotent: an already ordered list of retained elements
    is returned as it is. *)
Theorem getOrderedElements_idempotent :
  forall (elements : list TemplateElement) (layers : list Layer)
         (data : DataContext),
  exists out,
    getOrderedElements elements layers data = Some out
    /\ getOrderedElements out layers data = Some out.
Proof.
  intros elements layers data.
  destruct (getOrderedElements_retains elements layers data)
    as (out & Hout & Hmem).
  destruct (getOrderedElements_sorted elements layers data)
    as (shown & out' & _ & Hout' & _ & Hsorted).
  rewrite Hout in Hout'. injection Hout' as <-.
  exists out. split; [exact Hout|].
  rewrite getOrderedElements_unfold. f_equal.
  assert (H1 : List.filter (layerVisible (buildLayerMap layers)) out = out).
  { apply filter_all. intros x Hx. now apply Hmem in Hx. }
  assert (H2 : List.filter visible out = out).
  { apply filter_all. intros x Hx. now apply Hmem in Hx. }
  assert (H3 : List.filter
                 (fun el => default false (conditionHolds data el)) out
               = out).
  { apply filter_all. intros x Hx.
    apply Hmem in Hx as (_ & _ & _ & ->). reflexivity. }
  rewrite H1, H2, H3.
  apply (sortBy_sorted_id (compositeKey (buildLayerMap layers))).
  exact Hsorted.
Qed.

(** ** Further properties of the binding resolver *)

Lemma split_join (p q : string) :
  Str.split "." (p +:+ String "." q) = Str.split "." p ++ Str.split "." q.
Proof.
  induction p as [|c p IH].
  - reflexivity.
  - change (String c p +:+ String "." q)
      with (String c (p +:+ String "." q)).
    cbn -[Ascii.eqb String.append]. rewrite IH.
    destruct (Ascii.eqb c "."); [reflexivity|].
    destruct (Str.split "." p) as [|seg segs] eqn:Hs;
      [now apply split_nonempty in Hs | reflexivity].
Qed.

Lemma nestedStep_thrown (keys : list string) :
  foldl nestedStep None keys = None.
Proof. induction keys as [|k keys IH]; simpl; [reflexivity | exact IH]. Qed.

(** Walking the path [p.q] is walking [p] and then walking [q] from the
    value found. *)
Theorem getNestedValue_compose :
  forall (obj : JSValue) (p q : string),
    truthy p = true ->
    truthy q = true ->
    getNestedValue obj (p +:+ String "." q)
    = getNestedValue obj p ≫= fun v => getNestedValue v q.
Proof.
  intros obj p q Hp Hq. unfold getNestedValue. rewrite Hp, Hq.
  assert (Hpq : truthy (p +:+ String "." q) = true).
  { destruct p; [discriminate Hp | reflexivity]. }
  rewrite Hpq. cbn [negb]. rewrite split_join, foldl_app.
  destruct (foldl nestedStep (Some obj) (Str.split "." p)) as [v|]; simpl.
  - reflexivity.
  - apply nestedStep_thrown.
Qed.

Lemma getNestedValue_compose_witness :
  getNestedValue (VObj dollarData) "employee.name"
  = getNestedValue (VObj dollarData) "employee"
    ≫= fun v => getNestedValue v "name".
Proof.
  apply (getNestedValue_compose (VObj dollarData) "employee" "name");
    reflexivity.
Defined.

Lemma Num_lt_asym (a b : JSNumber) : Num.lt a b = true -> Num.lt b a = false.
Proof.
  destruct a as [|x| |], b as [|y| |]; simpl; try discriminate;
    try reflexivity.
  intros H. apply negb_true_iff in H. apply negb_false_iff.
  apply Qle_bool_iff. destruct (Qlt_le_dec y x) as [Hlt | Hle].
  - exfalso. apply Qlt_le_weak in Hlt. apply Qle_bool_iff in Hlt. congruence.
  - apply Qle_lteq in Hle as [Hlt | Heq].
    + now apply Qlt_le_weak.
    + exfalso. assert (Hyx : (y <= x)%Q) by (rewrite Heq; apply Qle_refl).
      apply Qle_bool_iff in Hyx. congruence.
Qed.

(** [notExists] is the negation of [exists] and [notEquals] the negation
    of [equals], on every field and data context; [gt] and [lt] never
    hold together. *)
Theorem condition_operators_complement :
  forall (c : ConditionalVisibility) (data : DataContext),
    evaluateCondition (withOperator c "notExists") data
    = negb <$> evaluateCondition (withOperator c "exists") data
    /\ evaluateCondition (withOperator c "notEquals") data
       = negb <$> evaluateCondition (withOperator c "equals") data
    /\ (evaluateCondition (withOperator c "gt") data = Some true ->
        evaluateCondition (withOperator c "lt") data = Some false).
Proof.
  intros c data. unfold evaluateCondition, withOperator. cbn [cond_field].
  destruct (getNestedValue (VObj data) (cond_field c)) as [v|];
    [|repeat split; try reflexivity; discriminate].
  cbn. split; [|split].
  - f_equal. now destruct (strictEq v VUndef), (strictEq v VNull),
      (strictEq v (VStr EmptyString)).
  - reflexivity.
  - intros H. injection H as H. f_equal. unfold Num.gt in H.
    now apply Num_lt_asym.
Qed.

Lemma condition_operators_complement_witness :
  evaluateCondition
    (withOperator {| cond_field := "n"; cond_operator := "gt";
                     cond_value := VNum 3 |} "lt")
    {[ "n" := VStr "5" ]} = Some false.
Proof.
  apply (condition_operators_complement
           {| cond_field := "n"; cond_operator := "gt";
              cond_value := VNum 3 |} {[ "n" := VStr "5" ]}).
  vm_compute; reflexivity.
Defined.

Lemma applyFallback_present (binding : DataBinding) (raw : JSValue) :
  applyFallback binding raw <> VUndef /\ applyFallback binding raw <> VNull.
Proof.
  unfold applyFallback. destruct (isBlank raw) eqn:Hb; [split; discriminate|].
  unfold isBlank in Hb. destruct raw; simpl in Hb; try discriminate;
    split; discriminate.
Qed.

(** What [resolveBinding] can return.  With a non-empty format template
    the result is a string.  When no registered transform applies, the
    result is never [undefined] or [null]: an absent value has been
    replaced by the fallback or by the empty string. *)
Theorem resolveBinding_result_kind :
  forall (transforms : Registry) (binding : DataBinding)
         (data : DataContext),
  exists value,
    resolveBinding transforms binding data = Some value
    /\ (forall template,
          formatTemplate binding = Some template ->
          truthy template = true ->
          exists text, value = VStr text)
    /\ ((forall tname, transform binding = Some tname ->
                       transforms !! tname = None) ->
        value <> VUndef /\ value <> VNull).
Proof.
  intros transforms binding data.
  destruct (resolveBinding_steps transforms binding data)
    as (raw & _ & ->).
  eexists. split; [reflexivity|]. split.
  - intros template Ht Hne. unfold applyFormat. rewrite Ht, Hne.
    eexists; reflexivity.
  - intros Hreg.
    assert (Hid : applyTransform transforms binding data
                    (applyFallback binding raw)
                  = applyFallback binding raw).
    { unfold applyTransform, TransformFn in *.
      destruct (transform binding) as [tname|]; [|reflexivity].
      rewrite (Hreg tname eq_refl). now destruct (truthy tname). }
    rewrite Hid. unfold applyFormat.
    destruct (formatTemplate binding) as [template|];
      [destruct (truthy template); [split; discriminate|]|];
      apply applyFallback_present.
Qed.

Lemma resolveBinding_result_kind_witness :
  exists value,
    resolveBinding ∅ nameBinding dollarData = Some value
    /\ exists text, value = VStr text.
Proof.
  destruct (resolveBinding_result_kind ∅ nameBinding dollarData)
    as (value & Hvalue & Htext & _).
  exists value. split; [exact Hvalue|].
  apply (Htext "Name: {{value}}"); reflexivity.
Defined.

(** Registering a transform makes [resolveBinding] apply it, to the
    value after the fallback and before the format template; a later
    registration under the same name replaces the earlier one, and other
    names are not affected. *)
Theorem registered_transform_is_applied :
  forall (transforms : Registry) (tname : string) (fn fn' : TransformFn)
         (binding : DataBinding) (data : DataContext),
    transform binding = Some tname ->
    truthy tname = true ->
    (exists raw,
        getNestedValue (VObj data) (field binding) = Some raw
        /\ resolveBinding (registerTransform tname fn transforms) binding data
           = Some (applyFormat binding (fn (applyFallback binding raw) data)))
    /\ getTransform
         (registerTransform tname fn' (registerTransform tname fn transforms))
         tname = Some fn'
    /\ (forall other, other <> tname ->
          getTransform (registerTransform tname fn transforms) other
          = getTransform transforms other).
Proof.
  intros transforms tname fn fn' binding data Ht Hne. split; [|split].
  - destruct (resolveBinding_steps (registerTransform tname fn transforms)
                binding data) as (raw & Hraw & ->).
    exists raw. split; [exact Hraw|]. do 2 f_equal.
    apply applyTransform_registered with (tname := tname);
      [exact Ht | exact Hne |].
    unfold registerTransform. apply lookup_insert_eq.
  - unfold getTransform, registerTransform. apply lookup_insert_eq.
  - intros other Hother. unfold getTransform, registerTransform.
    apply lookup_insert_ne. congruence.
Qed.

Lemma registered_transform_is_applied_witness :
  getTransform
    (registerTransform "trim" (fun v _ => VStr (Num.trim (ToString v)))
       (registerTransform "trim" (fun v _ => v) ∅))
    "trim"
  = Some (fun v _ => VStr (Num.trim (ToString v))).
Proof.
  apply (registered_transform_is_applied ∅ "trim" (fun v _ => v)
           (fun v _ => VStr (Num.trim (ToString v)))
           {| field := "employee.name"; transform := Some "trim";
              fallback := None; formatTemplate := None |} dollarData);
    reflexivity.
Defined.

(** [resolveElementBindings] returns one entry for every binding of the
    element, under the binding's own path, holding what [resolveBinding]
    gives for it, and no other entry.  The path [__proto__] is apart: the
    assignment under that name is a call of the setter, so the result has
    no entry for it, and the resolved value, if it is an object or
    [null], becomes the prototype of the result.  An element without
    bindings gives the empty object. *)
Theorem resolveElementBindings_entries :
  forall (transforms : Registry) (element : TemplateElement)
         (data : DataContext),
  exists resolved,
    resolveElementBindings transforms element data = Some resolved
    /\ (forall path binding,
          default ∅ (bindings element) !! path = Some binding ->
          path <> "__proto__" ->
          ownProps resolved !! path = resolveBinding transforms binding data)
    /\ (forall path,
          default ∅ (bindings element) !! path = None ->
          ownProps resolved !! path = None)
    /\ ownProps resolved !! "__proto__" = None
    /\ (forall binding,
          default ∅ (bindings element) !! "__proto__" = Some binding ->
          exists v,
            resolveBinding transforms binding data = Some v
            /\ prototype resolved = setPrototype ObjectPrototype v)
    /\ (default ∅ (bindings element) !! "__proto__" = None ->
        prototype resolved = ObjectPrototype)
    /\ (bindings element = None -> resolved = emptyObject).
Proof.
  intros transforms element data.
  destruct (resolveElementBindings_lookup transforms element data)
    as (resolved & Hres & Hlookup & Hproto).
  exists resolved. split; [exact Hres|].
  split; [|split; [|split; [|split; [|split]]]].
  - intros path binding Hb Hpath. rewrite Hlookup, Hb.
    now destruct (String.eqb_spec path "__proto__").
  - intros path Hb. rewrite Hlookup, Hb.
    now destruct (String.eqb path "__proto__").
  - now rewrite Hlookup.
  - intros binding Hb. rewrite Hb in Hproto. cbn [mbind option_bind] in Hproto.
    destruct (resolveBinding_total transforms binding data) as [v Hv].
    rewrite Hv in Hproto. exists v. split; [exact Hv | exact Hproto].
  - intros Hb. now rewrite Hb in Hproto.
  - intros Hnone. unfold resolveElementBindings in Hres.
    rewrite Hnone in Hres. congruence.
Qed.

Lemma resolveElementBindings_entries_witness :
  exists resolved,
    resolveElementBindings ∅
      (withBindings (sampleElement "el_1" "default" 0) (Some protoBindings))
      themeData = Some resolved
    /\ ownProps resolved !! "props.content" = Some (VStr "Name: Ann")
    /\ ownProps resolved !! "__proto__" = None
    /\ prototype resolved
       = ProtoOf (VObj {[ "content" := VStr "inherited" ]}).
Proof.
  destruct (resolveElementBindings_entries ∅
              (withBindings (sampleElement "el_1" "default" 0)
                 (Some protoBindings)) themeData)
    as (resolved & Hres & Hsome & _ & Hown & Hproto & _).
  exists resolved. split; [exact Hres|]. split; [|split; [exact Hown|]].
  - rewrite (Hsome "props.content" nameBinding);
      [vm_compute; reflexivity | vm_compute; reflexivity | discriminate].
  - destruct (Hproto themeBinding) as (v & Hv & ->);
      [vm_compute; reflexivity|].
    vm_compute in Hv. injection Hv as <-. reflexivity.
Defined.

(** ** Properties of the card formatters *)

Lemma stripNonDigits_allDigits (s : string) :
  allDigits (stripNonDigits s) = true.
Proof.
  induction s as [|c s IH]; simpl; [reflexivity|].
  destruct (isDigit c) eqn:Hc; simpl; [now rewrite Hc | exact IH].
Qed.

Lemma stripNonDigits_digits (s : string) :
  allDigits s = true -> stripNonDigits s = s.
Proof.
  induction s as [|c s IH]; simpl; [reflexivity|].
  intros H. apply andb_prop in H as [Hc Hs]. rewrite Hc, IH by exact Hs.
  reflexivity.
Qed.

(** [formatPhoneNumber] always gives [+91 ] followed by digits only.  On
    an input with exactly ten digits, in whatever punctuation, it gives
    [+91 ] followed by those digits, and formatting the result again
    changes nothing. *)
Theorem formatPhoneNumber_shape :
  forall phone : string,
    (exists digits,
        formatPhoneNumber phone = "+91 " +:+ digits
        /\ allDigits digits = true)
    /\ (String.length (stripNonDigits phone) = 10%nat ->
        formatPhoneNumber phone = "+91 " +:+ stripNonDigits phone
        /\ formatPhoneNumber (formatPhoneNumber phone)
           = formatPhoneNumber phone).
Proof.
  intros phone. split.
  - unfold formatPhoneNumber.
    destruct (negb (truthy phone)); [eexists; split; reflexivity|].
    pose proof (stripNonDigits_allDigits phone) as Hd.
    destruct (String.length (stripNonDigits phone) =? 10)%nat;
      [eexists; split; [reflexivity | exact Hd]|].
    destruct (String.prefix "91" (stripNonDigits phone)
              && (String.length (stripNonDigits phone) =? 12)%nat) eqn:H91;
      [|eexists; split; [reflexivity | exact Hd]].
    eexists. split; [reflexivity|].
    destruct (stripNonDigits phone) as [|a [|b rest]]; try reflexivity.
    simpl in Hd. apply andb_prop in Hd as [_ Hd].
    apply andb_prop in Hd as [_ Hd]. exact Hd.
  - intros Hlen.
    assert (Hfirst : formatPhoneNumber phone
                     = "+91 " +:+ stripNonDigits phone).
    { unfold formatPhoneNumber.
      destruct phone as [|c phone]; [discriminate Hlen|].
      cbn [truthy String.eqb negb]. now rewrite Hlen. }
    split; [exact Hfirst|]. rewrite Hfirst.
    pose proof (stripNonDigits_allDigits phone) as Hd.
    set (digits := stripNonDigits phone) in *.
    unfold formatPhoneNumber.
    change (truthy ("+91 " +:+ digits)) with true. cbn [negb].
    change (stripNonDigits ("+91 " +:+ digits))
      with (String "9" (String "1" (stripNonDigits digits))).
    rewrite (stripNonDigits_digits digits Hd).
    cbn [String.length]. rewrite Hlen. cbn.
    clearbody digits. destruct digits; reflexivity.
Qed.

Lemma formatPhoneNumber_shape_witness :
  formatPhoneNumber "(98989) 898-98" = "+91 9898989898".
Proof.
  apply (formatPhoneNumber_shape "(98989) 898-98"). reflexivity.
Defined.

(** A binding that uses the [formatPhone] transform, and no format
    template, resolves to [+91 ] followed by digits only, whatever the
    data context holds under its field. *)
Theorem phone_binding_shape :
  forall (transforms : Registry) (binding : DataBinding)
         (data : DataContext),
    transform binding = Some "formatPhone" ->
    formatTemplate binding = None ->
    exists digits,
      resolveBinding
        (registerTransform "formatPhone" formatPhoneTransform transforms)
        binding data
      = Some (VStr ("+91 " +:+ digits))
      /\ allDigits digits = true.
Proof.
  intros transforms binding data Ht Hf.
  destruct (resolveBinding_steps
              (registerTransform "formatPhone" formatPhoneTransform
                 transforms) binding data) as (raw & _ & ->).
  rewrite (applyTransform_registered _ binding data _ "formatPhone"
             formatPhoneTransform Ht eq_refl)
    by (unfold registerTransform; apply lookup_insert_eq).
  unfold applyFormat. rewrite Hf. unfold formatPhoneTransform.
  destruct (formatPhoneNumber_shape
              (ToString
                 (if strictEq (applyFallback binding raw) VUndef
                     || strictEq (applyFallback binding raw) VNull
                  then VStr EmptyString
                  else applyFallback binding raw)))
    as [(digits & -> & Hd) _].
  exists digits. split; [reflexivity | exact Hd].
Qed.

Lemma phone_binding_shape_witness :
  exists digits,
    resolveBinding (registerTransform "formatPhone" formatPhoneTransform ∅)
      {| field := "employee.mobile"; transform := Some "formatPhone";
         fallback := None; formatTemplate := None |} dollarData
    = Some (VStr ("+91 " +:+ digits))
    /\ allDigits digits = true.
Proof.
  apply phone_binding_shape; reflexivity.
Defined.

(** ** Further properties of the document reducer *)

Lemma EngineAction_batch_ind (P : EngineAction -> Prop) :
  (forall a, (forall l, a <> BATCH l) -> P a) ->
  (forall l, Forall P l -> P (BATCH l)) ->
  forall a, P a.
Proof.
  intros Hbase Hbatch. fix IH 1. intros a.
  destruct a as [| | | | | | | | | | | | | | | | | | | | |payload];
    try (apply Hbase; intros l; discriminate).
  apply Hbatch.
  exact ((fix all (l : list EngineAction) : Forall P l :=
            match l with
            | [] => @List.Forall_nil _ P
            | x :: xs => @List.Forall_cons _ P x xs (IH x) (all xs)
            end) payload).
Qed.

Lemma undo_snapshotCount (s : DocumentState) :
  snapshotCount (undo s) = snapshotCount s.
Proof.
  destruct s as [doc h f]. unfold undo, snapshotCount.
  cbn [future history document].
  destruct (last h) as [prev|] eqn:Hlast; [|reflexivity].
  destruct (last_Some h prev) as [[h' Hh] _]; [exact Hlast|].
  cbn [future history length]. rewrite Hh, length_take, length_app.
  simpl. lia.
Qed.

Lemma redo_snapshotCount (s : DocumentState) :
  snapshotCount (redo s) = snapshotCount s.
Proof.
  destruct s as [doc h f]. unfold redo, snapshotCount.
  cbn [future history document]. destruct f as [|next rest]; [reflexivity|].
  cbn [future history length]. rewrite length_app. simpl. lia.
Qed.

Lemma pushHistory_snapshotCount (s : DocumentState) (d : TemplateDocument) :
  (snapshotCount (pushHistory s d) <= S MAX_HISTORY)%nat.
Proof.
  unfold snapshotCount. rewrite pushHistory_length.
  cbn [future pushHistory length]. unfold MAX_HISTORY. lia.
Qed.

(** The reducer never keeps more than 51 snapshots: whatever the action,
    a [BATCH] of any depth included, if history and future together hold
    at most 51 documents before, they do so after. *)
Theorem snapshot_count_bounded :
  forall (a : EngineAction) (s : DocumentState) (clk : Clock),
    (snapshotCount s <= S MAX_HISTORY)%nat ->
    (snapshotCount (fst (documentReducer s a clk)) <= S MAX_HISTORY)%nat.
Proof.
  intros a. induction a as [a Hnot | l Hall] using EngineAction_batch_ind;
    intros s clk Hs.
  - destruct a; cbn [documentReducer fst];
      try apply pushHistory_snapshotCount; try exact Hs.
    + unfold snapshotCount; simpl; lia.
    + destruct (List.find _ _); [|exact Hs].
      cbn [Date_now fst]. apply pushHistory_snapshotCount.
    + now rewrite undo_snapshotCount.
    + now rewrite redo_snapshotCount.
    + now contradiction (Hnot payload).
  - cbn [documentReducer]. rewrite batch_loop.
    change s with (fst (s, clk)) in Hs. revert Hs.
    generalize (s, clk). clear s clk.
    induction Hall as [|a l Ha _ IH]; intros start Hs; [exact Hs|].
    cbn [dispatchAll foldl]. apply IH. apply Ha. exact Hs.
Qed.

Lemma snapshot_count_bounded_witness :
  (snapshotCount
     (fst (documentReducer (fst fiftyEdits)
             (BATCH [ADD_ELEMENT (sampleElement "el_2" "default" 1);
                     BATCH [UNDO; UNDO; REDO]])
             (snd fiftyEdits))) <= S MAX_HISTORY)%nat.
Proof.
  apply snapshot_count_bounded. vm_compute. lia.
Defined.

(** [UNDO] and [REDO] are inverse to each other on the whole state:
    when there is something to undo, [REDO] after [UNDO] gives back the
    state, and when there is something to redo, so does [UNDO] after
    [REDO].  With nothing to undo (redo), [UNDO] ([REDO]) changes
    nothing. *)
Theorem undo_redo_inverse :
  forall (s : DocumentState) (clk : Clock),
    (canUndo s = true ->
     fst (documentReducer (fst (documentReducer s UNDO clk)) REDO clk) = s)
    /\ (canRedo s = true ->
        fst (documentReducer (fst (documentReducer s REDO clk)) UNDO clk)
        = s)
    /\ (canUndo s = false -> documentReducer s UNDO clk = (s, clk))
    /\ (canRedo s = false -> documentReducer s REDO clk = (s, clk)).
Proof.
  intros s clk. cbn [documentReducer fst]. unfold canUndo, canRedo.
  split; [|split; [|split]].
  - intros H. apply redo_undo. left. intros Hnil. rewrite Hnil in H.
    discriminate.
  - intros H. destruct s as [doc h f]. cbn [future] in H.
    destruct f as [|next rest]; [discriminate|].
    unfold redo, undo. cbn [future history document].
    rewrite last_snoc. f_equal.
    rewrite length_app. simpl.
    replace (length h + 1 - 1)%nat with (length h) by lia.
    apply take_app_length.
  - intros H. destruct s as [doc h f]. cbn [history] in H.
    destruct h; [reflexivity | discriminate].
  - intros H. destruct s as [doc h f]. cbn [future] in H.
    destruct f; [reflexivity | discriminate].
Qed.

Lemma undo_redo_inverse_witness :
  fst (documentReducer
         (fst (documentReducer redoableState REDO sampleClock)) UNDO
         sampleClock) = redoableState.
Proof.
  apply (undo_redo_inverse redoableState sampleClock). reflexivity.
Defined.

Lemma append_length (s t : string) :
  String.length (s +:+ t) = (String.length s + String.length t)%nat.
Proof. induction s as [|c s IH]; simpl; [reflexivity | now rewrite IH]. Qed.

Lemma append_longer (s t : string) : t <> EmptyString -> s +:+ t <> s.
Proof.
  intros Ht Heq. apply (f_equal String.length) in Heq.
  rewrite append_length in Heq. destruct t; [contradiction | simpl in Heq; lia].
Qed.

Lemma find_some_id (target : string) (els : list TemplateElement)
  (original : TemplateElement) :
  List.find (fun el => String.eqb (id el) target) els = Some original ->
  In original els /\ id original = target.
Proof.
  intros H. apply find_some in H as [Hin Heq]. split; [exact Hin|].
  now apply String.eqb_eq.
Qed.

(** [DUPLICATE_ELEMENT] of an id that is found appends one copy of the
    first element with that id and leaves the elements that were there
    as they are and where they are.  The copy differs from its original
    in three fields only: its id is the original's id followed by [_copy_]
    and the clock reading, hence another id; its name has [ (copy)]
    appended; its position is moved by 10 in both directions. *)
Theorem duplicate_appends_copy :
  forall (s : DocumentState) (clk : Clock) (target : string)
         (original : TemplateElement),
    List.find (fun el => String.eqb (id el) target) (elements (document s))
    = Some original ->
    exists copy,
      fst (documentReducer s (DUPLICATE_ELEMENT target) clk)
      = pushHistory s
          (withElements (document s) (elements (document s) ++ [copy]))
      /\ id copy = target +:+ "_copy_" +:+ Num.ofZ (clk O)
      /\ id copy <> target
      /\ name copy = name original +:+ " (copy)"
      /\ (pos_x (position copy) == pos_x (position original) + 10)%Q
      /\ (pos_y (position copy) == pos_y (position original) + 10)%Q
      /\ pos_anchor (position copy) = pos_anchor (position original)
      /\ withPosition (withName (withId copy (id original)) (name original))
           (position original) = original.
Proof.
  intros s clk target original Hfind.
  destruct (find_some_id _ _ _ Hfind) as [_ Hid].
  exists (duplicateOf original (clk O)).
  cbn [documentReducer]. rewrite Hfind. cbn [Date_now fst].
  split; [reflexivity|]. subst target.
  split; [reflexivity|]. split.
  - cbn. apply append_longer. discriminate.
  - split; [reflexivity|]. split; [reflexivity|]. split; [reflexivity|].
    split; [reflexivity|]. destruct original; reflexivity.
Qed.

Lemma duplicate_appends_copy_witness :
  exists copy,
    fst (documentReducer (initialState oneElementDocument)
           (DUPLICATE_ELEMENT "el_1") sampleClock)
    = pushHistory (initialState oneElementDocument)
        (withElements oneElementDocument
           (elements oneElementDocument ++ [copy]))
    /\ id copy = "el_1_copy_1700000000000".
Proof.
  destruct (duplicate_appends_copy (initialState oneElementDocument)
              sampleClock "el_1" (sampleElement "el_1" "default" 0) eq_refl)
    as (copy & Hstate & Hid & _).
  exists copy. split; [exact Hstate|]. rewrite Hid. vm_compute. reflexivity.
Defined.

(** The id of a copy depends on the clock alone: two duplications of the
    same element at one clock reading give two elements with one id. *)
Theorem duplicate_ids_repeat_within_a_reading :
  forall (s : DocumentState) (clk : Clock) (target : string)
         (original : TemplateElement),
    List.find (fun el => String.eqb (id el) target) (elements (document s))
    = Some original ->
    clk 1%nat = clk 0%nat ->
    exists first second,
      elements
        (document
           (fst (dispatchAll
                   [DUPLICATE_ELEMENT target; DUPLICATE_ELEMENT target]
                   (s, clk))))
      = elements (document s) ++ [first; second]
      /\ id first = id second.
Proof.
  intros s clk target original Hfind Hclk.
  exists (duplicateOf original (clk 0%nat)),
         (duplicateOf original (clk 1%nat)).
  unfold dispatchAll. cbn [foldl documentReducer fst snd].
  rewrite Hfind. cbn [Date_now fst snd pushHistory document elements
                        withElements].
  assert (Hfind' : List.find (fun el => String.eqb (id el) target)
                     (elements (document s)
                      ++ [duplicateOf original (clk 0%nat)])
                   = Some original).
  { revert Hfind. generalize (elements (document s)).
    induction l as [|x l IH]; simpl; [discriminate|].
    destruct (String.eqb (id x) target); [trivial | exact IH]. }
  rewrite Hfind'. cbn [Date_now fst snd pushHistory document elements
                         withElements].
  split; [now rewrite <- app_assoc|].
  cbn [duplicateOf withPosition withName withId id]. now rewrite Hclk.
Qed.

Lemma duplicate_ids_repeat_within_a_reading_witness :
  exists first second,
    elements
      (document
         (fst (dispatchAll
                 [DUPLICATE_ELEMENT "el_1"; DUPLICATE_ELEMENT "el_1"]
                 (initialState oneElementDocument, fun _ => 1700000000000))))
    = elements oneElementDocument ++ [first; second]
    /\ id first = id second.
Proof.
  apply (duplicate_ids_repeat_within_a_reading
           (initialState oneElementDocument) (fun _ => 1700000000000)
           "el_1" (sampleElement "el_1" "default" 0));
    reflexivity.
Defined.

(** After [REMOVE_ELEMENT] no element has the removed id, the other
    elements are all kept in their order, nothing else in the document
    changes, and removing the same id again leaves the document as it
    is. *)
Theorem remove_element_removes :
  forall (s : DocumentState) (clk : Clock) (target : string),
    let s' := fst (documentReducer s (REMOVE_ELEMENT target) clk) in
    idAbsent target (document s') = true
    /\ elements (document s')
       = List.filter (fun el => negb (String.eqb (id el) target))
           (elements (document s))
    /\ withElements (document s') (elements (document s)) = document s
    /\ document (fst (documentReducer s' (REMOVE_ELEMENT target) clk))
       = document s'.
Proof.
  intros s clk target s'. subst s'.
  cbn [documentReducer fst pushHistory document withElements elements].
  assert (Habs : forallb (fun el => negb (String.eqb (id el) target))
                   (List.filter (fun el => negb (String.eqb (id el) target))
                      (elements (document s))) = true).
  { apply forallb_forall. intros el Hel. now apply filter_In in Hel. }
  split; [exact Habs|]. split; [reflexivity|]. split.
  - destruct (document s); reflexivity.
  - cbn [schemaVersion doc_id meta canvas background layers doc_bindings
           variables isReady].
    now rewrite (filter_stale id target _ Habs).
Qed.

Lemma map_keeps_ids (target : string)
  (g : TemplateElement -> TemplateElement) (l : list TemplateElement) :
  (forall el, id (g el) = id el) ->
  map id (map (fun el => if String.eqb (id el) target then g el else el) l)
  = map id l.
Proof.
  intros Hg. induction l as [|x l IH]; simpl; [reflexivity|].
  rewrite IH. destruct (String.eqb (id x) target); [now rewrite Hg|].
  reflexivity.
Qed.

Lemma map_keeps_others (target : string)
  (g : TemplateElement -> TemplateElement) (l : list TemplateElement)
  (i : nat) (el : TemplateElement) :
  l !! i = Some el -> id el <> target ->
  map (fun el => if String.eqb (id el) target then g el else el) l !! i
  = Some el.
Proof.
  intros Hi Hne.
  change (map (fun el => if String.eqb (id el) target then g el else el) l)
    with ((fun el => if String.eqb (id el) target then g el else el) <$> l).
  rewrite list_lookup_fmap, Hi. cbn.
  destruct (String.eqb_spec (id el) target); [contradiction | reflexivity].
Qed.

(** [MOVE_ELEMENT], [RESIZE_ELEMENT] and [REORDER_ELEMENT] keep the number,
    the order and the ids of the elements, leave every element with
    another id as it is, and change nothing of the document outside its
    elements. *)
Theorem geometry_actions_frame :
  forall (s : DocumentState) (clk : Clock) (a : EngineAction)
         (target : string),
    isGeometryAction a = true ->
    elementTarget a = Some target ->
    let d' := document (fst (documentReducer s a clk)) in
    map id (elements d') = map id (elements (document s))
    /\ (forall (i : nat) (el : TemplateElement),
          elements (document s) !! i = Some el -> id el <> target ->
          elements d' !! i = Some el)
    /\ withElements d' (elements (document s)) = document s.
Proof.
  intros s clk a target Hgeo Ht d'. subst d'.
  destruct a as [| |t p|t d p| | | |t z| | | | | | | | | | | | | |];
    try discriminate Hgeo; cbn in Ht; injection Ht as ->;
    cbn [documentReducer fst pushHistory document withElements elements].
  - split; [|split; [|destruct (document s); reflexivity]].
    + now apply map_keeps_ids.
    + intros i el. apply map_keeps_others.
  - split; [|split; [|destruct (document s); reflexivity]].
    + apply map_keeps_ids. intros el. now destruct p.
    + intros i el. apply map_keeps_others.
  - split; [|split; [|destruct (document s); reflexivity]].
    + now apply map_keeps_ids.
    + intros i el. apply map_keeps_others.
Qed.

Lemma geometry_actions_frame_witness :
  map id
    (elements
       (document
          (fst (documentReducer (initialState oneElementDocument)
                  (MOVE_ELEMENT "el_1" samplePosition) sampleClock))))
  = map id (elements oneElementDocument).
Proof.
  apply (geometry_actions_frame (initialState oneElementDocument) sampleClock
           (MOVE_ELEMENT "el_1" samplePosition) "el_1");
    reflexivity.
Defined.

(** The document reducer and the selection reducer never react to the
    same action: an action that changes the selection state leaves the
    document state as it is.  [BATCH] belongs to the document reducer
    alone, so selection actions put inside a batch change neither. *)
Theorem reducers_do_not_interfere :
  forall (a : EngineAction) (sel : SelectionState) (s : DocumentState)
         (clk : Clock),
    (selectionReducer sel a <> sel -> documentReducer s a clk = (s, clk))
    /\ (forall actions, a = BATCH actions -> selectionReducer sel a = sel).
Proof.
  intros a sel s clk. split.
  - intros Hsel. destruct a; try reflexivity;
      exfalso; apply Hsel; reflexivity.
  - intros actions ->. reflexivity.
Qed.

Lemma reducers_do_not_interfere_witness :
  documentReducer (initialState sampleDocument) (SELECT_ELEMENTS ["el_1"])
    sampleClock
  = (initialState sampleDocument, sampleClock).
Proof.
  apply (reducers_do_not_interfere (SELECT_ELEMENTS ["el_1"])
           initialSelection).
  discriminate.
Defined.

(** ** Properties of the editor reducer *)

(** On [SET_DOCUMENT], [UPDATE_ELEMENT], [MOVE_ELEMENT], [RESIZE_ELEMENT],
    [REMOVE_ELEMENT], [REORDER_ELEMENT], [UNDO] and [REDO] the editor
    reducer does to its document, history and future exactly what the
    document reducer does, and keeps its selection.  It has no case for
    [ADD_ELEMENT] or [BATCH], which leave the editor state as it is. *)
Theorem editor_agrees_with_document_reducer :
  (forall (st : EditorState) (a : EngineAction) (clk : Clock),
     isSharedAction a = true ->
     documentSlice (fst (editorReducer st a clk))
     = fst (documentReducer (documentSlice st) a clk)
     /\ ed_selectedIds (fst (editorReducer st a clk)) = ed_selectedIds st
     /\ ed_hoveredId (fst (editorReducer st a clk)) = ed_hoveredId st)
  /\ (forall (st : EditorState) (clk : Clock) (el : TemplateElement),
        editorReducer st (ADD_ELEMENT el) clk = (st, clk))
  /\ (forall (st : EditorState) (clk : Clock) (actions : list EngineAction),
        editorReducer st (BATCH actions) clk = (st, clk)).
Proof.
  split; [|split; reflexivity].
  intros st a clk Hshared.
  destruct a; try discriminate Hshared; destruct st as [doc h f ids hov g sc];
    cbn [editorReducer documentReducer fst documentSlice ed_document
           ed_history ed_future ed_selectedIds ed_hoveredId];
    try (repeat split; reflexivity).
  - unfold undo, documentSlice.
    cbn [history document future ed_document ed_history ed_future].
    destruct (last h); repeat split; reflexivity.
  - unfold redo, documentSlice.
    cbn [history document future ed_document ed_history ed_future].
    destruct f; repeat split; reflexivity.
Qed.

Lemma editor_agrees_with_document_reducer_witness :
  documentSlice
    (fst (editorReducer
            {| ed_document := oneElementDocument; ed_history := [];
               ed_future := []; ed_selectedIds := ["el_1"];
               ed_hoveredId := None; ed_showGrid := false;
               ed_scale := 5 # 2 |}
            (MOVE_ELEMENT "el_1" samplePosition) sampleClock))
  = fst (documentReducer (initialState oneElementDocument)
           (MOVE_ELEMENT "el_1" samplePosition) sampleClock).
Proof.
  destruct editor_agrees_with_document_reducer as [Hshared _].
  apply (Hshared
           {| ed_document := oneElementDocument; ed_history := [];
              ed_future := []; ed_selectedIds := ["el_1"];
              ed_hoveredId := None; ed_showGrid := false;
              ed_scale := 5 # 2 |}
           (MOVE_ELEMENT "el_1" samplePosition) sampleClock).
  reflexivity.
Defined.

Lemma move_twice (target : string) (p : Position)
  (l : list TemplateElement) :
  map (fun el => if String.eqb (id el) target then withPosition el p else el)
    (map (fun el => if String.eqb (id el) target then withPosition el p
                    else el) l)
  = map (fun el => if String.eqb (id el) target then withPosition el p
                   else el) l.
Proof.
  induction l as [|x l IH]; simpl; [reflexivity|]. rewrite IH. f_equal.
  destruct (String.eqb (id x) target) eqn:Hx; [|now rewrite Hx].
  cbn [withPosition id]. now rewrite Hx.
Qed.

(** In the editor, [UPDATE_DRAG] with exactly one selected id moves the
    elements with that id in the document itself and touches neither
    history nor future.  So when the gesture is committed by
    [MOVE_ELEMENT] to the same position, the snapshot that enters the
    history is the document as already moved, and [UNDO] straight after
    the commit gives back that moved document. *)
Theorem editor_live_drag :
  forall (st : EditorState) (clk : Clock) (target : string) (p : Position),
    ed_selectedIds st = [target] ->
    let live := fst (editorReducer st (UPDATE_DRAG p) clk) in
    let committed := fst (editorReducer live (MOVE_ELEMENT target p) clk) in
    elements (ed_document live)
    = map (fun el => if String.eqb (id el) target then withPosition el p
                     else el)
        (elements (ed_document st))
    /\ ed_history live = ed_history st
    /\ ed_future live = ed_future st
    /\ ed_document committed = ed_document live
    /\ last (ed_history committed) = Some (ed_document live)
    /\ ed_document (fst (editorReducer committed UNDO clk))
       = ed_document live.
Proof.
  intros st clk target p Hsel live committed. subst live committed.
  destruct st as [doc h f ids hov g sc]. cbn [ed_selectedIds] in Hsel.
  subst ids.
  cbn [editorReducer fst ed_selectedIds ed_document ed_history ed_future
         withDocState pushUndo withElements elements].
  rewrite move_twice, last_snoc.
  repeat split; reflexivity.
Qed.

Lemma editor_live_drag_witness :
  let st := {| ed_document := oneElementDocument; ed_history := [];
               ed_future := []; ed_selectedIds := ["el_1"];
               ed_hoveredId := None; ed_showGrid := false;
               ed_scale := 5 # 2 |} in
  let live := fst (editorReducer st (UPDATE_DRAG samplePosition)
                     sampleClock) in
  let committed := fst (editorReducer live
                          (MOVE_ELEMENT "el_1" samplePosition)
                          sampleClock) in
  ed_document (fst (editorReducer committed UNDO sampleClock))
  = ed_document live.
Proof.
  intros st live committed.
  apply (editor_live_drag st sampleClock "el_1" samplePosition).
  reflexivity.
Defined.

(** ** Properties of the pointer and keyboard handlers *)

Lemma Math_gt_lt (a b : Q) : Math.gt a b = true <-> (b < a)%Q.
Proof.
  unfold Math.gt. rewrite negb_true_iff. split.
  - intros H. apply Qnot_le_lt. intros Hle.
    apply Qle_bool_iff in Hle. congruence.
  - intros H. destruct (Qle_bool a b) eqn:Hb; [|reflexivity].
    apply Qle_bool_iff in Hb. exfalso. eapply Qlt_not_le; eassumption.
Qed.

(** Rounding to the grid: [Math.round(x / g) * g] is a whole multiple of
    [g] at most half a cell away from [x]. *)
Lemma snap_nearest (x g : Q) :
  (0 < g)%Q ->
  (exists k : Z, Math.round (x / g) * g == inject_Z k * g)%Q
  /\ (x - g / 2 < Math.round (x / g) * g)%Q
  /\ (Math.round (x / g) * g <= x + g / 2)%Q.
Proof.
  intros Hg. unfold Math.round.
  set (a := (x / g)%Q).
  assert (Hx : (x == a * g)%Q).
  { unfold a. field. intros H0. rewrite H0 in Hg. now apply Qlt_irrefl in Hg. }
  pose proof (Qfloor_le (a + (1 # 2))) as Hlo.
  pose proof (Qlt_floor (a + (1 # 2))) as Hhi.
  set (k := Qfloor (a + (1 # 2))) in *.
  rewrite inject_Z_plus in Hhi. change (inject_Z 1) with 1%Q in Hhi.
  split; [exists k; reflexivity|].
  assert (Hhalf : (g / 2 == g * (1 # 2))%Q) by (field).
  split.
  - rewrite Hx, Hhalf. nra.
  - rewrite Hx, Hhalf. nra.
Qed.

Lemma quotient_finite (a b : Q) :
  ~ (b == 0)%Q -> quotient a b = Fin (a / b)%Q.
Proof.
  intros Hb. unfold quotient.
  destruct (Qeq_bool b 0) eqn:E; [|reflexivity].
  apply Qeq_bool_iff in E. contradiction.
Qed.

Lemma quotient_by_zero (a b : Q) :
  (b == 0)%Q -> forall v, quotient a b <> Fin v.
Proof.
  intros Hb v. unfold quotient.
  rewrite (proj2 (Qeq_bool_iff b 0) Hb).
  destruct (Qeq_bool a 0); [discriminate|].
  destruct (Qle_bool 0 a); discriminate.
Qed.

(** With a scale other than 0, every coordinate that a drag dispatches
    is a rational number.  With snapping on and a positive grid size it
    is a whole multiple of the grid size, at most half a cell away from
    where the pointer has carried the element; with snapping off it is
    the start coordinate plus the pointer travel divided by the scale.
    At scale 0 the coordinate is no rational number. *)
Theorem drag_snaps_to_grid :
  forall (config : EngineConfig) (elStart mouseStart client : Q),
    (~ (scale config == 0)%Q ->
     exists v : Q,
       dragCoordinate config elStart mouseStart client = Fin v
       /\ let raw := (elStart + (client - mouseStart) / scale config)%Q in
          (snapToGrid config = true -> (0 < gridSize config)%Q ->
           (exists k : Z, v == inject_Z k * gridSize config)%Q
           /\ (raw - gridSize config / 2 < v)%Q
           /\ (v <= raw + gridSize config / 2)%Q)
          /\ (snapToGrid config = false -> v = raw))
    /\ ((scale config == 0)%Q ->
        forall v : Q,
          dragCoordinate config elStart mouseStart client <> Fin v).
Proof.
  intros config elStart mouseStart client. unfold dragCoordinate. split.
  - intros Hscale. rewrite (quotient_finite _ _ Hscale).
    eexists. split; [reflexivity|]. cbn zeta. split.
    + intros Hsnap Hg. rewrite Hsnap.
      rewrite (proj2 (Math_gt_lt (gridSize config) 0) Hg). cbn [andb].
      now apply snap_nearest.
    + intros Hsnap. now rewrite Hsnap.
  - intros Hscale v.
    pose proof (quotient_by_zero (client - mouseStart) _ Hscale) as Hq.
    destruct (quotient (client - mouseStart) (scale config)) as [|d| |];
      [discriminate | now destruct (Hq d) | discriminate | discriminate].
Qed.

Lemma drag_snaps_to_grid_witness :
  exists v : Q,
    dragCoordinate
      {| mode := ModePreview; scale := 2; snapToGrid := true;
         gridSize := 5; showHandles := true; showGrid := true;
         enableKeyboard := true; updateDebounce := 16 |}
      10 100 127 = Fin v
    /\ (exists k : Z, v == inject_Z k * 5)%Q.
Proof.
  destruct (drag_snaps_to_grid
              {| mode := ModePreview; scale := 2; snapToGrid := true;
                 gridSize := 5; showHandles := true; showGrid := true;
                 enableKeyboard := true; updateDebounce := 16 |}
              10 100 127) as [Hfinite _].
  destruct Hfinite as (v & Hv & Hsnap & _); [discriminate|].
  exists v. split; [exact Hv|].
  apply Hsnap; reflexivity.
Defined.

Lemma dragCoordinate_finite (config : EngineConfig)
  (elStart mouseStart client : Q) :
  ~ (scale config == 0)%Q ->
  dragCoordinate config elStart mouseStart client
  = Fin (finite (dragCoordinate config elStart mouseStart client)).
Proof.
  intros Hscale. unfold dragCoordinate.
  now rewrite (quotient_finite _ _ Hscale).
Qed.

(** A pointer move in preview mode, over a canvas, at a scale other than
    0. *)
Lemma handleMouseMove_tracked (config : EngineConfig)
  (refs : InteractionRefs) (x y : Q) :
  mode config = ModePreview ->
  ~ (scale config == 0)%Q ->
  soundResize refs ->
  exists actions,
    handleMouseMove config true refs x y
    = Some (tracked config refs (x, y), actions)
    /\ forallb isUpdate actions = true.
Proof.
  intros Hmode Hscale Hsound. unfold handleMouseMove, tracked, dragPoint.
  rewrite Hmode. cbn [isPreview negb fst snd].
  assert (Hq : forall rs,
             isResizing refs = true -> resizeStart refs = Some rs ->
             Qeq_bool (scale config) 0
             || (rs_aspectLock rs
                 && (Qeq_bool (rs_elW rs) 0 || Qeq_bool (rs_elH rs) 0))
             = false).
  { intros rs Hr Hrs. apply orb_false_iff. split.
    - destruct (Qeq_bool (scale config) 0) eqn:E; [|reflexivity].
      apply Qeq_bool_iff in E. contradiction.
    - destruct (rs_aspectLock rs) eqn:Hlock; [|reflexivity].
      destruct (Hsound Hr rs Hrs Hlock) as [Hw Hh]. cbn [andb].
      apply orb_false_iff. split.
      + destruct (Qeq_bool (rs_elW rs) 0) eqn:E; [|reflexivity].
        apply Qeq_bool_iff in E. contradiction.
      + destruct (Qeq_bool (rs_elH rs) 0) eqn:E; [|reflexivity].
        apply Qeq_bool_iff in E. contradiction. }
  clear Hsound.
  destruct refs as [dragging resizing dstart rstart active lastp lastd].
  cbn [isDragging isResizing dragStart resizeStart activeElementId
         lastDragPos lastResizeDims] in *.
  destruct dragging, dstart as [ds|];
    try rewrite (dragCoordinate_finite config (ds_elX ds) (ds_x ds) x Hscale);
    try rewrite (dragCoordinate_finite config (ds_elY ds) (ds_y ds) y Hscale);
    cbn [finite isDragging isResizing dragStart resizeStart activeElementId
           lastDragPos lastResizeDims];
    destruct resizing, rstart as [rs|];
    try rewrite (Hq rs eq_refl eq_refl);
    eexists; (split; [reflexivity|]); reflexivity.
Qed.

Lemma tracked_twice (config : EngineConfig) (refs : InteractionRefs)
  (p q : Q * Q) :
  tracked config (tracked config refs p) q = tracked config refs q.
Proof.
  destruct refs as [dragging resizing dstart rstart active lastp lastd].
  unfold tracked.
  cbn [isDragging isResizing dragStart resizeStart activeElementId
         lastDragPos lastResizeDims].
  destruct dragging, dstart, resizing, rstart; reflexivity.
Qed.

Lemma mouseMoves_tracked (config : EngineConfig) (points : list (Q * Q)) :
  mode config = ModePreview ->
  ~ (scale config == 0)%Q ->
  forall refs : InteractionRefs,
  soundResize refs ->
  exists actions,
    mouseMoves config true refs points
    = Some (match last points with
            | Some pt => tracked config refs pt
            | None => refs
            end, actions)
    /\ forallb isUpdate actions = true.
Proof.
  intros Hmode Hscale.
  induction points as [|[x y] rest IH]; intros refs Hsound.
  - exists []. split; reflexivity.
  - cbn [mouseMoves].
    destruct (handleMouseMove_tracked config refs x y Hmode Hscale Hsound)
      as (actions1 & -> & Hu1).
    destruct (IH (tracked config refs (x, y)) Hsound)
      as (actions2 & -> & Hu2).
    exists (actions1 ++ actions2). split.
    + f_equal. f_equal. destruct rest as [|pt rest']; [reflexivity|].
      change (last ((x, y) :: pt :: rest')) with (last (pt :: rest')).
      destruct (last (pt :: rest')) eqn:Hl; [apply tracked_twice|].
      apply last_None in Hl. discriminate.
    + rewrite forallb_app, Hu1, Hu2. reflexivity.
Qed.

(** Outside preview mode the listeners are not installed. *)
Lemma pointer_events_outside_preview (config : EngineConfig)
  (hasCanvas : bool) (refs : InteractionRefs) (points : list (Q * Q)) :
  mode config <> ModePreview ->
  mouseMoves config hasCanvas refs points = Some (refs, [])
  /\ handleMouseUp config refs = (refs, []).
Proof.
  intros Hmode.
  assert (Hp : isPreview (mode config) = false)
    by (destruct (mode config); [contradiction | reflexivity ..]).
  split.
  - induction points as [|[x y] rest IH]; [reflexivity|].
    cbn [mouseMoves]. unfold handleMouseMove at 1. rewrite Hp.
    cbn [negb]. now rewrite IH.
  - unfold handleMouseUp. now rewrite Hp.
Qed.

Lemma dispatchAll_ignored (actions : list EngineAction) :
  Forall (fun a => forall s clk, documentReducer s a clk = (s, clk)) actions ->
  forall start, dispatchAll actions start = start.
Proof.
  induction 1 as [|a l Ha _ IH]; intros [s clk]; [reflexivity|].
  cbn [dispatchAll foldl fst snd]. rewrite Ha. apply IH.
Qed.

Lemma dispatchAll_app (l1 l2 : list EngineAction)
  (start : DocumentState * Clock) :
  dispatchAll (l1 ++ l2) start = dispatchAll l2 (dispatchAll l1 start).
Proof. unfold dispatchAll. apply foldl_app. Qed.

(** The document reducer has no case for the actions of a pointer
    move. *)
Lemma updates_ignored (actions : list EngineAction) :
  forallb isUpdate actions = true ->
  forall start, dispatchAll actions start = start.
Proof.
  intros Hu. apply dispatchAll_ignored. apply Forall_forall.
  intros a Ha. apply list_elem_of_In in Ha.
  pose proof (proj1 (forallb_forall _ _) Hu a Ha) as Hupd.
  destruct a; try discriminate; reflexivity.
Qed.

(** A drag gesture from press to release, in preview mode at a scale
    other than 0.  Pressing on an unlocked element, moving the pointer at
    least once and releasing dispatches, on release, one [MOVE_ELEMENT]
    to the position computed for the last pointer position, followed by
    [END_DRAG].  Everything dispatched before leaves the document state
    as it is; the selection state ends without a drag, and the drag refs
    of the hook are cleared.  Unless a resize has been left pending by an
    earlier press on a handle, nothing else is dispatched, so that the
    gesture as a whole is one committed action.  With a resize pending,
    the release goes on to commit the remembered dimensions to the
    dragged element.  Outside preview mode pointer moves and releases do
    nothing. *)
Theorem drag_gesture_commits_once :
  (forall (doc : TemplateDocument) (config : EngineConfig) (rect : Q * Q)
          (refs0 : InteractionRefs) (target : string) (el : TemplateElement)
          (mouseX mouseY : Q) (points : list (Q * Q)) (lastPoint : Q * Q)
          (s : DocumentState) (clk : Clock) (sel : SelectionState),
     mode config = ModePreview ->
     ~ (scale config == 0)%Q ->
     soundResize refs0 ->
     List.find (fun e => String.eqb (id e) target) (elements doc) = Some el ->
     isElementLocked el (layers doc) = false ->
     truthy target = true ->
     last points = Some lastPoint ->
     let started :=
       startDrag doc config (Some rect) refs0 target mouseX mouseY in
     exists (moved : InteractionRefs * list EngineAction) (x y : Q),
       mouseMoves config true (fst started) points = Some moved
       /\ dragCoordinate config (pos_x (position el)) mouseX (fst lastPoint)
          = Fin x
       /\ dragCoordinate config (pos_y (position el)) mouseY (snd lastPoint)
          = Fin y
       /\ let released := handleMouseUp config (fst moved) in
          let commit := [MOVE_ELEMENT target (pointOf (x, y)); END_DRAG] in
          let actions := snd started ++ snd moved ++ snd released in
          snd released
          = commit
            ++ resizeCommit target
                 (if isResizing refs0 then lastResizeDims (fst moved)
                  else None)
          /\ dispatchAll (snd started ++ snd moved) (s, clk) = (s, clk)
          /\ dragState (selectAll actions sel) = None
          /\ isDragging (fst released) = false
          /\ dragStart (fst released) = None
          /\ lastDragPos (fst released) = None
          /\ activeElementId (fst released) = None
          /\ (isResizing refs0 = false ->
              snd released = commit
              /\ dispatchAll actions (s, clk)
                 = documentReducer s
                     (MOVE_ELEMENT target (pointOf (x, y))) clk
              /\ isResizing (fst released) = false
              /\ lastResizeDims (fst released) = lastResizeDims refs0))
  /\ (forall (config : EngineConfig) (hasCanvas : bool)
             (refs : InteractionRefs) (points : list (Q * Q)),
        mode config <> ModePreview ->
        mouseMoves config hasCanvas refs points = Some (refs, [])
        /\ handleMouseUp config refs = (refs, [])).
Proof.
  split; [|exact pointer_events_outside_preview].
  intros doc config [rectLeft rectTop] refs0 target el mouseX mouseY points
    lastPoint s clk sel Hmode Hscale Hsound Hfind Hlock Hid Hlast started.
  set (ds := {| ds_x := mouseX; ds_y := mouseY;
                ds_elX := pos_x (position el);
                ds_elY := pos_y (position el) |}).
  destruct refs0 as [dragging resizing dstart rstart active lastp lastd].
  assert (Hstarted :
            exists payload,
              started
              = ({| isDragging := true; isResizing := resizing;
                    dragStart := Some ds; resizeStart := rstart;
                    activeElementId := Some target; lastDragPos := lastp;
                    lastResizeDims := lastd |}, [START_DRAG payload])).
  { subst started. unfold startDrag. rewrite Hfind, Hlock.
    eexists. reflexivity. }
  destruct Hstarted as (payload & Hst). rewrite Hst. cbn [fst snd].
  destruct (mouseMoves_tracked config points Hmode Hscale
              {| isDragging := true; isResizing := resizing;
                 dragStart := Some ds; resizeStart := rstart;
                 activeElementId := Some target; lastDragPos := lastp;
                 lastResizeDims := lastd |} Hsound)
    as (updates & Hmoved & Hupdates).
  rewrite Hlast in Hmoved.
  eexists _, (finite (dragCoordinate config (pos_x (position el)) mouseX
                        (fst lastPoint))),
    (finite (dragCoordinate config (pos_y (position el)) mouseY
               (snd lastPoint))).
  split; [exact Hmoved|].
  split; [now apply dragCoordinate_finite|].
  split; [now apply dragCoordinate_finite|].
  cbn [fst snd].
  set (released := handleMouseUp config (tracked config _ lastPoint)).
  set (commit := [MOVE_ELEMENT target _; END_DRAG]).
  assert (Hquiet : dispatchAll ([START_DRAG payload] ++ updates) (s, clk)
                   = (s, clk)).
  { rewrite dispatchAll_app. cbn [dispatchAll foldl fst snd documentReducer].
    now apply updates_ignored. }
  assert (Hreleased :
            snd released
            = commit
              ++ resizeCommit target
                   (if resizing
                    then lastResizeDims
                           (tracked config
                              {| isDragging := true; isResizing := resizing;
                                 dragStart := Some ds; resizeStart := rstart;
                                 activeElementId := Some target;
                                 lastDragPos := lastp;
                                 lastResizeDims := lastd |} lastPoint)
                    else None)
            /\ isDragging (fst released) = false
            /\ dragStart (fst released) = None
            /\ lastDragPos (fst released) = None
            /\ activeElementId (fst released) = None
            /\ (resizing = false ->
                isResizing (fst released) = false
                /\ lastResizeDims (fst released) = lastd)).
  { subst released commit. cbn [fst].
    unfold handleMouseUp, activeId, tracked, dragPoint.
    rewrite Hmode.
    cbn [isPreview negb isDragging isResizing dragStart resizeStart
           activeElementId lastDragPos lastResizeDims ds_x ds_y ds_elX
           ds_elY ds fst snd].
    rewrite Hid.
    destruct resizing; [destruct rstart as [rs|], lastd as [wh|]|];
      cbn [isDragging isResizing dragStart resizeStart activeElementId
             lastDragPos lastResizeDims fst snd resizeCommit app];
      rewrite ?Hid;
      cbn [isDragging isResizing dragStart resizeStart activeElementId
             lastDragPos lastResizeDims fst snd resizeCommit app];
      repeat match goal with |- _ /\ _ => split end;
      try reflexivity;
      intros Hoff; first [discriminate Hoff | split; reflexivity]. }
  destruct Hreleased as (Hrel & Hdrag & Hstart & Hpos & Hactive & Hidle).
  cbn [isResizing fst snd].
  split; [exact Hrel|]. split; [exact Hquiet|].
  split; [|split; [exact Hdrag|split; [exact Hstart|split; [exact Hpos|
                   split; [exact Hactive|]]]]].
  - rewrite Hrel. subst commit.
    unfold selectAll. rewrite !foldl_app.
    destruct (if resizing then _ else None); reflexivity.
  - intros ->. destruct (Hidle eq_refl) as [Hr Hd].
    cbn [resizeCommit] in Hrel. rewrite app_nil_r in Hrel.
    split; [exact Hrel|]. split; [|split; [exact Hr | exact Hd]].
    rewrite Hrel, app_assoc, dispatchAll_app, Hquiet.
    reflexivity.
Qed.

Lemma drag_gesture_commits_once_witness :
  exists (moved : InteractionRefs * list EngineAction) (x y : Q),
    mouseMoves DEFAULT_ENGINE_CONFIG true
      (fst (startDrag oneElementDocument DEFAULT_ENGINE_CONFIG
              (Some (0, 0)%Q) initialRefs "el_1" 10 20))
      [(12, 22)%Q; (15, 25)%Q] = Some moved
    /\ dragCoordinate DEFAULT_ENGINE_CONFIG 0 10 15 = Fin x
    /\ dragCoordinate DEFAULT_ENGINE_CONFIG 0 20 25 = Fin y
    /\ snd (handleMouseUp DEFAULT_ENGINE_CONFIG (fst moved))
       = [MOVE_ELEMENT "el_1" (pointOf (x, y)); END_DRAG].
Proof.
  destruct drag_gesture_commits_once as [Hgesture _].
  destruct (Hgesture oneElementDocument DEFAULT_ENGINE_CONFIG
              (0, 0)%Q initialRefs "el_1" (sampleElement "el_1" "default" 0)
              10%Q 20%Q [(12, 22)%Q; (15, 25)%Q] (15, 25)%Q
              (initialState oneElementDocument) sampleClock initialSelection)
    as (moved & x & y & Hmoved & Hx & Hy & _ & _ & _ & _ & _ & _ & _ & Hidle);
    [reflexivity | discriminate | discriminate | reflexivity | reflexivity
    | reflexivity | reflexivity |].
  exists moved, x, y. split; [exact Hmoved|]. split; [exact Hx|].
  split; [exact Hy|]. now apply Hidle.
Defined.

(** A press on an unlocked element that is released before the pointer
    moves, in preview mode at a scale other than 0.  The release commits
    what the refs remember from before the press: a remembered drag
    position moves the pressed element there, and a pending resize is
    committed to it; the active element is forgotten.  When nothing is
    remembered and no resize is pending, the release dispatches nothing,
    so the [START_DRAG] of the press is not followed by [END_DRAG] and
    the dragging flag stays set.  A pointer move after that still
    dispatches [UPDATE_DRAG], computed from the press, and the next
    release dispatches nothing; but the position stays remembered, and a
    later press and release on any unlocked element, without a move in
    between, moves that element to it. *)
Theorem press_without_move_leaves_drag_open :
  forall (doc : TemplateDocument) (config : EngineConfig) (rect : Q * Q)
         (refs0 : InteractionRefs) (target : string) (el : TemplateElement)
         (mouseX mouseY : Q),
    mode config = ModePreview ->
    ~ (scale config == 0)%Q ->
    List.find (fun e => String.eqb (id e) target) (elements doc) = Some el ->
    isElementLocked el (layers doc) = false ->
    truthy target = true ->
    let started :=
      startDrag doc config (Some rect) refs0 target mouseX mouseY in
    let released := handleMouseUp config (fst started) in
    (exists payload, snd started = [START_DRAG payload])
    /\ snd released
       = dragCommit target (lastDragPos refs0)
         ++ resizeCommit target
              (if isResizing refs0 then lastResizeDims refs0 else None)
    /\ activeElementId (fst released) = None
    /\ (lastDragPos refs0 = None ->
        isResizing refs0 = false ->
        snd released = []
        /\ isDragging (fst released) = true
        /\ forall x y : Q,
           exists (later : InteractionRefs * list EngineAction) (p : Q * Q),
             handleMouseMove config true (fst released) x y = Some later
             /\ dragCoordinate config (pos_x (position el)) mouseX x
                = Fin (fst p)
             /\ dragCoordinate config (pos_y (position el)) mouseY y
                = Fin (snd p)
             /\ snd later = [UPDATE_DRAG (pointOf p)]
             /\ snd (handleMouseUp config (fst later)) = []
             /\ forall (target2 : string) (el2 : TemplateElement)
                       (rect2 : Q * Q) (x2 y2 : Q),
                  List.find (fun e => String.eqb (id e) target2)
                    (elements doc) = Some el2 ->
                  isElementLocked el2 (layers doc) = false ->
                  truthy target2 = true ->
                  snd (handleMouseUp config
                         (fst (startDrag doc config (Some rect2)
                                 (fst (handleMouseUp config (fst later)))
                                 target2 x2 y2)))
                  = [MOVE_ELEMENT target2 (pointOf p); END_DRAG]).
Proof.
  intros doc config [rectLeft rectTop] refs0 target el mouseX mouseY
    Hmode Hscale Hfind Hlock Hid started released.
  set (ds := {| ds_x := mouseX; ds_y := mouseY;
                ds_elX := pos_x (position el);
                ds_elY := pos_y (position el) |}).
  destruct refs0 as [dragging resizing dstart rstart active lastp lastd].
  assert (Hstarted :
            exists payload,
              started
              = ({| isDragging := true; isResizing := resizing;
                    dragStart := Some ds; resizeStart := rstart;
                    activeElementId := Some target; lastDragPos := lastp;
                    lastResizeDims := lastd |}, [START_DRAG payload])).
  { subst started. unfold startDrag. rewrite Hfind, Hlock.
    eexists. reflexivity. }
  destruct Hstarted as (payload & Hst).
  subst released. rewrite Hst. clear Hst started.
  cbn [fst snd isResizing lastDragPos lastResizeDims].
  split; [eexists; reflexivity|].
  assert (Hup : forall refs : InteractionRefs,
             handleMouseUp config refs
             = (let '(refs1, dragActions) :=
                  match isDragging refs, activeId refs, lastDragPos refs with
                  | true, Some i, Some pos =>
                      ({| isDragging := false; isResizing := isResizing refs;
                          dragStart := None; resizeStart := resizeStart refs;
                          activeElementId := activeElementId refs;
                          lastDragPos := None;
                          lastResizeDims := lastResizeDims refs |},
                       [MOVE_ELEMENT i (pointOf pos); END_DRAG])
                  | _, _, _ => (refs, [])
                  end in
                let '(refs2, resizeActions) :=
                  match isResizing refs1, activeId refs1,
                        lastResizeDims refs1 with
                  | true, Some i, Some wh =>
                      ({| isDragging := isDragging refs1; isResizing := false;
                          dragStart := dragStart refs1; resizeStart := None;
                          activeElementId := activeElementId refs1;
                          lastDragPos := lastDragPos refs1;
                          lastResizeDims := None |},
                       [RESIZE_ELEMENT i (dimsOf wh) None; END_RESIZE])
                  | _, _, _ => (refs1, [])
                  end in
                ({| isDragging := isDragging refs2;
                    isResizing := isResizing refs2;
                    dragStart := dragStart refs2;
                    resizeStart := resizeStart refs2;
                    activeElementId := None;
                    lastDragPos := lastDragPos refs2;
                    lastResizeDims := lastResizeDims refs2 |},
                 dragActions ++ resizeActions))).
  { intros refs. unfold handleMouseUp. now rewrite Hmode. }
  split; [|split; [|intros -> ->]].
  - rewrite Hup. unfold activeId.
    cbn [isDragging isResizing dragStart resizeStart activeElementId
           lastDragPos lastResizeDims].
    rewrite Hid.
    destruct lastp as [pos|], resizing, lastd as [wh|];
      cbn [isDragging isResizing dragStart resizeStart activeElementId
             lastDragPos lastResizeDims fst snd dragCommit resizeCommit app];
      rewrite ?Hid; reflexivity.
  - rewrite Hup. unfold activeId.
    cbn [isDragging isResizing dragStart resizeStart activeElementId
           lastDragPos lastResizeDims].
    rewrite Hid.
    destruct lastp as [pos|], resizing, lastd as [wh|];
      cbn [isDragging isResizing dragStart resizeStart activeElementId
             lastDragPos lastResizeDims fst snd];
      rewrite ?Hid; reflexivity.
  - assert (Hopen :
              handleMouseUp config
                {| isDragging := true; isResizing := false;
                   dragStart := Some ds; resizeStart := rstart;
                   activeElementId := Some target; lastDragPos := None;
                   lastResizeDims := lastd |}
              = ({| isDragging := true; isResizing := false;
                    dragStart := Some ds; resizeStart := rstart;
                    activeElementId := None; lastDragPos := None;
                    lastResizeDims := lastd |}, [])).
    { rewrite Hup. unfold activeId.
      cbn [isDragging isResizing dragStart resizeStart activeElementId
             lastDragPos lastResizeDims].
      rewrite Hid. reflexivity. }
    rewrite Hopen. cbn [fst snd isDragging].
    split; [reflexivity|]. split; [reflexivity|]. intros x y.
    destruct (handleMouseMove_tracked config
                {| isDragging := true; isResizing := false;
                   dragStart := Some ds; resizeStart := rstart;
                   activeElementId := None; lastDragPos := None;
                   lastResizeDims := lastd |}
                x y Hmode Hscale ltac:(discriminate))
      as (actions & Hlater & _).
    pose proof Hlater as Hactions.
    unfold handleMouseMove in Hactions. rewrite Hmode in Hactions.
    cbn [isPreview negb isDragging isResizing dragStart resizeStart
           activeElementId lastDragPos lastResizeDims ds_x ds_y ds_elX
           ds_elY ds] in Hactions.
    rewrite (dragCoordinate_finite config (pos_x (position el)) mouseX x
               Hscale),
      (dragCoordinate_finite config (pos_y (position el)) mouseY y Hscale)
      in Hactions.
    cbn [finite isDragging isResizing dragStart resizeStart activeElementId
           lastDragPos lastResizeDims] in Hactions.
    assert (Hupdate :
              actions
              = [UPDATE_DRAG
                   (pointOf
                      (finite (dragCoordinate config (pos_x (position el))
                                 mouseX x),
                       finite (dragCoordinate config (pos_y (position el))
                                 mouseY y)))]) by congruence.
    clear Hactions.
    eexists _, (finite (dragCoordinate config (pos_x (position el)) mouseX x),
                finite (dragCoordinate config (pos_y (position el)) mouseY y)).
    split; [exact Hlater|]. cbn [fst snd].
    split; [now apply dragCoordinate_finite|].
    split; [now apply dragCoordinate_finite|].
    split; [exact Hupdate|].
    assert (Hlate :
              handleMouseUp config
                (tracked config
                   {| isDragging := true; isResizing := false;
                      dragStart := Some ds; resizeStart := rstart;
                      activeElementId := None; lastDragPos := None;
                      lastResizeDims := lastd |} (x, y))
              = ({| isDragging := true; isResizing := false;
                    dragStart := Some ds; resizeStart := rstart;
                    activeElementId := None;
                    lastDragPos :=
                      Some (finite (dragCoordinate config
                                      (pos_x (position el)) mouseX x),
                            finite (dragCoordinate config
                                      (pos_y (position el)) mouseY y));
                    lastResizeDims := lastd |}, [])).
    { rewrite Hup. reflexivity. }
    rewrite Hlate. cbn [fst snd]. split; [reflexivity|].
    intros target2 el2 [rect2x rect2y] x2 y2 Hfind2 Hlock2 Hid2.
    unfold startDrag. rewrite Hfind2, Hlock2. cbn [fst].
    rewrite Hup. unfold activeId.
    cbn [isDragging isResizing dragStart resizeStart activeElementId
           lastDragPos lastResizeDims].
    rewrite Hid2. reflexivity.
Qed.

Lemma press_without_move_leaves_drag_open_witness :
  snd (handleMouseUp DEFAULT_ENGINE_CONFIG
         (fst (startDrag oneElementDocument DEFAULT_ENGINE_CONFIG
                 (Some (0, 0)%Q) initialRefs "el_1" 10 20))) = [].
Proof.
  destruct (press_without_move_leaves_drag_open oneElementDocument
              DEFAULT_ENGINE_CONFIG (0, 0)%Q initialRefs "el_1"
              (sampleElement "el_1" "default" 0) 10 20)
    as (_ & _ & _ & Hopen);
    [reflexivity | discriminate | reflexivity | reflexivity | reflexivity |].
  now apply Hopen.
Defined.

(** ** Keyboard handler *)

Lemma removeAll_dispatch (ids : list string) :
  forall (s : DocumentState) (clk : Clock),
    let after := dispatchAll (map REMOVE_ELEMENT ids) (s, clk) in
    elements (document (fst after))
    = List.filter (fun el => negb (existsb (String.eqb (id el)) ids))
        (elements (document s))
    /\ withElements (document (fst after)) (elements (document s))
       = document s
    /\ allCommitted (map REMOVE_ELEMENT ids) (s, clk) = true.
Proof.
  induction ids as [|i rest IH]; intros s clk after; subst after.
  - cbn [map dispatchAll foldl fst existsb negb allCommitted].
    split; [|split; [destruct (document s)|]; reflexivity].
    symmetry. apply filter_all. intros; reflexivity.
  - cbn [map dispatchAll foldl fst snd allCommitted pushesHistory andb
           documentReducer].
    specialize (IH (pushHistory s
                      (withElements (document s)
                         (List.filter
                            (fun el => negb (String.eqb (id el) i))
                            (elements (document s))))) clk).
    cbn zeta in IH. destruct IH as (Hels & Hframe & Hall).
    change (foldl _ ?st (map REMOVE_ELEMENT rest))
      with (dispatchAll (map REMOVE_ELEMENT rest) st).
    split; [|split; [|exact Hall]].
    + rewrite Hels. cbn [pushHistory document withElements elements].
      rewrite filter_twice. apply filter_ext_bool. intros el.
      cbn [existsb]. now rewrite negb_orb.
    + cbn [pushHistory document withElements elements] in Hframe.
      apply (f_equal (fun d => withElements d (elements (document s))))
        in Hframe.
      destruct (document (fst (dispatchAll (map REMOVE_ELEMENT rest) _)));
        destruct (document s); exact Hframe.
Qed.

(** The Delete and Backspace keys, when the keyboard is enabled in
    preview mode and something is selected.  The handler dispatches one
    [REMOVE_ELEMENT] for each selected id and then clears the selection.
    Afterwards the document holds exactly the elements whose id was not
    selected, in their order, locked or not, and nothing else in the
    document has changed; the selection is empty and there is nothing to
    redo.  Every selected id costs one history entry: while the history
    has room, as many undo steps as there were selected ids bring the
    document back. *)
Theorem delete_key_removes_selection :
  forall (doc : TemplateDocument) (config : EngineConfig)
         (ids : list string) (e : KeyEvent)
         (s : DocumentState) (clk : Clock) (sel : SelectionState),
    enableKeyboard config = true ->
    mode config = ModePreview ->
    ids <> [] ->
    key e = "Delete" \/ key e = "Backspace" ->
    let actions := handleKeyDown doc config ids e in
    let after := dispatchAll actions (s, clk) in
    actions = map REMOVE_ELEMENT ids ++ [SELECT_ELEMENTS []]
    /\ elements (document (fst after))
       = List.filter (fun el => negb (existsb (String.eqb (id el)) ids))
           (elements (document s))
    /\ withElements (document (fst after)) (elements (document s))
       = document s
    /\ future (fst after) = []
    /\ selectedIds (foldl selectionReducer sel actions) = []
    /\ ((length (history s) + length ids <= S MAX_HISTORY)%nat ->
        document (fst (undoTimes (length ids) after)) = document s).
Proof.
  intros doc config ids e s clk sel Hkbd Hmode Hsel Hkey actions after.
  assert (Hactions : actions
                     = map REMOVE_ELEMENT ids ++ [SELECT_ELEMENTS []]).
  { subst actions. unfold handleKeyDown. rewrite Hkbd, Hmode.
    cbn [negb isPreview orb]. destruct ids as [|i rest]; [congruence|].
    destruct Hkey as [-> | ->]; reflexivity. }
  assert (Hafter : after = dispatchAll (map REMOVE_ELEMENT ids) (s, clk)).
  { subst after. rewrite Hactions, dispatchAll_app.
    destruct (dispatchAll (map REMOVE_ELEMENT ids) (s, clk)); reflexivity. }
  destruct (removeAll_dispatch ids s clk) as (Hels & Hframe & Hall).
  cbn zeta in Hels, Hframe. rewrite <- Hafter in Hels, Hframe.
  split; [exact Hactions|]. split; [exact Hels|]. split; [exact Hframe|].
  split; [|split].
  - destruct ids as [|i rest]; [congruence|].
    rewrite Hafter. cbn [map dispatchAll foldl fst snd documentReducer].
    cbn [map allCommitted pushesHistory andb fst snd documentReducer] in Hall.
    apply (dispatchAll_future (map REMOVE_ELEMENT rest) _ Hall).
    reflexivity.
  - rewrite Hactions, foldl_app. reflexivity.
  - intros Hroom. rewrite Hafter.
    pose proof (undoTimes_dispatchAll (map REMOVE_ELEMENT ids) (s, clk) Hall)
      as Hundo.
    rewrite length_map in Hundo. cbn [fst] in Hundo.
    exact (proj1 (Hundo Hroom)).
Qed.

Lemma delete_key_removes_selection_witness :
  elements
    (document
       (fst (dispatchAll
               (handleKeyDown oneElementDocument DEFAULT_ENGINE_CONFIG
                  ["el_1"; "gone"]
                  {| key := "Delete"; shiftKey := false; ctrlKey := false;
                     metaKey := false |})
               (initialState oneElementDocument, sampleClock))))
  = []
  /\ document
       (fst (undoTimes 2
               (dispatchAll
                  (handleKeyDown oneElementDocument DEFAULT_ENGINE_CONFIG
                     ["el_1"; "gone"]
                     {| key := "Delete"; shiftKey := false;
                        ctrlKey := false; metaKey := false |})
                  (initialState oneElementDocument, sampleClock))))
     = oneElementDocument.
Proof.
  destruct (delete_key_removes_selection oneElementDocument
              DEFAULT_ENGINE_CONFIG ["el_1"; "gone"]
              {| key := "Delete"; shiftKey := false; ctrlKey := false;
                 metaKey := false |}
              (initialState oneElementDocument) sampleClock initialSelection)
    as (_ & Hels & _ & _ & _ & Hundo);
    [reflexivity | reflexivity | discriminate | left; reflexivity |].
  split; [rewrite Hels; reflexivity|].
  apply Hundo. vm_compute. lia.
Defined.

Lemma find_unique (els : list TemplateElement) (el : TemplateElement) :
  NoDup (map id els) -> In el els ->
  List.find (fun e => String.eqb (id e) (id el)) els = Some el.
Proof.
  induction els as [|x els IH]; intros Hnd Hin; [destruct Hin|].
  cbn [map] in Hnd. apply NoDup_cons in Hnd as [Hx Hrest].
  cbn [List.find].
  destruct Hin as [-> | Hin]; [now rewrite String.eqb_refl|].
  destruct (String.eqb_spec (id x) (id el)) as [Heq | _];
    [|now apply IH].
  exfalso. apply Hx. rewrite Heq. apply list_elem_of_In.
  now apply in_map.
Qed.

Lemma find_none_id (target : string) (els : list TemplateElement)
  (el : TemplateElement) :
  List.find (fun e => String.eqb (id e) target) els = None ->
  In el els -> String.eqb (id el) target = false.
Proof. intros Hnone Hin. exact (find_none _ _ Hnone el Hin). Qed.

Lemma existsb_snoc (i : string) (done : list string) (k : string) :
  existsb (String.eqb k) (done ++ [i])
  = existsb (String.eqb k) done || String.eqb k i.
Proof. rewrite existsb_app. cbn [existsb]. now rewrite orb_false_r. Qed.

Lemma shiftedIfSelected_id (doc : TemplateDocument)
  (shift : Position -> Position) (ids : list string) (el : TemplateElement) :
  id (shiftedIfSelected doc shift ids el) = id el.
Proof. unfold shiftedIfSelected. now destruct (_ && _). Qed.

Lemma arrowMoves_elements (doc : TemplateDocument)
  (shift : Position -> Position) (ids : list string) :
  NoDup (map id (elements doc)) ->
  forall (done : list string) (s : DocumentState) (clk : Clock),
    elements (document s)
    = map (shiftedIfSelected doc shift done) (elements doc) ->
    withElements (document s) (elements doc) = doc ->
    let after := dispatchAll (arrowMoves doc ids shift) (s, clk) in
    elements (document (fst after))
    = map (shiftedIfSelected doc shift (done ++ ids)) (elements doc)
    /\ withElements (document (fst after)) (elements doc) = doc.
Proof.
  intros Hnd. induction ids as [|i rest IH]; intros done s clk Hels Hframe.
  - cbn. rewrite app_nil_r. split; assumption.
  - cbn zeta. unfold arrowMoves. cbn [flat_map]. rewrite dispatchAll_app.
    fold (arrowMoves doc rest shift).
    replace (done ++ i :: rest) with ((done ++ [i]) ++ rest)
      by now rewrite <- app_assoc.
    assert (Hother : forall el,
               In el (elements doc) -> String.eqb (id el) i = false ->
               shiftedIfSelected doc shift (done ++ [i]) el
               = shiftedIfSelected doc shift done el).
    { intros el _ Hne. unfold shiftedIfSelected.
      now rewrite existsb_snoc, Hne, orb_false_r. }
    destruct (List.find (fun el => String.eqb (id el) i) (elements doc))
      as [el0|] eqn:Hfind.
    + apply find_some_id in Hfind as Hel0. destruct Hel0 as [Hin0 Hid0].
      assert (Hsame : forall el,
                 In el (elements doc) -> String.eqb (id el) i = true ->
                 el = el0).
      { intros el Hin Heq. apply String.eqb_eq in Heq.
        pose proof (find_unique _ el Hnd Hin) as Hu.
        rewrite Heq, Hfind in Hu. congruence. }
      destruct (isElementLocked el0 (layers doc)) eqn:Hlock; cbn [negb].
      * cbn [dispatchAll foldl]. apply (IH (done ++ [i]) s clk);
          [|exact Hframe].
        rewrite Hels. apply map_ext_in. intros el Hin.
        destruct (String.eqb (id el) i) eqn:Heq;
          [|symmetry; now apply Hother].
        rewrite (Hsame el Hin Heq). unfold shiftedIfSelected.
        now rewrite Hlock, !andb_false_r.
      * cbn [dispatchAll foldl fst snd documentReducer].
        apply IH.
        -- cbn [pushHistory document withElements elements].
           rewrite Hels, map_map. apply map_ext_in. intros el Hin.
           rewrite shiftedIfSelected_id.
           destruct (String.eqb (id el) i) eqn:Heq;
             [|symmetry; now apply Hother].
           rewrite (Hsame el Hin Heq). unfold shiftedIfSelected.
           rewrite existsb_snoc, Hid0, String.eqb_refl, orb_true_r, Hlock.
           cbn [andb negb].
           destruct (existsb _ done); reflexivity.
        -- cbn [pushHistory document withElements elements].
           rewrite <- Hframe at 2. destruct (document s); reflexivity.
    + cbn [dispatchAll foldl]. apply (IH (done ++ [i]) s clk);
        [|exact Hframe].
      rewrite Hels. apply map_ext_in. intros el Hin. symmetry.
      apply Hother; [exact Hin|]. exact (find_none_id i _ el Hfind Hin).
Qed.

(** The arrow keys, when the keyboard is enabled in preview mode, in a
    document whose element ids are distinct and which is the current
    document of the reducer.  After the key every element whose id is
    selected and which is not locked, by itself or by its layer, has the
    position one step away from its old one in the direction of the key;
    every other element, locked or not selected, is as it was.  The step
    is 10 with Shift, else the grid size when snapping is on, else 1.  An
    id selected twice moves its element one step, not two.  Nothing else
    in the document changes. *)
Theorem arrow_keys_move_unlocked_selection :
  forall (doc : TemplateDocument) (config : EngineConfig)
         (ids : list string) (e : KeyEvent)
         (s : DocumentState) (clk : Clock),
    NoDup (map id (elements doc)) ->
    document s = doc ->
    enableKeyboard config = true ->
    mode config = ModePreview ->
    In (key e) ["ArrowUp"; "ArrowDown"; "ArrowLeft"; "ArrowRight"] ->
    let after := dispatchAll (handleKeyDown doc config ids e) (s, clk) in
    elements (document (fst after))
    = map (shiftedIfSelected doc
             (arrowShift (key e) (arrowStep config e)) ids)
        (elements doc)
    /\ withElements (document (fst after)) (elements doc) = doc
    /\ forall el,
         In el (elements doc) ->
         isElementLocked el (layers doc) = true ->
         In el (elements (document (fst after))).
Proof.
  intros doc config ids e s clk Hnd Hdoc Hkbd Hmode Hkey after.
  assert (Hactions : handleKeyDown doc config ids e
                     = arrowMoves doc ids
                         (arrowShift (key e) (arrowStep config e))).
  { unfold handleKeyDown. rewrite Hkbd, Hmode. cbn [negb isPreview orb].
    destruct ids as [|i rest]; [reflexivity|].
    fold (arrowStep config e).
    cbn [In] in Hkey.
    destruct Hkey as [Hk | [Hk | [Hk | [Hk | []]]]]; rewrite <- Hk;
      reflexivity. }
  subst after. rewrite Hactions.
  destruct (arrowMoves_elements doc
              (arrowShift (key e) (arrowStep config e)) ids Hnd [] s clk)
    as [Hels Hframe].
  { rewrite Hdoc. symmetry. rewrite <- (map_id (elements doc)) at 2.
    apply map_ext. intros el. reflexivity. }
  { rewrite Hdoc. apply withElements_same. }
  cbn zeta in Hels, Hframe. cbn [app] in Hels.
  split; [exact Hels|]. split; [exact Hframe|].
  intros el Hin Hlock. rewrite Hels.
  replace el with (shiftedIfSelected doc
                     (arrowShift (key e) (arrowStep config e)) ids el) at 1
    by (unfold shiftedIfSelected; now rewrite Hlock, andb_false_r).
  now apply in_map.
Qed.

Lemma arrow_keys_move_unlocked_selection_witness :
  map (fun el => (id el, pos_x (position el)))
    (elements
       (document
          (fst (dispatchAll
                  (handleKeyDown lockedAndFree DEFAULT_ENGINE_CONFIG
                     ["el_1"; "el_2"; "el_2"] arrowRight)
                  (initialState lockedAndFree, sampleClock)))))
  = [("el_1", 0%Q); ("el_2", (0 + 1)%Q)].
Proof.
  destruct (arrow_keys_move_unlocked_selection lockedAndFree
              DEFAULT_ENGINE_CONFIG ["el_1"; "el_2"; "el_2"] arrowRight
              (initialState lockedAndFree) sampleClock)
    as (Hels & _ & _);
    [| reflexivity | reflexivity | reflexivity
     | right; right; right; left; reflexivity |].
  - apply (bool_decide_unpack _). vm_compute. exact I.
  - rewrite Hels. reflexivity.
Defined.

(** ** Selection by click *)







(** ** Resize gesture *)

Lemma find_map_same_id (target : string)
  (g : TemplateElement -> TemplateElement) (l : list TemplateElement) :
  (forall el, id (g el) = id el) ->
  List.find (fun el => String.eqb (id el) target)
    (map (fun el => if String.eqb (id el) target then g el else el) l)
  = option_map g (List.find (fun el => String.eqb (id el) target) l).
Proof.
  intros Hg. induction l as [|x l IH]; [reflexivity|].
  cbn [map List.find]. destruct (String.eqb (id x) target) eqn:Hx.
  - now rewrite Hg, Hx.
  - now rewrite Hx, IH.
Qed.

(** A resize gesture from press to release, in preview mode at a scale
    other than 0.  Pressing a handle of an unlocked element, moving the
    pointer at least once and releasing commits one [RESIZE_ELEMENT],
    which carries the width and height computed for the last pointer
    position and no position, followed by [END_RESIZE]; everything
    dispatched before leaves the document state as it is, and the resize
    refs of the hook are cleared.  Unless a drag has been left open by an
    earlier press, nothing else is dispatched.  Then, whichever handle
    was used, no element changes its position; the committed dimensions
    replace those of the element whole, so that the resized element has
    lost its aspect lock and its minimum and maximum sizes, and the next
    press on it starts a resize without aspect lock.  With a drag left
    open, the release first moves the resized element to the position
    the open drag remembers. *)
Theorem resize_gesture_commits_size_only :
  forall (doc : TemplateDocument) (config : EngineConfig)
         (refs0 : InteractionRefs) (target : string) (el : TemplateElement)
         (handle : ResizeHandle) (mouseX mouseY : Q)
         (points : list (Q * Q)) (lastPoint : Q * Q)
         (s : DocumentState) (clk : Clock),
    mode config = ModePreview ->
    ~ (scale config == 0)%Q ->
    soundStart (resizeStartOf el handle mouseX mouseY) ->
    List.find (fun e => String.eqb (id e) target) (elements doc) = Some el ->
    isElementLocked el (layers doc) = false ->
    truthy target = true ->
    last points = Some lastPoint ->
    document s = doc ->
    let started := startResize doc refs0 target handle mouseX mouseY in
    let final :=
      dimsOf (resizeDimensions config
                (resizeStartOf el handle mouseX mouseY)
                (fst lastPoint) (snd lastPoint)) in
    exists moved : InteractionRefs * list EngineAction,
      mouseMoves config true (fst started) points = Some moved
      /\ let released := handleMouseUp config (fst moved) in
         let commit := [RESIZE_ELEMENT target final None; END_RESIZE] in
         let actions := snd started ++ snd moved ++ snd released in
         let after := dispatchAll actions (s, clk) in
         snd released
         = dragCommit target
             (if isDragging refs0 then lastDragPos (fst moved) else None)
           ++ commit
         /\ dispatchAll (snd started ++ snd moved) (s, clk) = (s, clk)
         /\ isResizing (fst released) = false
         /\ resizeStart (fst released) = None
         /\ lastResizeDims (fst released) = None
         /\ activeElementId (fst released) = None
         /\ (isDragging refs0 = false ->
             snd released = commit
             /\ after
                = documentReducer s (RESIZE_ELEMENT target final None) clk
             /\ map position (elements (document (fst after)))
                = map position (elements doc)
             /\ (forall e,
                   In e (elements (document (fst after))) -> id e = target ->
                   dimensions e = final
                   /\ dim_aspectLock (dimensions e) = None
                   /\ dim_minWidth (dimensions e) = None
                   /\ dim_maxWidth (dimensions e) = None)
             /\ forall (h : ResizeHandle) (x y : Q),
                exists rs,
                  resizeStart
                    (fst (startResize (document (fst after)) (fst released)
                            target h x y))
                  = Some rs
                  /\ rs_aspectLock rs = false).
Proof.
  intros doc config refs0 target el handle mouseX mouseY points lastPoint
    s clk Hmode Hscale Hsound Hfind Hlock Hid Hlast Hdoc started final.
  set (rs := resizeStartOf el handle mouseX mouseY) in *.
  destruct refs0 as [dragging resizing dstart rstart active lastp lastd].
  assert (Hstarted :
            exists payload,
              started
              = ({| isDragging := dragging; isResizing := true;
                    dragStart := dstart; resizeStart := Some rs;
                    activeElementId := Some target; lastDragPos := lastp;
                    lastResizeDims := lastd |}, [START_RESIZE payload])).
  { subst started. unfold startResize. rewrite Hfind, Hlock.
    eexists. reflexivity. }
  destruct Hstarted as (payload & Hst). rewrite Hst. cbn [fst snd].
  destruct (mouseMoves_tracked config points Hmode Hscale
              {| isDragging := dragging; isResizing := true;
                 dragStart := dstart; resizeStart := Some rs;
                 activeElementId := Some target; lastDragPos := lastp;
                 lastResizeDims := lastd |})
    as (updates & Hmoved & Hupdates).
  { intros _ rs' Hrs'. cbn [resizeStart] in Hrs'. now injection Hrs' as <-. }
  rewrite Hlast in Hmoved.
  eexists. split; [exact Hmoved|]. cbn [fst snd isDragging].
  set (released := handleMouseUp config (tracked config _ lastPoint)).
  set (commit := [RESIZE_ELEMENT target final None; END_RESIZE]).
  assert (Hquiet : dispatchAll ([START_RESIZE payload] ++ updates) (s, clk)
                   = (s, clk)).
  { rewrite dispatchAll_app. cbn [dispatchAll foldl fst snd documentReducer].
    now apply updates_ignored. }
  assert (Hreleased :
            snd released
            = dragCommit target
                (if dragging
                 then lastDragPos
                        (tracked config
                           {| isDragging := dragging; isResizing := true;
                              dragStart := dstart; resizeStart := Some rs;
                              activeElementId := Some target;
                              lastDragPos := lastp;
                              lastResizeDims := lastd |} lastPoint)
                 else None)
              ++ commit
            /\ isResizing (fst released) = false
            /\ resizeStart (fst released) = None
            /\ lastResizeDims (fst released) = None
            /\ activeElementId (fst released) = None
            /\ (dragging = false ->
                fst released
                = {| isDragging := false; isResizing := false;
                     dragStart := dstart; resizeStart := None;
                     activeElementId := None; lastDragPos := lastp;
                     lastResizeDims := None |})).
  { subst released commit final. cbn [fst].
    unfold handleMouseUp, activeId, tracked, resizePoint.
    rewrite Hmode.
    cbn [isPreview negb isDragging isResizing dragStart resizeStart
           activeElementId lastDragPos lastResizeDims fst snd].
    rewrite ?Hid.
    destruct dragging; [destruct dstart as [ds|], lastp as [pos|]|];
      cbn [isDragging isResizing dragStart resizeStart activeElementId
             lastDragPos lastResizeDims fst snd dragCommit app];
      rewrite ?Hid;
      cbn [isDragging isResizing dragStart resizeStart activeElementId
             lastDragPos lastResizeDims fst snd dragCommit app];
      repeat match goal with |- _ /\ _ => split end;
      try reflexivity;
      intros Hoff; first [discriminate Hoff | reflexivity]. }
  destruct Hreleased as (Hrel & Hres & Hstart & Hdims & Hactive & Hidle).
  split; [exact Hrel|]. split; [exact Hquiet|].
  split; [exact Hres|]. split; [exact Hstart|]. split; [exact Hdims|].
  split; [exact Hactive|].
  intros ->. specialize (Hidle eq_refl).
  cbn [dragCommit app] in Hrel.
  assert (Hafter :
            dispatchAll
              ([START_RESIZE payload] ++ updates ++ snd released) (s, clk)
            = documentReducer s (RESIZE_ELEMENT target final None) clk).
  { rewrite app_assoc, dispatchAll_app, Hquiet, Hrel. reflexivity. }
  rewrite Hafter.
  assert (Hels : elements
                   (document
                      (fst (documentReducer s
                              (RESIZE_ELEMENT target final None) clk)))
                 = map (fun e => if String.eqb (id e) target
                                 then withDimensions e final else e)
                     (elements doc)).
  { rewrite <- Hdoc. reflexivity. }
  split; [exact Hrel|]. split; [reflexivity|]. split; [|split].
  - rewrite Hels, map_map. apply map_ext. intros e.
    now destruct (String.eqb (id e) target).
  - intros e Hin He. rewrite Hels in Hin.
    apply in_map_iff in Hin as (e0 & <- & _).
    destruct (String.eqb_spec (id e0) target) as [_ | Hne];
      [repeat split | contradiction].
  - intros h x y. unfold startResize. rewrite Hels.
    rewrite (find_map_same_id target (fun e => withDimensions e final))
      by reflexivity.
    rewrite Hfind. cbn [option_map].
    assert (Hlayers :
              layers (document
                        (fst (documentReducer s
                                (RESIZE_ELEMENT target final None) clk)))
              = layers doc).
    { rewrite <- Hdoc. reflexivity. }
    rewrite Hlayers.
    change (isElementLocked (withDimensions el final) (layers doc))
      with (isElementLocked el (layers doc)).
    rewrite Hlock. eexists. split; reflexivity.
Qed.

Lemma resize_gesture_commits_size_only_witness :
  exists moved : InteractionRefs * list EngineAction,
    mouseMoves DEFAULT_ENGINE_CONFIG true
      (fst (startResize ratioLockedDocument initialRefs "el_1" HRight
              100 20))
      [(150, 20)%Q] = Some moved
    /\ snd (handleMouseUp DEFAULT_ENGINE_CONFIG (fst moved))
       = [RESIZE_ELEMENT "el_1"
            (dimsOf (resizeDimensions DEFAULT_ENGINE_CONFIG
                       (resizeStartOf
                          (withDimensions (sampleElement "el_1" "default" 0)
                             {| dim_width := 100; dim_height := 40;
                                dim_minWidth := Some 20%Q;
                                dim_minHeight := None;
                                dim_maxWidth := None; dim_maxHeight := None;
                                dim_aspectLock := Some true |})
                          HRight 100 20)
                       150 20)) None;
          END_RESIZE].
Proof.
  destruct (resize_gesture_commits_size_only ratioLockedDocument
              DEFAULT_ENGINE_CONFIG initialRefs "el_1"
              (withDimensions (sampleElement "el_1" "default" 0)
                 {| dim_width := 100; dim_height := 40;
                    dim_minWidth := Some 20%Q; dim_minHeight := None;
                    dim_maxWidth := None; dim_maxHeight := None;
                    dim_aspectLock := Some true |})
              HRight 100 20 [(150, 20)%Q] (150, 20)%Q
              (initialState ratioLockedDocument) sampleClock)
    as (moved & Hmoved & _ & _ & _ & _ & _ & _ & Hidle);
    [reflexivity | discriminate | intros _; split; discriminate
    | reflexivity | reflexivity | reflexivity | reflexivity | reflexivity |].
  exists moved. split; [exact Hmoved|]. now apply Hidle.
Defined.
